(** * Arcadia view provider: agent discovery, transcript tailing and
      activity interpretation

    A shallow embedding of the [ArcadiaViewProvider] class: the claim set and
    agent registry, the directory scanner, the tailing reader, the transcript
    interpreter with its timers, and teardown.  The provider object and the
    pending timers, watchers and posted webview messages of the event loop
    form one explicit state, [World]; every method is a function on it.  The
    file system, the wall clock and the configuration are read through a
    snapshot [Env] that each event handler receives. *)

From stdpp Require Import gmap list strings sorting.

Set Warnings "-register-all".

Local Open Scope Z_scope.

(** * JavaScript values *)

(** A JavaScript string is its sequence of UTF-16 code units. *)
Abbreviation jsstring := (list Z).

(** An ASCII literal of the source as a JavaScript string. *)
Definition lit (s : string) : jsstring :=
  (λ a, Z.of_N (Ascii.N_of_ascii a)) <$> String.list_ascii_of_string s.

(** The values [JSON.parse] can return.  Numbers carry an integer; the
    provider never computes with them.  [undefined] is [None] in
    [option json]. *)
Inductive json :=
| JNull
| JBool (b : bool)
| JNum (n : Z)
| JStr (s : jsstring)
| JArr (items : list json)
| JObj (fields : list (jsstring * json)).

Fixpoint assoc (k : jsstring) (fields : list (jsstring * json)) : option json :=
  match fields with
  | [] => None
  | (k', v) :: rest => if bool_decide (k' = k) then Some v else assoc k rest
  end.

(** [v.k] for a receiver [v] that is neither [null] nor [undefined]: an own
    property of an object, [undefined] on arrays and primitives (none of the
    property names read by the provider exists on their prototypes). *)
Definition field (k : string) (v : json) : option json :=
  match v with
  | JObj fields => assoc (lit k) fields
  | _ => None
  end.

(** [v?.k]. *)
Definition optField (k : string) (v : option json) : option json :=
  match v with
  | None | Some JNull => None
  | Some v' => field k v'
  end.

(** [v === 'k'] for a string literal. *)
Definition isStr (v : option json) (k : string) : bool :=
  match v with
  | Some (JStr s) => bool_decide (s = lit k)
  | _ => false
  end.

(** ToBoolean. *)
Definition truthy (v : option json) : bool :=
  match v with
  | None | Some JNull => false
  | Some (JBool b) => b
  | Some (JNum n) => negb (n =? 0)
  | Some (JStr s) => negb (bool_decide (s = []))
  | Some (JArr _) | Some (JObj _) => true
  end.

(** The key equality of [Set] and [Map].  Objects and arrays are compared by
    identity, and every object met by the provider is freshly built by
    [JSON.parse], so two of them are never the same key. *)
Definition sameValueZero (a b : json) : bool :=
  match a, b with
  | JNull, JNull => true
  | JBool x, JBool y => bool_decide (x = y)
  | JNum x, JNum y => x =? y
  | JStr x, JStr y => bool_decide (x = y)
  | _, _ => false
  end.

(** [Set]: insertion-ordered, keys compared with [sameValueZero]. *)
Definition Set_has (k : json) (s : list json) : bool :=
  existsb (sameValueZero k) s.
Definition Set_add (k : json) (s : list json) : list json :=
  if Set_has k s then s else s ++ [k].
Definition Set_delete (k : json) (s : list json) : list json :=
  List.filter (λ x, negb (sameValueZero k x)) s.

(** [Map]: insertion-ordered; [set] on a present key keeps its position. *)
Definition Map_has {V} (k : json) (m : list (json * V)) : bool :=
  existsb (λ p, sameValueZero k p.1) m.
Definition Map_set {V} (k : json) (v : V) (m : list (json * V)) : list (json * V) :=
  if Map_has k m
  then (λ p, if sameValueZero k p.1 then (p.1, v) else p) <$> m
  else m ++ [(k, v)].
Definition Map_delete {V} (k : json) (m : list (json * V)) : list (json * V) :=
  List.filter (λ p, negb (sameValueZero k p.1)) m.

(** * Strings: split, trim, endsWith, UTF-8 decoding *)

(** [s.split(sep)] for a one-unit separator. *)
Fixpoint split (sep : Z) (s : jsstring) : list jsstring :=
  match s with
  | [] => [[]]
  | c :: s' =>
      if c =? sep then [] :: split sep s'
      else match split sep s' with
           | l :: ls => (c :: l) :: ls
           | [] => [[c]]
           end
  end.

Definition newline : Z := 10.

(** WhiteSpace and LineTerminator code units, the ones [trim] strips. *)
Definition isWhiteSpace (c : Z) : bool :=
  ((9 <=? c) && (c <=? 13)) || (c =? 32) || (c =? 160) || (c =? 5760)
  || ((8192 <=? c) && (c <=? 8202)) || (c =? 8232) || (c =? 8233)
  || (c =? 8239) || (c =? 8287) || (c =? 12288) || (c =? 65279).

(** [!s.trim()]. *)
Definition blank (s : jsstring) : bool := forallb isWhiteSpace s.

(** [f.endsWith(suffix)]. *)
Definition endsWith (f suffix : jsstring) : bool :=
  bool_decide (suffix `suffix_of` f).

(** [buf.toString('utf-8')]: the decoder of the Encoding standard, one
    U+FFFD for each maximal ill-formed subpart, code points above the BMP as
    surrogate pairs, no BOM stripping. *)
Definition utf16 (cp : Z) : jsstring :=
  if cp <? 65536 then [cp]
  else [55296 + Z.shiftr (cp - 65536) 10; 56320 + Z.land (cp - 65536) 1023].

Inductive Utf8Pending :=
| Idle
| Pending (cp : Z) (needed : nat) (lower upper : Z).

Definition utf8_lead (b : Z) : jsstring * Utf8Pending :=
  if b <=? 127 then ([b], Idle)
  else if (194 <=? b) && (b <=? 223) then ([], Pending (Z.land b 31) 1 128 191)
  else if (224 <=? b) && (b <=? 239) then
    ([], Pending (Z.land b 15) 2 (if b =? 224 then 160 else 128)
                                 (if b =? 237 then 159 else 191))
  else if (240 <=? b) && (b <=? 244) then
    ([], Pending (Z.land b 7) 3 (if b =? 240 then 144 else 128)
                                (if b =? 244 then 143 else 191))
  else ([65533], Idle).

Fixpoint utf8_run (st : Utf8Pending) (bs : list Z) : jsstring :=
  match bs with
  | [] => match st with Idle => [] | Pending _ _ _ _ => [65533] end
  | b :: bs' =>
      match st with
      | Idle => (utf8_lead b).1 ++ utf8_run (utf8_lead b).2 bs'
      | Pending cp n lower upper =>
          if (lower <=? b) && (b <=? upper) then
            let cp' := Z.lor (Z.shiftl cp 6) (Z.land b 63) in
            match n with
            | S (S n') => utf8_run (Pending cp' (S n') 128 191) bs'
            | _ => utf16 cp' ++ utf8_run Idle bs'
            end
          else 65533 :: (utf8_lead b).1 ++ utf8_run (utf8_lead b).2 bs'
      end
  end.

Definition toString_utf8 (buf : list Z) : jsstring := utf8_run Idle buf.

(** The state of the decoder after the bytes [bs]: [Idle] when they end
    between two characters. *)
Fixpoint utf8_pending (st : Utf8Pending) (bs : list Z) : Utf8Pending :=
  match bs with
  | [] => st
  | b :: bs' =>
      match st with
      | Idle => utf8_pending (utf8_lead b).2 bs'
      | Pending cp n lower upper =>
          if (lower <=? b) && (b <=? upper) then
            let cp' := Z.lor (Z.shiftl cp 6) (Z.land b 63) in
            match n with
            | S (S n') => utf8_pending (Pending cp' (S n') 128 191) bs'
            | _ => utf8_pending Idle bs'
            end
          else utf8_pending (utf8_lead b).2 bs'
      end
  end.

(** * The provider state *)

Record AgentState := {
  id : Z;
  terminalRef : Z;
  projectDir : jsstring;
  jsonlFile : jsstring;
  fileOffset : Z;
  lineBuffer : jsstring;
  activeToolIds : list json;
  activeToolStatuses : list (json * jsstring);
  isWaiting : bool
}.

Definition set_fileOffset (v : Z) (a : AgentState) : AgentState :=
  {| id := id a; terminalRef := terminalRef a; projectDir := projectDir a; jsonlFile := jsonlFile a; fileOffset := v; lineBuffer := lineBuffer a; activeToolIds := activeToolIds a; activeToolStatuses := activeToolStatuses a; isWaiting := isWaiting a |}.
Definition set_lineBuffer (v : jsstring) (a : AgentState) : AgentState :=
  {| id := id a; terminalRef := terminalRef a; projectDir := projectDir a; jsonlFile := jsonlFile a; fileOffset := fileOffset a; lineBuffer := v; activeToolIds := activeToolIds a; activeToolStatuses := activeToolStatuses a; isWaiting := isWaiting a |}.
Definition set_activeToolIds (v : list json) (a : AgentState) : AgentState :=
  {| id := id a; terminalRef := terminalRef a; projectDir := projectDir a; jsonlFile := jsonlFile a; fileOffset := fileOffset a; lineBuffer := lineBuffer a; activeToolIds := v; activeToolStatuses := activeToolStatuses a; isWaiting := isWaiting a |}.
Definition set_activeToolStatuses (v : list (json * jsstring)) (a : AgentState) : AgentState :=
  {| id := id a; terminalRef := terminalRef a; projectDir := projectDir a; jsonlFile := jsonlFile a; fileOffset := fileOffset a; lineBuffer := lineBuffer a; activeToolIds := activeToolIds a; activeToolStatuses := v; isWaiting := isWaiting a |}.
Definition set_isWaiting (v : bool) (a : AgentState) : AgentState :=
  {| id := id a; terminalRef := terminalRef a; projectDir := projectDir a; jsonlFile := jsonlFile a; fileOffset := fileOffset a; lineBuffer := lineBuffer a; activeToolIds := activeToolIds a; activeToolStatuses := activeToolStatuses a; isWaiting := v |}.

(** The messages posted to the webview. *)
Inductive Status := active | waiting.

Inductive Message :=
| agentCreated (id : Z)
| agentClosed (id : Z)
| agentStatus (id : Z) (status : Status)
| agentToolStart (id : Z) (toolId : json) (status : jsstring)
| agentToolDone (id : Z) (toolId : json)
| agentToolsClear (id : Z)
| existingAgents (agents : list Z).

(** What a pending [setTimeout] or [setInterval] will run.  Terminals are
    the identities of the [vscode.Terminal] objects. *)
Inductive Callback :=
| ScanTick (terminal : Z) (sessionId : option jsstring)
| PollTick (agentId : Z)
| WaitingFire (agentId : Z)
| ToolDoneFire (agentId : Z) (toolId : json).

Record Timer := {
  due : Z;
  period : option Z;
  callback : Callback
}.

(** The fields of the provider object, then the state of the event loop:
    the monotonic clock in milliseconds, the next timer or watcher handle,
    the pending timers, the open [fs.watch] watchers with the agent their
    listener serves, and the messages posted so far. *)
Record World := {
  nextAgentId : Z;
  nextTerminalIndex : Z;
  agents : gmap Z AgentState;
  claimedFiles : gset jsstring;
  webviewView : bool;
  fileWatchers : gmap Z Z;
  pollingTimers : gmap Z Z;
  waitingTimers : gmap Z Z;
  terminalProjectDirs : gmap Z jsstring;
  terminalScanTimers : gmap Z Z;
  clock : Z;
  nextHandle : Z;
  timers : gmap Z Timer;
  watchers : gmap Z Z;
  posted : list Message
}.

Definition set_nextAgentId (v : Z) (w : World) : World :=
  {| nextAgentId := v; nextTerminalIndex := nextTerminalIndex w; agents := agents w; claimedFiles := claimedFiles w; webviewView := webviewView w; fileWatchers := fileWatchers w; pollingTimers := pollingTimers w; waitingTimers := waitingTimers w; terminalProjectDirs := terminalProjectDirs w; terminalScanTimers := terminalScanTimers w; clock := clock w; nextHandle := nextHandle w; timers := timers w; watchers := watchers w; posted := posted w |}.
Definition set_nextTerminalIndex (v : Z) (w : World) : World :=
  {| nextAgentId := nextAgentId w; nextTerminalIndex := v; agents := agents w; claimedFiles := claimedFiles w; webviewView := webviewView w; fileWatchers := fileWatchers w; pollingTimers := pollingTimers w; waitingTimers := waitingTimers w; terminalProjectDirs := terminalProjectDirs w; terminalScanTimers := terminalScanTimers w; clock := clock w; nextHandle := nextHandle w; timers := timers w; watchers := watchers w; posted := posted w |}.
Definition set_agents (v : gmap Z AgentState) (w : World) : World :=
  {| nextAgentId := nextAgentId w; nextTerminalIndex := nextTerminalIndex w; agents := v; claimedFiles := claimedFiles w; webviewView := webviewView w; fileWatchers := fileWatchers w; pollingTimers := pollingTimers w; waitingTimers := waitingTimers w; terminalProjectDirs := terminalProjectDirs w; terminalScanTimers := terminalScanTimers w; clock := clock w; nextHandle := nextHandle w; timers := timers w; watchers := watchers w; posted := posted w |}.
Definition set_claimedFiles (v : gset jsstring) (w : World) : World :=
  {| nextAgentId := nextAgentId w; nextTerminalIndex := nextTerminalIndex w; agents := agents w; claimedFiles := v; webviewView := webviewView w; fileWatchers := fileWatchers w; pollingTimers := pollingTimers w; waitingTimers := waitingTimers w; terminalProjectDirs := terminalProjectDirs w; terminalScanTimers := terminalScanTimers w; clock := clock w; nextHandle := nextHandle w; timers := timers w; watchers := watchers w; posted := posted w |}.
Definition set_webviewView (v : bool) (w : World) : World :=
  {| nextAgentId := nextAgentId w; nextTerminalIndex := nextTerminalIndex w; agents := agents w; claimedFiles := claimedFiles w; webviewView := v; fileWatchers := fileWatchers w; pollingTimers := pollingTimers w; waitingTimers := waitingTimers w; terminalProjectDirs := terminalProjectDirs w; terminalScanTimers := terminalScanTimers w; clock := clock w; nextHandle := nextHandle w; timers := timers w; watchers := watchers w; posted := posted w |}.
Definition set_fileWatchers (v : gmap Z Z) (w : World) : World :=
  {| nextAgentId := nextAgentId w; nextTerminalIndex := nextTerminalIndex w; agents := agents w; claimedFiles := claimedFiles w; webviewView := webviewView w; fileWatchers := v; pollingTimers := pollingTimers w; waitingTimers := waitingTimers w; terminalProjectDirs := terminalProjectDirs w; terminalScanTimers := terminalScanTimers w; clock := clock w; nextHandle := nextHandle w; timers := timers w; watchers := watchers w; posted := posted w |}.
Definition set_pollingTimers (v : gmap Z Z) (w : World) : World :=
  {| nextAgentId := nextAgentId w; nextTerminalIndex := nextTerminalIndex w; agents := agents w; claimedFiles := claimedFiles w; webviewView := webviewView w; fileWatchers := fileWatchers w; pollingTimers := v; waitingTimers := waitingTimers w; terminalProjectDirs := terminalProjectDirs w; terminalScanTimers := terminalScanTimers w; clock := clock w; nextHandle := nextHandle w; timers := timers w; watchers := watchers w; posted := posted w |}.
Definition set_waitingTimers (v : gmap Z Z) (w : World) : World :=
  {| nextAgentId := nextAgentId w; nextTerminalIndex := nextTerminalIndex w; agents := agents w; claimedFiles := claimedFiles w; webviewView := webviewView w; fileWatchers := fileWatchers w; pollingTimers := pollingTimers w; waitingTimers := v; terminalProjectDirs := terminalProjectDirs w; terminalScanTimers := terminalScanTimers w; clock := clock w; nextHandle := nextHandle w; timers := timers w; watchers := watchers w; posted := posted w |}.
Definition set_terminalProjectDirs (v : gmap Z jsstring) (w : World) : World :=
  {| nextAgentId := nextAgentId w; nextTerminalIndex := nextTerminalIndex w; agents := agents w; claimedFiles := claimedFiles w; webviewView := webviewView w; fileWatchers := fileWatchers w; pollingTimers := pollingTimers w; waitingTimers := waitingTimers w; terminalProjectDirs := v; terminalScanTimers := terminalScanTimers w; clock := clock w; nextHandle := nextHandle w; timers := timers w; watchers := watchers w; posted := posted w |}.
Definition set_terminalScanTimers (v : gmap Z Z) (w : World) : World :=
  {| nextAgentId := nextAgentId w; nextTerminalIndex := nextTerminalIndex w; agents := agents w; claimedFiles := claimedFiles w; webviewView := webviewView w; fileWatchers := fileWatchers w; pollingTimers := pollingTimers w; waitingTimers := waitingTimers w; terminalProjectDirs := terminalProjectDirs w; terminalScanTimers := v; clock := clock w; nextHandle := nextHandle w; timers := timers w; watchers := watchers w; posted := posted w |}.
Definition set_clock (v : Z) (w : World) : World :=
  {| nextAgentId := nextAgentId w; nextTerminalIndex := nextTerminalIndex w; agents := agents w; claimedFiles := claimedFiles w; webviewView := webviewView w; fileWatchers := fileWatchers w; pollingTimers := pollingTimers w; waitingTimers := waitingTimers w; terminalProjectDirs := terminalProjectDirs w; terminalScanTimers := terminalScanTimers w; clock := v; nextHandle := nextHandle w; timers := timers w; watchers := watchers w; posted := posted w |}.
Definition set_nextHandle (v : Z) (w : World) : World :=
  {| nextAgentId := nextAgentId w; nextTerminalIndex := nextTerminalIndex w; agents := agents w; claimedFiles := claimedFiles w; webviewView := webviewView w; fileWatchers := fileWatchers w; pollingTimers := pollingTimers w; waitingTimers := waitingTimers w; terminalProjectDirs := terminalProjectDirs w; terminalScanTimers := terminalScanTimers w; clock := clock w; nextHandle := v; timers := timers w; watchers := watchers w; posted := posted w |}.
Definition set_timers (v : gmap Z Timer) (w : World) : World :=
  {| nextAgentId := nextAgentId w; nextTerminalIndex := nextTerminalIndex w; agents := agents w; claimedFiles := claimedFiles w; webviewView := webviewView w; fileWatchers := fileWatchers w; pollingTimers := pollingTimers w; waitingTimers := waitingTimers w; terminalProjectDirs := terminalProjectDirs w; terminalScanTimers := terminalScanTimers w; clock := clock w; nextHandle := nextHandle w; timers := v; watchers := watchers w; posted := posted w |}.
Definition set_watchers (v : gmap Z Z) (w : World) : World :=
  {| nextAgentId := nextAgentId w; nextTerminalIndex := nextTerminalIndex w; agents := agents w; claimedFiles := claimedFiles w; webviewView := webviewView w; fileWatchers := fileWatchers w; pollingTimers := pollingTimers w; waitingTimers := waitingTimers w; terminalProjectDirs := terminalProjectDirs w; terminalScanTimers := terminalScanTimers w; clock := clock w; nextHandle := nextHandle w; timers := timers w; watchers := v; posted := posted w |}.
Definition set_posted (v : list Message) (w : World) : World :=
  {| nextAgentId := nextAgentId w; nextTerminalIndex := nextTerminalIndex w; agents := agents w; claimedFiles := claimedFiles w; webviewView := webviewView w; fileWatchers := fileWatchers w; pollingTimers := pollingTimers w; waitingTimers := waitingTimers w; terminalProjectDirs := terminalProjectDirs w; terminalScanTimers := terminalScanTimers w; clock := clock w; nextHandle := nextHandle w; timers := timers w; watchers := watchers w; posted := v |}.

(** An assignment to a field of the agent object registered under
    [agentId]. *)
Definition updAgent (agentId : Z) (f : AgentState → AgentState) (w : World) : World :=
  set_agents (alter f agentId (agents w)) w.

(** * The environment *)

Module fs.

Record Stats := { size : Z; mtimeMs : Z }.

End fs.

(** What the synchronous calls of one event handler observe: the wall clock,
    the [arcadia.sessionMaxAgeSecs] setting, the first workspace folder, the
    home directory, and the file system ([None] where the call throws).
    Times are integers of milliseconds. *)
Record Env := {
  Date_now : Z;
  sessionMaxAgeSecs : Z;
  workspaceFolder : option jsstring;
  homedir : jsstring;
  existsSync : jsstring → bool;
  statSync : jsstring → option fs.Stats;
  readdirSync : jsstring → option (list jsstring);
  fileBytes : jsstring → option (list Z);
  watchable : jsstring → bool
}.

(** The functions of the JavaScript runtime the provider calls and whose
    results it does not inspect further: [JSON.parse] ([None] when it
    throws), [path.join], [path.basename], the conversion of a value that is
    not a string to a string in a template literal ([None] when it throws)
    and the comparison [v > n]. *)
Class NodeRuntime := {
  JSON_parse : jsstring → option json;
  path_join : list jsstring → jsstring;
  path_basename : jsstring → jsstring;
  ToString : json → option jsstring;
  greaterThan : json → Z → bool
}.

(** [fs.readSync(fd, buf, 0, length, position)] into a zero-filled buffer of
    [length] bytes. *)
Definition readSync (content : list Z) (position length : Z) : list Z :=
  let got := take (Z.to_nat length) (drop (Z.to_nat position) content) in
  got ++ replicate (Z.to_nat length - List.length got) 0.

(** * The event loop primitives *)

Definition emit (m : Message) (w : World) : World :=
  set_posted (posted w ++ [m]) w.

(** [this.webviewView?.webview.postMessage(m)]. *)
Definition post (m : Message) (w : World) : World :=
  if webviewView w then emit m w else w.

Definition setTimer (t : Timer) (w : World) : World :=
  set_nextHandle (nextHandle w + 1) (set_timers (<[nextHandle w := t]> (timers w)) w).

Definition setTimeout (cb : Callback) (delayMs : Z) (w : World) : World :=
  setTimer {| due := clock w + delayMs; period := None; callback := cb |} w.

Definition setInterval (cb : Callback) (delayMs : Z) (w : World) : World :=
  setTimer {| due := clock w + delayMs; period := Some delayMs; callback := cb |} w.

Definition clearTimer (h : Z) (w : World) : World :=
  set_timers (delete h (timers w)) w.

Section Provider.
Context {RT : NodeRuntime}.

(** * Transcript interpretation *)

(** [`${v}`]. *)
Definition toStr (v : json) : option jsstring :=
  match v with JStr s => Some s | _ => ToString v end.

(** [None] when the function throws: [cmd.slice] is not a function when
    [cmd] is an object whose [length] exceeds 30, and a value may have no
    string conversion. *)
Definition formatToolStatus (toolName input : json) : option jsstring :=
  let base (p : option json) :=
    match p with Some (JStr s) => path_basename s | _ => [] end in
  if isStr (Some toolName) "Read" then Some (lit "Reading " ++ base (field "file_path" input))
  else if isStr (Some toolName) "Edit" then Some (lit "Editing " ++ base (field "file_path" input))
  else if isStr (Some toolName) "Write" then Some (lit "Writing " ++ base (field "file_path" input))
  else if isStr (Some toolName) "Bash" then
    let cmd := if truthy (field "command" input)
               then default (JStr []) (field "command" input) else JStr [] in
    (lit "Running: " ++.) <$>
      match cmd with
      | JStr s => Some (if 30 <? Z.of_nat (length s) then take 30 s ++ [8230] else s)
      | JArr l => if 30 <? Z.of_nat (length l)
                  then (.++ [8230]) <$> ToString (JArr (take 30 l))
                  else ToString cmd
      | JObj fields =>
          match assoc (lit "length") fields with
          | Some n => if greaterThan n 30 then None else ToString cmd
          | None => ToString cmd
          end
      | _ => ToString cmd
      end
  else if isStr (Some toolName) "Glob" then Some (lit "Searching files")
  else if isStr (Some toolName) "Grep" then Some (lit "Searching code")
  else if isStr (Some toolName) "WebFetch" then Some (lit "Fetching web content")
  else if isStr (Some toolName) "WebSearch" then Some (lit "Searching the web")
  else if isStr (Some toolName) "Task" then Some (lit "Running subtask")
  else if isStr (Some toolName) "AskUserQuestion" then Some (lit "Waiting for your answer")
  else if isStr (Some toolName) "EnterPlanMode" then Some (lit "Planning")
  else if isStr (Some toolName) "NotebookEdit" then Some (lit "Editing notebook")
  else (lit "Using " ++.) <$> toStr toolName.

Definition clearAgentActivity (agentId : Z) (w : World) : World :=
  match agents w !! agentId with
  | None => w
  | Some _ =>
      let w := updAgent agentId (set_activeToolIds []) w in
      let w := updAgent agentId (set_activeToolStatuses []) w in
      let w := updAgent agentId (set_isWaiting false) w in
      let w := post (agentToolsClear agentId) w in
      post (agentStatus agentId active) w
  end.

Definition cancelWaitingTimer (agentId : Z) (w : World) : World :=
  match waitingTimers w !! agentId with
  | Some timer =>
      set_waitingTimers (delete agentId (waitingTimers w)) (clearTimer timer w)
  | None => w
  end.

Definition startWaitingTimer (agentId delayMs : Z) (w : World) : World :=
  let w := cancelWaitingTimer agentId w in
  let timer := nextHandle w in
  let w := setTimeout (WaitingFire agentId) delayMs w in
  set_waitingTimers (<[agentId := timer]> (waitingTimers w)) w.

(** The callback given to [setTimeout] by [startWaitingTimer]. *)
Definition waitingTimerFired (agentId : Z) (w : World) : World :=
  let w := set_waitingTimers (delete agentId (waitingTimers w)) w in
  let w := updAgent agentId (set_isWaiting true) w in
  post (agentStatus agentId waiting) w.

(** The callback given to [setTimeout] for a tool result. *)
Definition toolDoneFired (agentId : Z) (toolId : json) (w : World) : World :=
  post (agentToolDone agentId toolId) w.

(** [blocks.some(b => b.type === t)]; [None] when reading [b.type] throws
    because the element is [null]. *)
Fixpoint someType (t : string) (blocks : list json) : option bool :=
  match blocks with
  | [] => Some false
  | JNull :: _ => None
  | b :: rest => if isStr (field "type" b) t then Some true else someType t rest
  end.

(** One block of an assistant record with a tool use; [None] when it
    throws: computing the status, or converting the id for the log line. *)
Definition toolUseBlock (agentId : Z) (block : json) (w : World) : option World :=
  if isStr (field "type" block) "tool_use" && truthy (field "id" block) then
    let block_id := default JNull (field "id" block) in
    match
      formatToolStatus
        (if truthy (field "name" block)
         then default JNull (field "name" block) else JStr [])
        (if truthy (field "input" block)
         then default JNull (field "input" block) else JObj [])
    with
    | None => None
    | Some status =>
        match toStr block_id with
        | None => None
        | Some _ =>
            let w := updAgent agentId (λ a, set_activeToolIds (Set_add block_id (activeToolIds a)) a) w in
            let w := updAgent agentId (λ a, set_activeToolStatuses (Map_set block_id status (activeToolStatuses a)) a) w in
            Some (post (agentToolStart agentId block_id status) w)
        end
    end
  else Some w.

(** The loop over the blocks; a [null] block throws too, and an exception
    skips the remaining blocks. *)
Fixpoint toolUseLoop (agentId : Z) (blocks : list json) (w : World) : World :=
  match blocks with
  | [] => w
  | JNull :: _ => w
  | block :: rest =>
      match toolUseBlock agentId block w with
      | None => w
      | Some w => toolUseLoop agentId rest w
      end
  end.

(** One block of a user record with a tool result. *)
Definition toolResultBlock (agentId : Z) (block : json) (w : World) : option World :=
  if isStr (field "type" block) "tool_result" && truthy (field "tool_use_id" block) then
    let toolId := default JNull (field "tool_use_id" block) in
    match toStr toolId with
    | None => None
    | Some _ =>
        let w := updAgent agentId (λ a, set_activeToolIds (Set_delete toolId (activeToolIds a)) a) w in
        let w := updAgent agentId (λ a, set_activeToolStatuses (Map_delete toolId (activeToolStatuses a)) a) w in
        Some (setTimeout (ToolDoneFire agentId toolId) 300 w)
    end
  else Some w.

Fixpoint toolResultLoop (agentId : Z) (blocks : list json) (w : World) : World :=
  match blocks with
  | [] => w
  | JNull :: _ => w
  | block :: rest =>
      match toolResultBlock agentId block w with
      | None => w
      | Some w => toolResultLoop agentId rest w
      end
  end.

(** The body of the [try] of [processTranscriptLine] once the line is
    parsed; an exception leaves the state as it is at that point. *)
Definition asArray (v : option json) : option (list json) :=
  match v with Some (JArr items) => Some items | _ => None end.

Definition turnCompleted (agentId : Z) (w : World) : World :=
  let w := cancelWaitingTimer agentId w in
  let w := updAgent agentId (set_isWaiting true) w in
  post (agentStatus agentId waiting) w.

Definition processRecord (agentId : Z) (record : json) (w : World) : World :=
  match record with
  | JNull => w
  | _ =>
    let type := field "type" record in
    let content := optField "content" (field "message" record) in
    match (if isStr type "assistant" then asArray content else None) with
    | Some blocks =>
        match someType "tool_use" blocks with
        | None => w
        | Some true =>
            let w := cancelWaitingTimer agentId w in
            let w := updAgent agentId (set_isWaiting false) w in
            let w := post (agentStatus agentId active) w in
            toolUseLoop agentId blocks w
        | Some false =>
            match someType "text" blocks with
            | Some true => startWaitingTimer agentId 2000 w
            | _ => w
            end
        end
    | None =>
        if isStr type "user" then
          match content with
          | Some (JArr blocks) =>
              match someType "tool_result" blocks with
              | None => w
              | Some true => toolResultLoop agentId blocks w
              | Some false => clearAgentActivity agentId (cancelWaitingTimer agentId w)
              end
          | Some (JStr s) =>
              if negb (blank s)
              then clearAgentActivity agentId (cancelWaitingTimer agentId w)
              else w
          | _ => w
          end
        else if isStr type "system" && isStr (field "subtype" record) "turn_duration"
        then turnCompleted agentId w
        else w
    end
  end.

Definition processTranscriptLine (agentId : Z) (line : jsstring) (w : World) : World :=
  match agents w !! agentId with
  | None => w
  | Some _ =>
      match JSON_parse line with
      | None => w
      | Some record => processRecord agentId record w
      end
  end.

(** * The tailing reader *)

(** The lines [readNewLines] splits off the carried fragment and the newly
    read bytes, and the fragment it carries on. *)
Definition splitLines (lineBuffer : jsstring) (buf : list Z) : list jsstring * jsstring :=
  let text := lineBuffer ++ toString_utf8 buf in
  let lines := split newline text in
  (removelast lines, default [] (last lines)).

(** The read of [readNewLines]: [None] when nothing is read (the file has
    not grown, or a call throws), else the agent with its new offset and
    carry, and the complete lines in order. *)
Definition pump (E : Env) (agent : AgentState) : option (AgentState * list jsstring) :=
  match statSync E (jsonlFile agent) with
  | None => None
  | Some stat =>
      if fs.size stat <=? fileOffset agent then None
      else match fileBytes E (jsonlFile agent) with
           | None => None
           | Some content =>
               let buf := readSync content (fileOffset agent) (fs.size stat - fileOffset agent) in
               let result := splitLines (lineBuffer agent) buf in
               Some (set_lineBuffer result.2 (set_fileOffset (fs.size stat) agent),
                     result.1)
           end
  end.

(** The lines handed to [processTranscriptLine]. *)
Definition deliverable (lines : list jsstring) : list jsstring :=
  List.filter (λ line, negb (blank line)) lines.

Definition readNewLines (E : Env) (agentId : Z) (w : World) : World :=
  match agents w !! agentId with
  | None => w
  | Some agent =>
      match pump E agent with
      | None => w
      | Some (agent', lines) =>
          foldl (λ w line, processTranscriptLine agentId line w)
                (set_agents (<[agentId := agent']> (agents w)) w)
                (deliverable lines)
      end
  end.

(** What a read stores in the agent: the new offset and the new carry. *)
Definition consumed (offset : Z) (carry : jsstring) (agent : AgentState) : AgentState :=
  set_lineBuffer carry (set_fileOffset offset agent).

(** Successive calls of [readNewLines] for one agent, each against the file
    system as it is then. *)
Definition reads (Es : list Env) (agentId : Z) (w : World) : World :=
  foldl (λ w E, readNewLines E agentId w) w Es.

(** The reader run through successive snapshots of the file system: the
    agent at the end and all the complete lines split off, in order. *)
Fixpoint pumps (Es : list Env) (agent : AgentState) : AgentState * list jsstring :=
  match Es with
  | [] => (agent, [])
  | E :: Es' =>
      match pump E agent with
      | None => pumps Es' agent
      | Some (agent', lines) => ((pumps Es' agent').1, lines ++ (pumps Es' agent').2)
      end
  end.

(** Lines put back together, each followed by the line terminator. *)
Definition terminated (lines : list jsstring) : jsstring :=
  concat ((λ line, line ++ [newline]) <$> lines).

(** The files [c1], [c1 ++ c2], ... left by successive appends after a
    content [pre]. *)
Fixpoint appended (pre : list Z) (chunks : list (list Z)) : list (list Z) :=
  match chunks with
  | [] => []
  | c :: chunks' => (pre ++ c) :: appended (pre ++ c) chunks'
  end.

(** What the interpreter has been handed, each line followed by the line
    terminator, and the carried fragment. *)
Definition handedOver (result : AgentState * list jsstring) : jsstring :=
  terminated (deliverable result.2) ++ lineBuffer result.1.

(** The snapshot [E] shows the file [p] with the bytes [content]. *)
Definition shows (p : jsstring) (E : Env) (content : list Z) : Prop :=
  fs.size <$> statSync E p = Some (Z.of_nat (length content))
  ∧ fileBytes E p = Some content.

(** * Agents: creation, watching, removal *)

Definition startFileWatching (E : Env) (agentId : Z) (filePath : jsstring) (w : World) : World :=
  let w :=
    if watchable E filePath then
      let watcher := nextHandle w in
      let w := set_nextHandle (watcher + 1) (set_watchers (<[watcher := agentId]> (watchers w)) w) in
      set_fileWatchers (<[agentId := watcher]> (fileWatchers w)) w
    else w in
  let interval := nextHandle w in
  let w := setInterval (PollTick agentId) 2000 w in
  set_pollingTimers (<[agentId := interval]> (pollingTimers w)) w.

(** The callback given to [setInterval] by [startFileWatching]; [interval]
    is its own handle. *)
Definition pollTick (E : Env) (interval agentId : Z) (w : World) : World :=
  match agents w !! agentId with
  | None => clearTimer interval w
  | Some _ => readNewLines E agentId w
  end.

(** The agent object built by [createAgentFromFile]. *)
Definition newAgent (id terminal : Z) (filePath projectDir : jsstring) : AgentState := {|
  id := id;
  terminalRef := terminal;
  projectDir := projectDir;
  jsonlFile := filePath;
  fileOffset := 0;
  lineBuffer := [];
  activeToolIds := [];
  activeToolStatuses := [];
  isWaiting := false
|}.

Definition createAgentFromFile (E : Env) (terminal : Z) (filePath projectDir : jsstring)
    (w : World) : World :=
  let id := nextAgentId w in
  let w := set_nextAgentId (id + 1) w in
  let agent := newAgent id terminal filePath projectDir in
  let w := set_agents (<[id := agent]> (agents w)) w in
  let w := set_claimedFiles ({[filePath]} ∪ claimedFiles w) w in
  let w := post (agentCreated id) w in
  let w := startFileWatching E id filePath w in
  readNewLines E id w.

(** [createAgentFromFile] up to its initial read. *)
Definition registerAgent (E : Env) (terminal : Z) (filePath projectDir : jsstring)
    (w : World) : World :=
  let agent := newAgent (nextAgentId w) terminal filePath projectDir in
  startFileWatching E (nextAgentId w) filePath
    (post (agentCreated (nextAgentId w))
       (set_claimedFiles ({[filePath]} ∪ claimedFiles w)
          (set_agents (<[nextAgentId w := agent]> (agents w))
             (set_nextAgentId (nextAgentId w + 1) w)))).

Definition removeAgent (agentId : Z) (w : World) : World :=
  match agents w !! agentId with
  | None => w
  | Some agent =>
      let w :=
        match fileWatchers w !! agentId with
        | Some watcher => set_watchers (delete watcher (watchers w)) w
        | None => w
        end in
      let w := set_fileWatchers (delete agentId (fileWatchers w)) w in
      let w :=
        match pollingTimers w !! agentId with
        | Some pt => clearTimer pt w
        | None => w
        end in
      let w := set_pollingTimers (delete agentId (pollingTimers w)) w in
      let w := cancelWaitingTimer agentId w in
      let w := set_claimedFiles (claimedFiles w ∖ {[jsonlFile agent]}) w in
      set_agents (delete agentId (agents w)) w
  end.

(** * The directory scanner *)

Definition isFileRecent (E : Env) (filePath : jsstring) : bool :=
  let maxAge := sessionMaxAgeSecs E in
  if maxAge =? 0 then true
  else match statSync E filePath with
       | Some stat => Date_now E - fs.mtimeMs stat <? maxAge * 1000
       | None => false
       end.

(** A string or [undefined] that is truthy. *)
Definition nonEmpty (sessionId : option jsstring) : option jsstring :=
  match sessionId with
  | Some (c :: s) => Some (c :: s)
  | _ => None
  end.

Definition scanForNewFiles (E : Env) (terminal : Z) (sessionId : option jsstring)
    (w : World) : World :=
  match nonEmpty (terminalProjectDirs w !! terminal) with
  | None => w
  | Some projectDir =>
      let w :=
        match nonEmpty sessionId with
        | Some sessionId =>
            let expectedFile := path_join [projectDir; sessionId ++ lit ".jsonl"] in
            if existsSync E expectedFile && negb (bool_decide (expectedFile ∈ claimedFiles w))
            then createAgentFromFile E terminal expectedFile projectDir w
            else w
        | None => w
        end in
      match readdirSync E projectDir with
      | None => w
      | Some names =>
          let files :=
            (λ f, path_join [projectDir; f])
              <$> List.filter (λ f, endsWith f (lit ".jsonl")) names in
          foldl (λ w file,
                   if negb (bool_decide (file ∈ claimedFiles w)) && isFileRecent E file
                   then createAgentFromFile E terminal file projectDir w
                   else w)
                w files
      end
  end.

(** * Session hosts *)

Definition getProjectDirPath (E : Env) (cwd : option jsstring) : option jsstring :=
  let workspacePath :=
    match nonEmpty cwd with Some p => Some p | None => workspaceFolder E end in
  match nonEmpty workspacePath with
  | None => None
  | Some p =>
      let dirName := (λ c, if (c =? 58) || (c =? 92) || (c =? 47) then 45 else c) <$> p in
      Some (path_join [homedir E; lit ".claude"; lit "projects"; dirName])
  end.

Definition startTerminalFileScan (E : Env) (terminal : Z) (sessionId cwd : option jsstring)
    (w : World) : World :=
  match nonEmpty (getProjectDirPath E cwd) with
  | None => w
  | Some projectDir =>
      let w := set_terminalProjectDirs (<[terminal := projectDir]> (terminalProjectDirs w)) w in
      let scanInterval := nextHandle w in
      let w := setInterval (ScanTick terminal sessionId) 1000 w in
      set_terminalScanTimers (<[terminal := scanInterval]> (terminalScanTimers w)) w
  end.

Definition cleanupTerminalScan (terminal : Z) (w : World) : World :=
  let w :=
    match terminalScanTimers w !! terminal with
    | Some timer => clearTimer timer w
    | None => w
    end in
  let w := set_terminalScanTimers (delete terminal (terminalScanTimers w)) w in
  set_terminalProjectDirs (delete terminal (terminalProjectDirs w)) w.

(** The keys of [this.agents] in iteration order: ids are handed out in
    increasing order, so insertion order is ascending order. *)
Definition agentIds (w : World) : list Z :=
  merge_sort Z.le (map_to_list (agents w)).*1.

Definition isTracked (terminal : Z) (w : World) : bool :=
  bool_decide (is_Some (terminalScanTimers w !! terminal))
  || existsb (λ p, bool_decide (terminalRef p.2 = terminal)) (map_to_list (agents w)).

(** [name.match(/^Claude Code #(\d+)$/)] and [parseInt] of its group. *)
Definition matchTerminalName (name : jsstring) : option Z :=
  let prefix := lit "Claude Code #" in
  let digits := drop (length prefix) name in
  if bool_decide (take (length prefix) name = prefix)
     && negb (bool_decide (digits = []))
     && forallb (λ c, (48 <=? c) && (c <=? 57)) digits
  then Some (foldl (λ n c, 10 * n + (c - 48)) 0 digits)
  else None.

(** Decimal digits, most significant first. *)
Fixpoint decimalDigits (fuel : nat) (n : Z) : jsstring :=
  match fuel with
  | O => []
  | S fuel => (if n <? 10 then [] else decimalDigits fuel (n / 10)) ++ [48 + n mod 10]
  end.

(** [`${n}`] for an integer [n] from 0 to 2^53: its decimal digits. *)
Definition decimal (n : Z) : jsstring :=
  decimalDigits (S (Z.to_nat (Z.log2 n))) n.

(** The name [launchNewTerminal] gives the terminal it creates:
    [`Claude Code #${idx}`]. *)
Definition terminalName (idx : Z) : jsstring := lit "Claude Code #" ++ decimal idx.

Definition noteTerminalIndex (idx : Z) (w : World) : World :=
  if nextTerminalIndex w <=? idx then set_nextTerminalIndex (idx + 1) w else w.

Definition adoptExistingTerminals (E : Env) (terminals : list (Z * jsstring)) (w : World) : World :=
  foldl (λ w t,
           match matchTerminalName t.2 with
           | Some idx => startTerminalFileScan E t.1 None None (noteTerminalIndex idx w)
           | None => w
           end)
        w terminals.

Definition launchNewTerminal (E : Env) (terminal : Z) (sessionId : jsstring) (w : World) : World :=
  let w := set_nextTerminalIndex (nextTerminalIndex w + 1) w in
  startTerminalFileScan E terminal (Some sessionId) (workspaceFolder E) w.

Definition onDidOpenTerminal (E : Env) (terminal : Z) (name : jsstring) (w : World) : World :=
  match matchTerminalName name with
  | Some idx =>
      if negb (isTracked terminal w)
      then startTerminalFileScan E terminal None None (noteTerminalIndex idx w)
      else w
  | None => w
  end.

Definition onDidCloseTerminal (closed : Z) (w : World) : World :=
  let w :=
    foldl (λ w id,
             match agents w !! id with
             | Some agent =>
                 if bool_decide (terminalRef agent = closed)
                 then emit (agentClosed id) (removeAgent id w)
                 else w
             | None => w
             end)
          w (agentIds w) in
  cleanupTerminalScan closed w.

Definition sendCurrentAgentStatuses (w : World) : World :=
  if webviewView w then
    foldl (λ w agentId,
             match agents w !! agentId with
             | Some agent =>
                 let w :=
                   foldl (λ w p, emit (agentToolStart agentId p.1 p.2) w)
                         w (activeToolStatuses agent) in
                 if isWaiting agent then emit (agentStatus agentId waiting) w else w
             | None => w
             end)
          w (agentIds w)
  else w.

Definition sendExistingAgents (w : World) : World :=
  if webviewView w then
    sendCurrentAgentStatuses (emit (existingAgents (agentIds w)) w)
  else w.

Definition dispose (w : World) : World :=
  let w := foldl (λ w id, removeAgent id w) w (agentIds w) in
  foldl (λ w terminal, cleanupTerminalScan terminal w) w
        (map_to_list (terminalScanTimers w)).*1.

(** * The event loop *)

(** What the host, the file system and the passage of time can make the
    provider do.  [ResolveWebviewView] carries [vscode.window.terminals] with
    their names; [OpenClaude] the terminal it creates and the UUID drawn for
    it; [TimerFires] and [FileChanged] the handle of a pending timer or of an
    open watcher. *)
Inductive Event :=
| ResolveWebviewView (terminals : list (Z * jsstring)) (E : Env)
| OpenClaude (terminal : Z) (sessionId : jsstring) (E : Env)
| WebviewReady
| DidOpenTerminal (terminal : Z) (name : jsstring) (E : Env)
| DidCloseTerminal (closed : Z)
| TimerFires (h : Z) (E : Env)
| FileChanged (watcher : Z) (E : Env)
| TimePasses (ms : Z)
| Dispose.

Definition runCallback (E : Env) (h : Z) (cb : Callback) (w : World) : World :=
  match cb with
  | ScanTick terminal sessionId => scanForNewFiles E terminal sessionId w
  | PollTick agentId => pollTick E h agentId w
  | WaitingFire agentId => waitingTimerFired agentId w
  | ToolDoneFire agentId toolId => toolDoneFired agentId toolId w
  end.

(** A timer runs no earlier than its due time; a timeout is then gone, an
    interval is due again one period later. *)
Definition fireTimer (E : Env) (h : Z) (w : World) : World :=
  match timers w !! h with
  | None => w
  | Some t =>
      if clock w <? due t then w
      else
        let w :=
          match period t with
          | None => clearTimer h w
          | Some p =>
              set_timers (<[h := {| due := clock w + p; period := period t;
                                    callback := callback t |}]> (timers w)) w
          end in
        runCallback E h (callback t) w
  end.

Definition step (w : World) (ev : Event) : World :=
  match ev with
  | ResolveWebviewView terminals E =>
      adoptExistingTerminals E terminals (set_webviewView true w)
  | OpenClaude terminal sessionId E => launchNewTerminal E terminal sessionId w
  | WebviewReady => sendExistingAgents w
  | DidOpenTerminal terminal name E => onDidOpenTerminal E terminal name w
  | DidCloseTerminal closed => onDidCloseTerminal closed w
  | TimerFires h E => fireTimer E h w
  | FileChanged watcher E =>
      match watchers w !! watcher with
      | Some agentId => readNewLines E agentId w
      | None => w
      end
  | TimePasses ms => set_clock (clock w + Z.max 0 ms) w
  | Dispose => dispose w
  end.

Definition run (trace : list Event) (w : World) : World := foldl step w trace.



End Provider.

(** The provider as constructed. *)
Definition init : World := {|
  nextAgentId := 1;
  nextTerminalIndex := 1;
  agents := ∅;
  claimedFiles := ∅;
  webviewView := false;
  fileWatchers := ∅;
  pollingTimers := ∅;
  waitingTimers := ∅;
  terminalProjectDirs := ∅;
  terminalScanTimers := ∅;
  clock := 0;
  nextHandle := 1;
  timers := ∅;
  watchers := ∅;
  posted := []
|}.

(** * Invariants of the reachable states *)

(** What [setTimeout] and [setInterval] callbacks the provider keeps a handle
    for. *)
Definition untracked (cb : Callback) : Prop :=
  match cb with
  | ScanTick _ _ | ToolDoneFire _ _ => True
  | PollTick _ | WaitingFire _ => False
  end.

Record Inv (w : World) : Prop := {
  inv_ids : ∀ i a, agents w !! i = Some a → i < nextAgentId w;
  inv_claimed : ∀ i a, agents w !! i = Some a → jsonlFile a ∈ claimedFiles w;
  inv_unique : ∀ i j a b,
    agents w !! i = Some a → agents w !! j = Some b →
    jsonlFile a = jsonlFile b → i = j;
  inv_tools : ∀ i a,
    agents w !! i = Some a → activeToolIds a = (activeToolStatuses a).*1;
  inv_wait : ∀ h t i,
    timers w !! h = Some t → callback t = WaitingFire i →
    waitingTimers w !! i = Some h ∧ is_Some (agents w !! i) ∧ period t = None;
  inv_poll : ∀ h t i,
    timers w !! h = Some t → callback t = PollTick i →
    pollingTimers w !! i = Some h ∧ is_Some (agents w !! i);
  inv_watch : ∀ h i,
    watchers w !! h = Some i →
    fileWatchers w !! i = Some h ∧ is_Some (agents w !! i)
}.

(** The agent a message is about. *)
Definition about (m : Message) (i : Z) : Prop :=
  match m with
  | agentCreated j | agentClosed j | agentStatus j _ | agentToolStart j _ _
  | agentToolDone j _ | agentToolsClear j => j = i
  | existingAgents ids => i ∈ ids
  end.

(** The id [i] has been handed out and no agent is registered under it. *)
Definition gone (i : Z) (w : World) : Prop :=
  i < nextAgentId w ∧ agents w !! i = None.

(** Among the messages about [i], only a delayed tool-done. *)
Definition lateOnly (i : Z) (m : Message) : Prop :=
  about m i → ∃ toolId, m = agentToolDone i toolId.

(** How a state can evolve: agent ids are never reused, an agent keeps its
    file, its offset never moves back, messages are only added, and those
    about an agent that is gone are delayed tool-done messages. *)
Definition evolves (w w' : World) : Prop :=
  nextAgentId w ≤ nextAgentId w'
  ∧ (∀ i a', agents w' !! i = Some a' → i < nextAgentId w →
      ∃ a, agents w !! i = Some a
           ∧ jsonlFile a' = jsonlFile a
           ∧ fileOffset a ≤ fileOffset a')
  ∧ ∃ ms, posted w' = posted w ++ ms ∧ ∀ i, gone i w → Forall (lateOnly i) ms.

(** The fields of an agent the interpreter never writes. *)
Definition reader (a : AgentState) : Z * Z * jsstring * jsstring * Z * jsstring :=
  (id a, terminalRef a, projectDir a, jsonlFile a, fileOffset a, lineBuffer a).

(** What interpreting lines of agent [j] can change: the tools and waiting
    flag of [j], timers, and messages about [j]. *)
Definition interp (j : Z) (w w' : World) : Prop :=
  nextAgentId w' = nextAgentId w
  ∧ claimedFiles w' = claimedFiles w
  ∧ webviewView w' = webviewView w
  ∧ clock w' = clock w
  ∧ (∀ i, reader <$> agents w' !! i = reader <$> agents w !! i)
  ∧ (∀ i, i ≠ j → agents w' !! i = agents w !! i)
  ∧ ∃ ms, posted w' = posted w ++ ms ∧ Forall (λ m, ∀ i, about m i → i = j) ms.

(** A transformer run while agent [j] is registered. *)
Definition interprets (j : Z) (f : World → World) : Prop :=
  ∀ w, is_Some (agents w !! j) → Inv w → Inv (f w) ∧ interp j w (f w).

(** What the tool-use loop of agent [j] can change: the open tools of [j]
    and the tool-start messages about it. *)
Definition toolStarts (j : Z) (w w' : World) : Prop :=
  waitingTimers w' = waitingTimers w
  ∧ timers w' = timers w
  ∧ (∀ i, isWaiting <$> agents w' !! i = isWaiting <$> agents w !! i)
  ∧ ∃ ms, posted w' = posted w ++ ms
          ∧ Forall (λ m, ∃ toolId status, m = agentToolStart j toolId status) ms.

(** What the tool-result loop can change besides the open tools: it only
    adds timers, under new handles. *)
Definition toolResults (w w' : World) : Prop :=
  posted w' = posted w
  ∧ waitingTimers w' = waitingTimers w
  ∧ webviewView w' = webviewView w
  ∧ clock w' = clock w
  ∧ nextHandle w ≤ nextHandle w'
  ∧ ∀ h, h < nextHandle w → timers w' !! h = timers w !! h.

(** Every tool-done message comes after a tool-start message for the same
    agent and tool. *)
Definition toolDonePreceded (ms : list Message) : Prop :=
  ∀ before j toolId after,
    ms = before ++ agentToolDone j toolId :: after →
    ∃ status, agentToolStart j toolId status ∈ before.

(** What a scan tick of [terminal] can change in the registry: agents are
    only added, each for a path that was unclaimed and satisfies [P], and the
    agents there before keep their file and terminal. *)
Definition grows (P : jsstring → Prop) (terminal : Z) (w w' : World) : Prop :=
  nextAgentId w ≤ nextAgentId w'
  ∧ claimedFiles w ⊆ claimedFiles w'
  ∧ (∀ i a, agents w !! i = Some a →
       ∃ a', agents w' !! i = Some a'
             ∧ jsonlFile a' = jsonlFile a ∧ terminalRef a' = terminalRef a)
  ∧ (∀ i a', agents w' !! i = Some a' → i < nextAgentId w →
       ∃ a, agents w !! i = Some a
            ∧ jsonlFile a' = jsonlFile a ∧ terminalRef a' = terminalRef a)
  ∧ (∀ i a', agents w' !! i = Some a' → nextAgentId w ≤ i →
       P (jsonlFile a') ∧ (jsonlFile a' ∉ claimedFiles w) ∧ terminalRef a' = terminal).

(** A state transformer that keeps the invariants. *)
Definition sound (f : World → World) : Prop :=
  ∀ w, Inv w → Inv (f w) ∧ evolves w (f w).

(** The period of the timer that runs a callback: scans and polls are
    intervals, the debounce and the tool-done delay are timeouts. *)
Definition periodOf (cb : Callback) : option Z :=
  match cb with
  | ScanTick _ _ => Some 1000
  | PollTick _ => Some 2000
  | WaitingFire _ | ToolDoneFire _ _ => None
  end.

(** The book-keeping of the provider: ids, claims, carried fragments, and
    the handles it keeps for agents and terminals. *)
Record Tidy (w : World) : Prop := {
  tidy_id : ∀ i a, agents w !! i = Some a → id a = i ∧ 1 ≤ i;
  tidy_next : 1 ≤ nextAgentId w;
  tidy_owned : ∀ f, f ∈ claimedFiles w →
    ∃ i a, agents w !! i = Some a ∧ jsonlFile a = f;
  tidy_carry : ∀ i a, agents w !! i = Some a →
    (newline ∉ lineBuffer a) ∧ 0 ≤ fileOffset a;
  tidy_fresh : ∀ h,
    is_Some (timers w !! h) ∨ is_Some (watchers w !! h) → h < nextHandle w;
  tidy_period : ∀ h t, timers w !! h = Some t → period t = periodOf (callback t);
  tidy_watched : ∀ i h, fileWatchers w !! i = Some h → watchers w !! h = Some i;
  tidy_polled : ∀ i, is_Some (agents w !! i) →
    ∃ h t, pollingTimers w !! i = Some h ∧ timers w !! h = Some t
           ∧ callback t = PollTick i;
  tidy_polling : ∀ i, is_Some (pollingTimers w !! i) → is_Some (agents w !! i);
  tidy_waiting : ∀ i h, waitingTimers w !! i = Some h →
    ∃ t, timers w !! h = Some t ∧ callback t = WaitingFire i;
  tidy_scanning : ∀ terminal h, terminalScanTimers w !! terminal = Some h →
    ∃ t sessionId, timers w !! h = Some t ∧ callback t = ScanTick terminal sessionId;
  tidy_dirs : ∀ terminal,
    is_Some (terminalProjectDirs w !! terminal)
    ↔ is_Some (terminalScanTimers w !! terminal)
}.

(** The handle [h] is kept in one of the tables of the provider. *)
Definition kept (h : Z) (w : World) : Prop :=
  (∃ i, pollingTimers w !! i = Some h)
  ∨ (∃ i, waitingTimers w !! i = Some h)
  ∨ (∃ terminal, terminalScanTimers w !! terminal = Some h).

(** A state transformer that keeps the book-keeping in order. *)
Definition tidy (f : World → World) : Prop :=
  ∀ w, Inv w → Tidy w → Tidy (f w).

(** The state kept for terminals. *)
Definition hosts (w : World) : Z * gmap Z jsstring * gmap Z Z :=
  (nextTerminalIndex w, terminalProjectDirs w, terminalScanTimers w).

(** The timer [t0] is pending under the handle [h], the agent [j] is in the
    state [a], and the view is attached. *)
Definition held (j h : Z) (t0 : Timer) (a : AgentState) (w : World) : Prop :=
  timers w !! h = Some t0 ∧ agents w !! j = Some a ∧ webviewView w = true.

(** From [w] to [w'] the timer and the agent are left as they are, and the
    messages added report [j] as waiting only if it was so already. *)
Definition calm (j h : Z) (t0 : Timer) (a : AgentState) (w w' : World) : Prop :=
  held j h t0 a w'
  ∧ ∃ ms, posted w' = posted w ++ ms
          ∧ Forall (λ m, m = agentStatus j waiting → isWaiting a = true) ms.

(** A transformer of the interpreter that does so. *)
Definition quietly (j h : Z) (t0 : Timer) (a : AgentState) (f : World → World) : Prop :=
  ∀ w, Tidy w → held j h t0 a w → Tidy (f w) ∧ calm j h t0 a w (f w).

(** A handler that does so. *)
Definition still (j h : Z) (t0 : Timer) (a : AgentState) (f : World → World) : Prop :=
  ∀ w, Inv w → Tidy w → held j h t0 a w → calm j h t0 a w (f w).

(** * A concrete runtime and file system for the examples *)

Module Sample.

(** A literal in which ['] stands for the double quote. *)
Definition js (s : string) : jsstring :=
  (λ c, if c =? 39 then 34 else c) <$> lit s.

(** [JSON.parse] on the texts of the examples: objects, arrays, strings
    without escapes, integers and the three literals, without white space.
    Any other text is rejected. *)
Fixpoint parseString (s : jsstring) : option (jsstring * jsstring) :=
  match s with
  | [] => None
  | c :: rest =>
      if c =? 34 then Some ([], rest)
      else if (c <? 32) || (c =? 92) then None
      else match parseString rest with
           | Some (str, rest') => Some (c :: str, rest')
           | None => None
           end
  end.

Definition isDigit (c : Z) : bool := (48 <=? c) && (c <=? 57).

Fixpoint leadingDigits (s : jsstring) : jsstring :=
  match s with
  | c :: rest => if isDigit c then c :: leadingDigits rest else []
  | [] => []
  end.

Definition parseDigits (s : jsstring) : option (Z * jsstring) :=
  let digits := leadingDigits s in
  if bool_decide (digits = []) then None
  else Some (foldl (λ n c, 10 * n + (c - 48)) 0 digits, drop (length digits) s).

Fixpoint parseValue (fuel : nat) (s : jsstring) : option (json * jsstring) :=
  match fuel with
  | O => None
  | S fuel =>
      match s with
      | 34 :: rest =>
          match parseString rest with
          | Some (str, rest') => Some (JStr str, rest')
          | None => None
          end
      | 91 :: 93 :: rest => Some (JArr [], rest)
      | 91 :: rest =>
          match parseElements fuel rest with
          | Some (items, rest') => Some (JArr items, rest')
          | None => None
          end
      | 123 :: 125 :: rest => Some (JObj [], rest)
      | 123 :: rest =>
          match parseMembers fuel rest with
          | Some (fields, rest') => Some (JObj fields, rest')
          | None => None
          end
      | 45 :: rest =>
          match parseDigits rest with
          | Some (n, rest') => Some (JNum (- n), rest')
          | None => None
          end
      | _ =>
          if bool_decide (take 4 s = lit "null") then Some (JNull, drop 4 s)
          else if bool_decide (take 4 s = lit "true") then Some (JBool true, drop 4 s)
          else if bool_decide (take 5 s = lit "false") then Some (JBool false, drop 5 s)
          else match parseDigits s with
               | Some (n, rest') => Some (JNum n, rest')
               | None => None
               end
      end
  end
with parseElements (fuel : nat) (s : jsstring) : option (list json * jsstring) :=
  match fuel with
  | O => None
  | S fuel =>
      match parseValue fuel s with
      | Some (v, 44 :: rest) =>
          match parseElements fuel rest with
          | Some (items, rest') => Some (v :: items, rest')
          | None => None
          end
      | Some (v, 93 :: rest) => Some ([v], rest)
      | _ => None
      end
  end
with parseMembers (fuel : nat) (s : jsstring) : option (list (jsstring * json) * jsstring) :=
  match fuel with
  | O => None
  | S fuel =>
      match s with
      | 34 :: rest =>
          match parseString rest with
          | Some (key, 58 :: rest') =>
              match parseValue fuel rest' with
              | Some (v, 44 :: rest'') =>
                  match parseMembers fuel rest'' with
                  | Some (fields, rest''') => Some ((key, v) :: fields, rest''')
                  | None => None
                  end
              | Some (v, 125 :: rest'') => Some ([(key, v)], rest'')
              | _ => None
              end
          | _ => None
          end
      | _ => None
      end
  end.

Definition parse (text : jsstring) : option json :=
  match parseValue (S (length text)) text with
  | Some (v, []) => Some v
  | _ => None
  end.

(** POSIX [path.join] and [path.basename] on normalised parts. *)
Definition join (parts : list jsstring) : jsstring :=
  match parts with
  | [] => lit "."
  | p :: rest => foldl (λ acc q, acc ++ lit "/" ++ q) p rest
  end.

Definition basename (p : jsstring) : jsstring :=
  default [] (last (split 47 p)).

#[local] Instance runtime : NodeRuntime := {|
  JSON_parse := parse;
  path_join := join;
  path_basename := basename;
  ToString v := match v with
                | JNull => Some (lit "null")
                | JBool true => Some (lit "true")
                | JBool false => Some (lit "false")
                | _ => None
                end;
  greaterThan v n := match v with JNum m => n <? m | _ => false end
|}.

(** The UTF-8 bytes of an ASCII text. *)
Definition bytes (text : jsstring) : list Z := text.

(** A file system with one home directory, one workspace and the given
    transcript files [(name, mtime, content)] in its project directory. *)
Definition dir : jsstring := lit "/home/u/.claude/projects/-work".

Fixpoint lookupFile (files : list (jsstring * (Z * list Z))) (p : jsstring)
  : option (Z * list Z) :=
  match files with
  | [] => None
  | (name, f) :: rest =>
      if bool_decide (join [dir; name] = p) then Some f else lookupFile rest p
  end.

Definition env (now maxAge : Z) (files : list (jsstring * (Z * list Z))) : Env := {|
  Date_now := now;
  sessionMaxAgeSecs := maxAge;
  workspaceFolder := Some (lit "/work");
  homedir := lit "/home/u";
  existsSync p := bool_decide (is_Some (lookupFile files p));
  statSync p := (λ f, {| fs.size := Z.of_nat (length f.2); fs.mtimeMs := f.1 |})
                  <$> lookupFile files p;
  readdirSync p := if bool_decide (p = dir) then Some (files.*1) else None;
  fileBytes p := snd <$> lookupFile files p;
  watchable p := bool_decide (is_Some (lookupFile files p))
|}.

(** Transcript lines. *)
Definition textLine : jsstring :=
  js "{'type':'assistant','message':{'content':[{'type':'text','text':'hi'}]}}".
Definition toolUseLine : jsstring :=
  js "{'type':'assistant','message':{'content':[{'type':'tool_use','id':'t1','name':'Glob'}]}}".
Definition toolResultLine : jsstring :=
  js "{'type':'user','message':{'content':[{'type':'tool_result','tool_use_id':'x'}]}}".
Definition turnLine : jsstring :=
  js "{'type':'system','subtype':'turn_duration'}".
Definition userLine : jsstring :=
  js "{'type':'user','message':{'content':'go on'}}".
Definition finishedLine : jsstring :=
  js "{'type':'user','message':{'content':[{'type':'tool_result','tool_use_id':'t1'}]}}".

(** A line parsed, and the content blocks of a record. *)
Definition record (line : jsstring) : json := default JNull (parse line).
Definition blocksOf (r : json) : list json :=
  default [] (asArray (optField "content" (field "message" r))).

(** The transcript path of session [s1] and the agent created for it. *)
Definition path : jsstring := join [dir; lit "s1.jsonl"].
Definition agent1 : AgentState := newAgent 1 7 path dir.

Definition transcript (lines : list jsstring) : list Z :=
  bytes (terminated lines).

(** No transcript yet; the transcript [s1.jsonl] with a content. *)
Definition empty : Env := env 0 180 [].
Definition session (content : list Z) : Env :=
  env 1000 180 [(lit "s1.jsonl", (900, content))].

(** The project directory lists [ghost.jsonl], a link whose target is gone:
    it cannot be stat-ed, opened or watched.  The age threshold is zero. *)
Definition dangling : Env := {|
  Date_now := 1000;
  sessionMaxAgeSecs := 0;
  workspaceFolder := Some (lit "/work");
  homedir := lit "/home/u";
  existsSync p := false;
  statSync p := None;
  readdirSync p := if bool_decide (p = dir) then Some [lit "ghost.jsonl"] else None;
  fileBytes p := None;
  watchable p := false
|}.

(** The transcript of session [s1], last written long before the scan. *)
Definition stale (content : list Z) : Env :=
  env 1000000 180 [(lit "s1.jsonl", (0, content))].

(** The view is resolved and a terminal 7 is launched for session [s1];
    timer 1 is its scan. *)
Definition launched : list Event :=
  [ResolveWebviewView [] empty; OpenClaude 7 (lit "s1") empty; TimePasses 1000].

(** The view is resolved, a terminal 7 is launched for session [s1], and its
    first scan tick (timer 1) finds the transcript with the given lines.
    Agent 1 is created with watcher 2 and poll timer 3. *)
Definition opened (lines : list jsstring) : list Event :=
  [ResolveWebviewView [] empty; OpenClaude 7 (lit "s1") empty; TimePasses 1000;
   TimerFires 1 (session (transcript lines))].

End Sample.

(** * Splitting and the tailing reader *)

Section Tailing.

Lemma split_not_nil sep s : split sep s ≠ [].
Proof.
  destruct s as [|c s]; simpl; [done|].
  destruct (c =? sep); [done|]. by destruct (split sep s).
Qed.

Lemma removelast_cons {A} (x : A) l : l ≠ [] → removelast (x :: l) = x :: removelast l.
Proof. by destruct l. Qed.

Lemma last_cons_ne {A} (x : A) l : l ≠ [] → last (x :: l) = last l.
Proof. by destruct l. Qed.

(** Splitting loses nothing: the lines with their terminators, then the
    last fragment, are the text. *)
Lemma split_terminated s :
  terminated (removelast (split newline s)) ++ default [] (last (split newline s)) = s.
Proof.
  unfold terminated. induction s as [|c s IH]; [done|].
  simpl split. destruct (Z.eqb_spec c newline) as [->|Hc].
  - rewrite removelast_cons, last_cons_ne by apply split_not_nil.
    csimpl. by rewrite IH.
  - pose proof (split_not_nil newline s) as Hne.
    destruct (split newline s) as [|l ls]; [done|].
    destruct ls as [|l' ls].
    + csimpl in *. by rewrite IH.
    + rewrite !removelast_cons, !last_cons_ne in * by done.
      csimpl in *. by rewrite IH.
Qed.

(** Splitting a text cut in two: the lines of the first part, then the
    split of its last fragment put before the second part. *)
Lemma split_app sep x y :
  split sep (x ++ y)
  = removelast (split sep x) ++ split sep (default [] (last (split sep x)) ++ y).
Proof.
  induction x as [|c x IH]; [done|].
  simpl. destruct (c =? sep) eqn:Hc.
  - rewrite removelast_cons, last_cons_ne by apply split_not_nil.
    simpl. by rewrite IH.
  - rewrite IH. pose proof (split_not_nil sep x) as Hne.
    destruct (split sep x) as [|l ls]; [done|].
    destruct ls as [|l' ls]; simpl; [|done].
    by rewrite Hc.
Qed.

Lemma removelast_app_ne {A} (l k : list A) :
  k ≠ [] → removelast (l ++ k) = l ++ removelast k.
Proof. intros. by apply removelast_app. Qed.

Lemma last_app_ne {A} (l k : list A) : k ≠ [] → last (l ++ k) = last k.
Proof.
  intros Hk. destruct k as [|x k _] using rev_ind; [done|].
  by rewrite app_assoc, !last_snoc.
Qed.

Lemma readSync_exact pre c :
  readSync (pre ++ c) (Z.of_nat (length pre))
           (Z.of_nat (length (pre ++ c)) - Z.of_nat (length pre)) = c.
Proof.
  unfold readSync. rewrite length_app.
  replace (Z.to_nat (Z.of_nat (length pre + length c) - Z.of_nat (length pre)))
    with (length c) by lia.
  rewrite Nat2Z.id, drop_app_length, firstn_all, Nat.sub_diag. simpl.
  by rewrite app_nil_r.
Qed.

Lemma split_no_sep sep s l : l ∈ split sep s → sep ∉ l.
Proof.
  revert l. induction s as [|c s IH]; intros l; simpl.
  - intros ->%list_elem_of_singleton. by apply not_elem_of_nil.
  - destruct (Z.eqb_spec c sep) as [->|Hc].
    + intros [->|?]%elem_of_cons; [by apply not_elem_of_nil | by apply IH].
    + pose proof (split_not_nil sep s) as Hne.
      destruct (split sep s) as [|l0 ls]; [done|].
      intros [->|?]%elem_of_cons.
      * intros [?|?]%elem_of_cons; [done|]. by eapply IH; [left|].
      * apply IH. by right.
Qed.

Lemma split_without_sep sep s : sep ∉ s → split sep s = [s].
Proof.
  induction s as [|c s IH]; [done|].
  intros Hs. simpl. destruct (Z.eqb_spec c sep) as [->|Hc].
  - destruct Hs. by left.
  - rewrite IH; [done|]. intros ?. apply Hs. by right.
Qed.

Lemma last_split_no_sep sep s : sep ∉ default [] (last (split sep s)).
Proof.
  pose proof (split_not_nil sep s) as Hne.
  destruct (last (split sep s)) as [l|] eqn:Hl.
  - apply (split_no_sep sep s). by apply last_Some_elem_of.
  - by apply last_None in Hl.
Qed.

(** The reader run over a file that only grows: the generalisation of the
    reassembly theorem to an agent that has consumed [pre] and carries a
    fragment without line terminator. *)
Lemma pumps_appended p chunks : ∀ agent pre Es,
  jsonlFile agent = p →
  fileOffset agent = Z.of_nat (length pre) →
  newline ∉ lineBuffer agent →
  Forall2 (shows p) Es (appended pre chunks) →
  let text := lineBuffer agent ++ concat (toString_utf8 <$> chunks) in
  jsonlFile (pumps Es agent).1 = p
  ∧ fileOffset (pumps Es agent).1 = Z.of_nat (length (pre ++ concat chunks))
  ∧ (pumps Es agent).2 = removelast (split newline text)
  ∧ lineBuffer (pumps Es agent).1 = default [] (last (split newline text)).
Proof.
  induction chunks as [|c chunks IH]; intros agent pre Es Hp Hoff Hnl HEs; simpl in HEs.
  - apply Forall2_nil_inv_r in HEs as ->. csimpl.
    rewrite !app_nil_r. rewrite split_without_sep by done. done.
  - apply Forall2_cons_inv_r in HEs as (E & Es' & [Hstat Hbytes] & HEs' & ->).
    simpl pumps. unfold pump. rewrite Hp.
    destruct (statSync E p) as [stat|]; [|done].
    injection Hstat as Hsize. rewrite Hsize, Hoff, Hbytes.
    destruct (Z.leb_spec (Z.of_nat (length (pre ++ c))) (Z.of_nat (length pre))) as [Hle|Hlt].
    + assert (c = []) as ->.
      { rewrite length_app in Hle. destruct c; [done | simpl in Hle; lia]. }
      rewrite app_nil_r in *. csimpl. by apply IH.
    + rewrite readSync_exact. unfold splitLines.
      set (agent' := set_lineBuffer _ _).
      destruct (IH agent' (pre ++ c) Es') as (H1 & H2 & H3 & H4); try done.
      { subst agent'. simpl. apply last_split_no_sep. }
      subst agent'. simpl in *. csimpl.
      rewrite H1, H2, H3, H4.
      rewrite (app_assoc (lineBuffer agent)), (split_app _ (lineBuffer agent ++ _)).
      rewrite <- !app_assoc.
      rewrite removelast_app_ne, last_app_ne by apply split_not_nil.
      done.
Qed.

Lemma toString_utf8_ascii bs : Forall (λ b, 0 ≤ b < 128) bs → toString_utf8 bs = bs.
Proof.
  unfold toString_utf8. induction 1 as [|b bs Hb _ IH]; [done|].
  simpl. unfold utf8_lead. destruct (Z.leb_spec b 127); [|lia]. simpl. by rewrite IH.
Qed.

Lemma toString_utf8_ascii_chunks chunks :
  Forall (λ b, 0 ≤ b < 128) (concat chunks) →
  concat (toString_utf8 <$> chunks) = concat chunks.
Proof.
  induction chunks as [|c chunks IH]; [done|]. csimpl.
  intros [Hc Hcs]%Forall_app. by rewrite toString_utf8_ascii, IH.
Qed.

End Tailing.

(** * Preservation of the invariants *)

Section Preservation.
Context {RT : NodeRuntime}.

Lemma insert_is_Some_mono {A} (m : gmap Z A) i j x :
  is_Some (m !! i) → is_Some (<[j := x]> m !! i).
Proof. rewrite lookup_insert_is_Some. destruct (decide (j = i)); auto. Qed.

Lemma evolves_refl w : evolves w w.
Proof.
  split_and!; [lia| |].
  - intros i a Ha _. exists a. split_and!; [done|done|lia].
  - exists []. by rewrite app_nil_r.
Qed.

Lemma evolves_gone i w w' : evolves w w' → gone i w → gone i w'.
Proof.
  intros (Hn & Ha & _) [Hi Hnone]. split; [lia|].
  destruct (agents w' !! i) as [a'|] eqn:Ha'; [|done].
  destruct (Ha i a' Ha' Hi) as (a & ? & _). congruence.
Qed.

Lemma evolves_trans w1 w2 w3 : evolves w1 w2 → evolves w2 w3 → evolves w1 w3.
Proof.
  intros H12 H23.
  pose proof (λ i, evolves_gone i _ _ H12) as Hgone.
  destruct H12 as (Hn1 & H1 & ms1 & Hp1 & Hl1), H23 as (Hn2 & H2 & ms2 & Hp2 & Hl2).
  split_and!; [lia| |].
  - intros i a3 Ha3 Hi.
    destruct (H2 i a3 Ha3) as (a2 & Ha2 & Hf2 & Ho2); [lia|].
    destruct (H1 i a2 Ha2 Hi) as (a1 & Ha1 & Hf1 & Ho1).
    exists a1. split_and!; [done|congruence|lia].
  - exists (ms1 ++ ms2). split; [by rewrite Hp2, Hp1, app_assoc|].
    intros i Hi. apply Forall_app. split; [by apply Hl1 | apply Hl2, Hgone, Hi].
Qed.

Lemma sound_id : sound (λ w, w).
Proof. intros w HI. split; [done | apply evolves_refl]. Qed.

Lemma sound_compose f g : sound f → sound g → sound (λ w, g (f w)).
Proof.
  intros Hf Hg w HI. destruct (Hf w HI) as [HI1 He1].
  destruct (Hg (f w) HI1) as [HI2 He2].
  split; [done | by eapply evolves_trans].
Qed.

Lemma sound_foldl {A} (f : World → A → World) (l : list A) :
  (∀ x, sound (λ w, f w x)) → sound (λ w, foldl f w l).
Proof.
  intros Hf. induction l as [|x l IH]; simpl; [apply sound_id|].
  intros w HI. destruct (Hf x w HI) as [HI1 He1].
  destruct (IH _ HI1) as [HI2 He2]. split; [done | by eapply evolves_trans].
Qed.

(** A change that leaves the registry, the timers and the watchers alone. *)
Lemma Inv_same w w' :
  nextAgentId w' = nextAgentId w → agents w' = agents w →
  claimedFiles w' = claimedFiles w → timers w' = timers w →
  waitingTimers w' = waitingTimers w → pollingTimers w' = pollingTimers w →
  watchers w' = watchers w → fileWatchers w' = fileWatchers w →
  Inv w → Inv w'.
Proof.
  intros H1 H2 H3 H4 H5 H6 H7 H8 [].
  constructor; rewrite ?H1, ?H2, ?H3, ?H4, ?H5, ?H6, ?H7, ?H8; done.
Qed.

Lemma evolves_same w w' :
  nextAgentId w' = nextAgentId w → agents w' = agents w → posted w' = posted w →
  evolves w w'.
Proof.
  intros H1 H2 H3. unfold evolves. rewrite H1, H2, H3. apply evolves_refl.
Qed.

Lemma evolves_emit m w :
  (∀ i, gone i w → lateOnly i m) → evolves w (emit m w).
Proof.
  intros Hm. split_and!; simpl; [lia| |].
  - intros i a Ha _. exists a. split_and!; [done|done|lia].
  - exists [m]. split; [done|]. intros i Hi. apply Forall_singleton. by apply Hm.
Qed.

Lemma evolves_post m w :
  (∀ i, gone i w → lateOnly i m) → evolves w (post m w).
Proof.
  intros Hm. unfold post. destruct (webviewView w); [by apply evolves_emit | apply evolves_refl].
Qed.

(** A message about a registered agent says nothing about one that is gone. *)
Lemma lateOnly_alive m j w :
  is_Some (agents w !! j) → (∀ i, about m i → i = j) →
  ∀ i, gone i w → lateOnly i m.
Proof.
  intros [a Ha] Hm i [_ Hi] Hab. apply Hm in Hab as ->. congruence.
Qed.

Lemma Inv_emit m w : Inv w → Inv (emit m w).
Proof. by apply Inv_same. Qed.

Lemma Inv_post m w : Inv w → Inv (post m w).
Proof. unfold post. destruct (webviewView w); [apply Inv_emit | done]. Qed.

(** Timers may go, be rescheduled, or be added for callbacks the provider
    keeps no handle for. *)
Lemma Inv_timers w ts :
  (∀ h t, ts !! h = Some t →
     untracked (callback t)
     ∨ ∃ t0, timers w !! h = Some t0 ∧ callback t0 = callback t ∧ period t0 = period t) →
  Inv w → Inv (set_timers ts w).
Proof.
  intros Hts []. constructor; simpl; try done.
  - intros h t i Ht Hcb. destruct (Hts h t Ht) as [Hu|(t0 & Ht0 & Hcb0 & Hp0)].
    + by rewrite Hcb in Hu.
    + rewrite <- Hp0. eapply inv_wait0; [done|congruence].
  - intros h t i Ht Hcb. destruct (Hts h t Ht) as [Hu|(t0 & Ht0 & Hcb0 & Hp0)].
    + by rewrite Hcb in Hu.
    + eapply inv_poll0; [done|congruence].
Qed.

Lemma Inv_clearTimer h w : Inv w → Inv (clearTimer h w).
Proof.
  apply Inv_timers. intros h' t [_ Ht]%lookup_delete_Some. right. by exists t.
Qed.

Lemma Inv_setTimer_untracked t w :
  untracked (callback t) → Inv w → Inv (setTimer t w).
Proof.
  intros Hu HI. unfold setTimer.
  apply (Inv_same (set_timers (<[nextHandle w := t]> (timers w)) w)); try done.
  apply Inv_timers; [|done].
  intros h t' [[<- <-]|[_ Ht]]%lookup_insert_Some; [by left|right; by exists t'].
Qed.

Lemma Inv_cancelWaitingTimer i w : Inv w → Inv (cancelWaitingTimer i w).
Proof.
  intros HI. unfold cancelWaitingTimer.
  destruct (waitingTimers w !! i) as [timer|] eqn:Hw; [|done].
  pose proof (Inv_clearTimer timer w HI) as [].
  constructor; simpl in *; try done.
  intros h t j Ht Hcb. destruct (inv_wait0 h t j Ht Hcb) as [Hj ?].
  split; [|done]. rewrite lookup_delete_ne; [done|].
  intros ->. apply lookup_delete_Some in Ht as [Hne _]. congruence.
Qed.

Lemma interp_refl j w : interp j w w.
Proof. split_and!; try done. exists []. by rewrite app_nil_r. Qed.

Lemma interp_trans j w1 w2 w3 : interp j w1 w2 → interp j w2 w3 → interp j w1 w3.
Proof.
  intros (A1 & A2 & A3 & A4 & A5 & A6 & ms1 & A7 & A8)
         (B1 & B2 & B3 & B4 & B5 & B6 & ms2 & B7 & B8).
  split_and!; [congruence..| | |].
  - intros i. by rewrite (B5 i).
  - intros i Hi. by rewrite (B6 i), (A6 i).
  - exists (ms1 ++ ms2). split; [by rewrite B7, A7, app_assoc | by apply Forall_app].
Qed.

Lemma interp_alive j w w' i :
  interp j w w' → is_Some (agents w !! i) → is_Some (agents w' !! i).
Proof.
  intros (_ & _ & _ & _ & Hr & _) [a Ha]. specialize (Hr i). rewrite Ha in Hr.
  destruct (agents w' !! i); [by eexists | done].
Qed.

Lemma interp_evolves j w w' :
  is_Some (agents w !! j) → interp j w w' → evolves w w'.
Proof.
  intros Hj (A1 & _ & _ & _ & A5 & _ & ms & A7 & A8). split_and!; [lia| |].
  - intros i a' Ha' _. specialize (A5 i). rewrite Ha' in A5.
    destruct (agents w !! i) as [a|]; [|done]. exists a.
    injection A5 as ? ? ? ? ? ?. split_and!; [done|done|lia].
  - exists ms. split; [done|]. intros i Hi.
    eapply Forall_impl; [done|]. intros m Hm.
    by eapply lateOnly_alive.
Qed.

Lemma interprets_id j : interprets j (λ w, w).
Proof. intros w _ HI. split; [done | apply interp_refl]. Qed.

Lemma interprets_compose j f g :
  interprets j f → interprets j g → interprets j (λ w, g (f w)).
Proof.
  intros Hf Hg w Hj HI. destruct (Hf w Hj HI) as [HI1 H1].
  destruct (Hg (f w)) as [HI2 H2]; [by eapply interp_alive | done |].
  split; [done | by eapply interp_trans].
Qed.

(** The agents may change in their tools and flags. *)
Lemma Inv_agents w ags :
  (∀ i a', ags !! i = Some a' →
     ∃ a, agents w !! i = Some a ∧ jsonlFile a' = jsonlFile a
          ∧ activeToolIds a' = (activeToolStatuses a').*1) →
  (∀ i, is_Some (agents w !! i) → is_Some (ags !! i)) →
  Inv w → Inv (set_agents ags w).
Proof.
  intros Hags Hdom []. constructor; simpl.
  - intros i a' (a & Ha & _)%Hags. eauto.
  - intros i a' (a & Ha & -> & _)%Hags. eauto.
  - intros i k a' b' (a & Ha & -> & _)%Hags (b & Hb & -> & _)%Hags. eauto.
  - intros i a' (a & Ha & _ & ?)%Hags. done.
  - intros h t i Ht Hcb. destruct (inv_wait0 h t i Ht Hcb) as (? & ? & ?). eauto.
  - intros h t i Ht Hcb. destruct (inv_poll0 h t i Ht Hcb). eauto.
  - intros h i Hh. destruct (inv_watch0 h i Hh). eauto.
Qed.

Lemma interprets_updAgent j f :
  (∀ a, reader (f a) = reader a) →
  (∀ a, activeToolIds a = (activeToolStatuses a).*1 →
        activeToolIds (f a) = (activeToolStatuses (f a)).*1) →
  interprets j (updAgent j f).
Proof.
  intros Hr Hl w Hj HI. split.
  - apply Inv_agents; [| |done].
    + intros i a' [(-> & a & Ha & ->)|[_ Ha]]%lookup_alter_Some.
      * exists a. pose proof (Hr a) as Hra. injection Hra as _ _ _ ? _ _.
        split_and!; [done|done|]. eapply Hl, inv_tools; done.
      * exists a'. split_and!; [done|done|]. eapply inv_tools; done.
    + intros i. by rewrite lookup_alter_is_Some.
  - split_and!; simpl; try done.
    + intros i. rewrite lookup_alter. case_decide; [subst|done].
      destruct (agents w !! i); simpl; [by rewrite Hr | done].
    + intros i Hi. by rewrite lookup_alter_ne.
    + exists []. by rewrite app_nil_r.
Qed.

Lemma interprets_post j m :
  (∀ i, about m i → i = j) → interprets j (post m).
Proof.
  intros Hm w Hj HI. split; [by apply Inv_post|].
  unfold post. destruct (webviewView w); [|apply interp_refl].
  split_and!; simpl; try done. exists [m]. split; [done|]. by apply Forall_singleton.
Qed.

(** A change of the timers and of the waiting handles only. *)
Lemma interp_timers j w w' :
  nextAgentId w' = nextAgentId w → claimedFiles w' = claimedFiles w →
  webviewView w' = webviewView w → clock w' = clock w →
  agents w' = agents w → posted w' = posted w →
  interp j w w'.
Proof.
  intros H1 H2 H3 H4 H5 H6. split_and!; try done.
  - intros i. by rewrite H5.
  - intros i _. by rewrite H5.
  - exists []. by rewrite H6, app_nil_r.
Qed.

Lemma interprets_cancelWaitingTimer j : interprets j (cancelWaitingTimer j).
Proof.
  intros w Hj HI. split; [by apply Inv_cancelWaitingTimer|].
  unfold cancelWaitingTimer. destruct (waitingTimers w !! j); [|apply interp_refl].
  by apply interp_timers.
Qed.

Lemma Inv_startWaitingTimer j delayMs w :
  is_Some (agents w !! j) → Inv w → Inv (startWaitingTimer j delayMs w).
Proof.
  intros Hj HI. unfold startWaitingTimer.
  pose proof (Inv_cancelWaitingTimer j w HI) as HI1.
  assert (waitingTimers (cancelWaitingTimer j w) !! j = None) as Hnone.
  { unfold cancelWaitingTimer. destruct (waitingTimers w !! j) eqn:Hw; [|done].
    simpl. apply lookup_delete_eq. }
  assert (is_Some (agents (cancelWaitingTimer j w) !! j)) as Hj1.
  { unfold cancelWaitingTimer. by destruct (waitingTimers w !! j). }
  revert HI1 Hnone Hj1. generalize (cancelWaitingTimer j w). clear.
  intros w [] Hnone Hj. constructor; simpl; try done.
  - intros h t i [[<- <-]|[Hne Ht]]%lookup_insert_Some Hcb.
    + simpl in Hcb. injection Hcb as <-. by rewrite lookup_insert_eq.
    + destruct (inv_wait0 h t i Ht Hcb) as (Hi & ? & ?). split_and!; [|done..].
      rewrite lookup_insert_ne; [done|]. intros <-. congruence.
  - intros h t i [[<- <-]|[Hne Ht]]%lookup_insert_Some Hcb; [done|]. eauto.
Qed.

Lemma interprets_startWaitingTimer j delayMs : interprets j (startWaitingTimer j delayMs).
Proof.
  intros w Hj HI. split; [by apply Inv_startWaitingTimer|].
  unfold startWaitingTimer, cancelWaitingTimer.
  destruct (waitingTimers w !! j); by apply interp_timers.
Qed.

Lemma interprets_setTimeout_toolDone j i toolId delayMs :
  interprets j (setTimeout (ToolDoneFire i toolId) delayMs).
Proof.
  intros w Hj HI. split; [by apply Inv_setTimer_untracked|]. by apply interp_timers.
Qed.

(** ** The open tools: ids and statuses in lockstep *)

Lemma Set_has_keys {V} k (m : list (json * V)) : Set_has k m.*1 = Map_has k m.
Proof.
  unfold Set_has, Map_has. induction m as [|p m IH]; [done|].
  csimpl. by rewrite IH.
Qed.

Lemma Set_add_keys {V} k (v : V) m : Set_add k m.*1 = (Map_set k v m).*1.
Proof.
  unfold Set_add, Map_set. rewrite Set_has_keys.
  destruct (Map_has k m).
  - rewrite <- list_fmap_compose. apply list_fmap_ext.
    intros _ p _. simpl. by destruct (sameValueZero k p.1).
  - by rewrite fmap_app.
Qed.

Lemma Set_delete_keys {V} k (m : list (json * V)) : Set_delete k m.*1 = (Map_delete k m).*1.
Proof.
  unfold Set_delete, Map_delete. induction m as [|p m IH]; [done|].
  csimpl. destruct (sameValueZero k p.1); csimpl; by rewrite IH.
Qed.

Lemma Set_delete_absent k s : Set_has k s = false → Set_delete k s = s.
Proof.
  unfold Set_has, Set_delete. induction s as [|x s IH]; [done|].
  simpl. intros [-> Hs]%orb_false_elim. simpl. by rewrite IH.
Qed.

Lemma Map_delete_absent {V} k (m : list (json * V)) : Map_has k m = false → Map_delete k m = m.
Proof.
  unfold Map_has, Map_delete. induction m as [|x m IH]; [done|].
  simpl. intros [-> Hs]%orb_false_elim. simpl. by rewrite IH.
Qed.

Lemma updAgent_updAgent j f g w :
  updAgent j g (updAgent j f w) = updAgent j (g ∘ f) w.
Proof. unfold updAgent. simpl. by rewrite alter_alter_eq. Qed.

Lemma interprets_toolStart j k status :
  interprets j (λ w,
    updAgent j (λ a, set_activeToolStatuses (Map_set k status (activeToolStatuses a)) a)
      (updAgent j (λ a, set_activeToolIds (Set_add k (activeToolIds a)) a) w)).
Proof.
  intros w. rewrite updAgent_updAgent. revert w. apply interprets_updAgent.
  - done.
  - intros a Ha. simpl. rewrite Ha. apply Set_add_keys.
Qed.

Lemma interprets_toolResult j k :
  interprets j (λ w,
    updAgent j (λ a, set_activeToolStatuses (Map_delete k (activeToolStatuses a)) a)
      (updAgent j (λ a, set_activeToolIds (Set_delete k (activeToolIds a)) a) w)).
Proof.
  intros w. rewrite updAgent_updAgent. revert w. apply interprets_updAgent.
  - done.
  - intros a Ha. simpl. rewrite Ha. apply Set_delete_keys.
Qed.

Lemma interprets_set_isWaiting j b : interprets j (updAgent j (set_isWaiting b)).
Proof. by apply interprets_updAgent. Qed.

Lemma interprets_clearAgentActivity j : interprets j (clearAgentActivity j).
Proof.
  intros w Hj HI. unfold clearAgentActivity. destruct Hj as [a Ha]. rewrite Ha.
  revert w HI a Ha.
  assert (interprets j (λ w,
    post (agentStatus j active) (post (agentToolsClear j)
      (updAgent j (set_isWaiting false)
        (updAgent j (set_activeToolStatuses [])
          (updAgent j (set_activeToolIds []) w)))))) as H; [|by eauto].
  apply (interprets_compose j _ (post _)); [|by apply interprets_post; intros ? <-].
  apply (interprets_compose j _ (post _)); [|by apply interprets_post; intros ? <-].
  intros w. rewrite !updAgent_updAgent. revert w. by apply interprets_updAgent.
Qed.

Lemma interprets_turnCompleted j : interprets j (turnCompleted j).
Proof.
  unfold turnCompleted.
  apply (interprets_compose j _ (post _)); [|by apply interprets_post; intros ? <-].
  apply (interprets_compose j _ (updAgent j _)); [|apply interprets_set_isWaiting].
  apply interprets_cancelWaitingTimer.
Qed.

Lemma toolUseBlock_interprets j block w w' :
  toolUseBlock j block w = Some w' →
  is_Some (agents w !! j) → Inv w → Inv w' ∧ interp j w w'.
Proof.
  unfold toolUseBlock. intros Hw' Hj HI.
  destruct (_ && _); [|injection Hw' as <-; split; [done | apply interp_refl]].
  destruct (formatToolStatus _ _) as [status|]; [|done].
  destruct (toStr _); [|done]. injection Hw' as <-.
  revert w Hj HI.
  apply (interprets_compose j _ (post _)); [|by apply interprets_post; intros ? <-].
  apply interprets_toolStart.
Qed.

Lemma interprets_toolUseLoop j blocks : interprets j (toolUseLoop j blocks).
Proof.
  induction blocks as [|block blocks IH]; [apply interprets_id|].
  intros w Hj HI. simpl.
  destruct (toolUseBlock j block w) as [w'|] eqn:Hb.
  - destruct (toolUseBlock_interprets _ _ _ _ Hb Hj HI) as [HI1 H1].
    destruct (IH w') as [HI2 H2]; [by eapply interp_alive | done |].
    destruct block; (split; [done | try apply interp_refl; by eapply interp_trans]).
  - destruct block; (split; [done | apply interp_refl]).
Qed.

Lemma toolResultBlock_interprets j block w w' :
  toolResultBlock j block w = Some w' →
  is_Some (agents w !! j) → Inv w → Inv w' ∧ interp j w w'.
Proof.
  unfold toolResultBlock. intros Hw' Hj HI.
  destruct (_ && _); [|injection Hw' as <-; split; [done | apply interp_refl]].
  destruct (toStr _); [|done]. injection Hw' as <-.
  revert w Hj HI.
  apply (interprets_compose j _ (setTimeout _ _)); [|apply interprets_setTimeout_toolDone].
  apply interprets_toolResult.
Qed.

Lemma interprets_toolResultLoop j blocks : interprets j (toolResultLoop j blocks).
Proof.
  induction blocks as [|block blocks IH]; [apply interprets_id|].
  intros w Hj HI. simpl.
  destruct (toolResultBlock j block w) as [w'|] eqn:Hb.
  - destruct (toolResultBlock_interprets _ _ _ _ Hb Hj HI) as [HI1 H1].
    destruct (IH w') as [HI2 H2]; [by eapply interp_alive | done |].
    destruct block; (split; [done | try apply interp_refl; by eapply interp_trans]).
  - destruct block; (split; [done | apply interp_refl]).
Qed.

Lemma interprets_processRecord j record : interprets j (processRecord j record).
Proof.
  unfold processRecord.
  destruct record; try apply interprets_id;
  repeat match goal with
  | |- interprets _ (λ w, match ?x with _ => _ end) => destruct x
  | |- interprets _ (λ w, if ?x then _ else _) => destruct x
  | |- interprets _ (λ w, w) => apply interprets_id
  | |- interprets _ (λ w, toolUseLoop _ _ _) =>
      apply (interprets_compose j _ (toolUseLoop _ _)); [|apply interprets_toolUseLoop]
  | |- interprets _ (λ w, post _ _) =>
      apply (interprets_compose j _ (post _)); [|by apply interprets_post; intros ? <-]
  | |- interprets _ (λ w, updAgent _ _ _) =>
      apply (interprets_compose j _ (updAgent _ _)); [|apply interprets_set_isWaiting]
  | |- interprets _ (λ w, clearAgentActivity _ _) =>
      apply (interprets_compose j _ (clearAgentActivity _)); [|apply interprets_clearAgentActivity]
  | |- interprets _ (λ w, cancelWaitingTimer _ w) => apply interprets_cancelWaitingTimer
  | |- interprets _ (λ w, startWaitingTimer _ _ w) => apply interprets_startWaitingTimer
  | |- interprets _ (λ w, toolResultLoop _ _ w) => apply interprets_toolResultLoop
  | |- interprets _ (λ w, turnCompleted _ w) => apply interprets_turnCompleted
  | |- interprets _ (cancelWaitingTimer _) => apply interprets_cancelWaitingTimer
  end.
Qed.

(** [processTranscriptLine] needs no assumption: it checks the agent itself. *)
Lemma processTranscriptLine_interp j line w :
  Inv w → Inv (processTranscriptLine j line w) ∧ interp j w (processTranscriptLine j line w).
Proof.
  intros HI. unfold processTranscriptLine.
  destruct (agents w !! j) as [a|] eqn:Ha; [|split; [done | apply interp_refl]].
  destruct (JSON_parse line); [|split; [done | apply interp_refl]].
  apply interprets_processRecord; [by eexists | done].
Qed.

Lemma deliver_interp j lines w :
  Inv w →
  Inv (foldl (λ w line, processTranscriptLine j line w) w lines)
  ∧ interp j w (foldl (λ w line, processTranscriptLine j line w) w lines).
Proof.
  revert w. induction lines as [|line lines IH]; intros w HI; simpl.
  - split; [done | apply interp_refl].
  - destruct (processTranscriptLine_interp j line w HI) as [HI1 H1].
    destruct (IH _ HI1) as [HI2 H2]. split; [done | by eapply interp_trans].
Qed.

(** ** The reader *)

Lemma pump_Some E a a' lines :
  pump E a = Some (a', lines) →
  ∃ stat, statSync E (jsonlFile a) = Some stat
    ∧ fileOffset a < fs.size stat
    ∧ a' = set_lineBuffer (splitLines (lineBuffer a)
             (readSync (default [] (fileBytes E (jsonlFile a))) (fileOffset a)
                       (fs.size stat - fileOffset a))).2
             (set_fileOffset (fs.size stat) a)
    ∧ lines = (splitLines (lineBuffer a)
             (readSync (default [] (fileBytes E (jsonlFile a))) (fileOffset a)
                       (fs.size stat - fileOffset a))).1.
Proof.
  unfold pump. destruct (statSync E (jsonlFile a)) as [stat|]; [|done].
  destruct (Z.leb_spec (fs.size stat) (fileOffset a)); [done|].
  destruct (fileBytes E (jsonlFile a)) as [content|]; [|done]. simpl.
  intros [= <- <-]. exists stat. by split_and!.
Qed.

Lemma readNewLines_spec E j w a :
  agents w !! j = Some a → Inv w →
  match pump E a with
  | None => readNewLines E j w = w
  | Some (a', lines) =>
      Inv (readNewLines E j w)
      ∧ interp j (set_agents (<[j := a']> (agents w)) w) (readNewLines E j w)
  end.
Proof.
  intros Ha HI. unfold readNewLines. rewrite Ha.
  destruct (pump E a) as [[a' lines]|] eqn:Hp; [|done].
  apply deliver_interp.
  apply pump_Some in Hp as (stat & _ & _ & -> & _).
  apply Inv_agents; [| |done].
  - intros i b [[<- <-]|[_ Hb]]%lookup_insert_Some.
    + exists a. split_and!; [done|done|]. simpl. by eapply inv_tools.
    + exists b. split_and!; [done|done|]. by eapply inv_tools.
  - intros i Hi. by apply insert_is_Some_mono.
Qed.

Lemma sound_readNewLines E j : sound (readNewLines E j).
Proof.
  intros w HI. destruct (agents w !! j) as [a|] eqn:Ha.
  - pose proof (readNewLines_spec E j w a Ha HI) as H.
    destruct (pump E a) as [[a' lines]|] eqn:Hp.
    + destruct H as [HI' Hint]. split; [done|].
      apply pump_Some in Hp as (stat & _ & Hlt & -> & _).
      eapply evolves_trans; [|eapply interp_evolves; [|done]].
      * split_and!; simpl; [lia| |exists []; by rewrite app_nil_r].
        intros i b [[<- <-]|[_ Hb]]%lookup_insert_Some _.
        -- exists a. simpl. split_and!; [done|done|lia].
        -- exists b. split_and!; [done|done|lia].
      * simpl. rewrite lookup_insert_eq. by eexists.
    + rewrite H. split; [done | apply evolves_refl].
  - unfold readNewLines. rewrite Ha. split; [done | apply evolves_refl].
Qed.

(** ** Creation and removal *)

Lemma createAgentFromFile_register E terminal filePath projectDir w :
  createAgentFromFile E terminal filePath projectDir w
  = readNewLines E (nextAgentId w) (registerAgent E terminal filePath projectDir w).
Proof. done. Qed.

Lemma Inv_startFileWatching E j filePath w :
  is_Some (agents w !! j) →
  (∀ h t, timers w !! h = Some t → callback t ≠ PollTick j) →
  (∀ h, watchers w !! h ≠ Some j) →
  Inv w → Inv (startFileWatching E j filePath w).
Proof.
  intros Hj Hpoll Hwatch []. unfold startFileWatching, setInterval, setTimer.
  destruct (watchable E filePath); constructor; simpl; try done.
  - intros h t i [[<- <-]|[_ Ht]]%lookup_insert_Some Hcb; [done|]. eauto.
  - intros h t i [[<- <-]|[_ Ht]]%lookup_insert_Some Hcb.
    + injection Hcb as <-. by rewrite lookup_insert_eq.
    + destruct (inv_poll0 h t i Ht Hcb). split; [|done].
      rewrite lookup_insert_ne; [done|]. intros <-. by eapply Hpoll.
  - intros h i [[<- <-]|[_ Hh]]%lookup_insert_Some.
    + by rewrite lookup_insert_eq.
    + destruct (inv_watch0 h i Hh). split; [|done].
      rewrite lookup_insert_ne; [done|]. intros <-. by eapply Hwatch.
  - intros h t i [[<- <-]|[_ Ht]]%lookup_insert_Some Hcb; [done|]. eauto.
  - intros h t i [[<- <-]|[_ Ht]]%lookup_insert_Some Hcb.
    + injection Hcb as <-. by rewrite lookup_insert_eq.
    + destruct (inv_poll0 h t i Ht Hcb). split; [|done].
      rewrite lookup_insert_ne; [done|]. intros <-. by eapply Hpoll.
Qed.

Lemma Inv_registerAgent E terminal filePath projectDir w :
  filePath ∉ claimedFiles w → Inv w →
  Inv (registerAgent E terminal filePath projectDir w).
Proof.
  intros Hfree HI. unfold registerAgent.
  assert (∀ i, is_Some (agents w !! i) → i ≠ nextAgentId w) as Hfresh.
  { intros i [a Ha] ->. apply (inv_ids _ HI) in Ha. lia. }
  apply Inv_startFileWatching.
  - unfold post. destruct (webviewView _); simpl; by rewrite lookup_insert_eq.
  - unfold post. intros h t Ht Hcb.
    assert (timers w !! h = Some t) as Ht' by (by destruct (webviewView _)).
    destruct (inv_poll _ HI h t _ Ht' Hcb) as [_ Hal]. by apply Hfresh in Hal.
  - unfold post. intros h Hh.
    assert (watchers w !! h = Some (nextAgentId w)) as Hh' by (by destruct (webviewView _)).
    destruct (inv_watch _ HI h _ Hh') as [_ Hal]. by apply Hfresh in Hal.
  - apply Inv_post. destruct HI. constructor; simpl; try done.
    + intros i a [[<- <-]|[_ Ha]]%lookup_insert_Some; [lia|].
      apply inv_ids0 in Ha. lia.
    + intros i a [[<- <-]|[_ Ha]]%lookup_insert_Some; apply elem_of_union;
        [left; by apply elem_of_singleton | right; eauto].
    + intros i k a b [[<- <-]|[_ Ha]]%lookup_insert_Some
                     [[<- <-]|[_ Hb]]%lookup_insert_Some Hf; simpl in *; try done.
      * apply inv_claimed0 in Hb. congruence.
      * apply inv_claimed0 in Ha. congruence.
      * eauto.
    + intros i a [[<- <-]|[_ Ha]]%lookup_insert_Some; [done|]. eauto.
    + intros h t i Ht Hcb. destruct (inv_wait0 h t i Ht Hcb) as (? & ? & ?).
      split_and!; [done| |done]. by apply insert_is_Some_mono.
    + intros h t i Ht Hcb. destruct (inv_poll0 h t i Ht Hcb). split; [done|].
      by apply insert_is_Some_mono.
    + intros h i Hh. destruct (inv_watch0 h i Hh). split; [done|].
      by apply insert_is_Some_mono.
Qed.

Lemma evolves_startFileWatching E j filePath w :
  evolves w (startFileWatching E j filePath w).
Proof.
  apply evolves_same; unfold startFileWatching, setInterval, setTimer;
    by destruct (watchable E filePath).
Qed.

Lemma evolves_registerAgent E terminal filePath projectDir w :
  Inv w → evolves w (registerAgent E terminal filePath projectDir w).
Proof.
  intros HI. unfold registerAgent.
  eapply evolves_trans; [|apply evolves_startFileWatching].
  match goal with |- evolves _ (post _ ?w1) => apply (evolves_trans _ w1) end.
  - split_and!; simpl; [lia| |exists []; by rewrite app_nil_r].
    intros i a' [[<- <-]|[? Ha]]%lookup_insert_Some ?; [lia|].
    exists a'. split_and!; [done|done|lia].
  - apply evolves_post. intros i [_ Hi] Hab. simpl in *. subst i.
    by rewrite lookup_insert_eq in Hi.
Qed.

Lemma sound_createAgentFromFile E terminal filePath projectDir w :
  filePath ∉ claimedFiles w → Inv w →
  Inv (createAgentFromFile E terminal filePath projectDir w)
  ∧ evolves w (createAgentFromFile E terminal filePath projectDir w).
Proof.
  intros Hfree HI. rewrite createAgentFromFile_register.
  pose proof (Inv_registerAgent E terminal filePath projectDir w Hfree HI) as HI1.
  destruct (sound_readNewLines E (nextAgentId w) _ HI1) as [HI2 He2].
  split; [done|]. eapply evolves_trans; [by apply evolves_registerAgent | done].
Qed.

(** What [removeAgent] leaves of a registered agent: nothing. *)
Lemma removeAgent_spec j w a :
  agents w !! j = Some a →
  let w' := removeAgent j w in
  agents w' = delete j (agents w)
  ∧ claimedFiles w' = claimedFiles w ∖ {[jsonlFile a]}
  ∧ fileWatchers w' = delete j (fileWatchers w)
  ∧ pollingTimers w' = delete j (pollingTimers w)
  ∧ waitingTimers w' = delete j (waitingTimers w)
  ∧ (∀ h t, timers w' !! h = Some t ↔
       timers w !! h = Some t
       ∧ pollingTimers w !! j ≠ Some h ∧ waitingTimers w !! j ≠ Some h)
  ∧ (∀ h i, watchers w' !! h = Some i ↔
       watchers w !! h = Some i ∧ fileWatchers w !! j ≠ Some h)
  ∧ nextAgentId w' = nextAgentId w
  ∧ posted w' = posted w.
Proof.
  intros Ha. unfold removeAgent, cancelWaitingTimer, clearTimer. rewrite Ha.
  destruct (fileWatchers w !! j) as [fw|] eqn:Hfw,
           (pollingTimers w !! j) as [pt|] eqn:Hpt,
           (waitingTimers w !! j) as [wt|] eqn:Hwt;
    repeat (simpl; rewrite ?Hfw, ?Hpt, ?Hwt);
    (split_and!;
     first [ done
           | by rewrite delete_id by done
           | intros h t; rewrite ?lookup_delete_Some; intuition congruence ]).
Qed.

Lemma sound_removeAgent j : sound (removeAgent j).
Proof.
  intros w HI. destruct (agents w !! j) as [a|] eqn:Ha;
    [|unfold removeAgent; rewrite Ha; split; [done | apply evolves_refl]].
  destruct (removeAgent_spec j w a Ha) as (H1 & H2 & H3 & H4 & H5 & H6 & H7 & H8 & H9).
  destruct HI. split.
  - constructor; rewrite ?H1, ?H2, ?H3, ?H4, ?H5, ?H8.
    + intros i b [_ Hb]%lookup_delete_Some. eauto.
    + intros i b [Hne Hb]%lookup_delete_Some.
      apply elem_of_difference. split; [eauto|].
      intros Heq%elem_of_singleton. apply Hne. symmetry. eauto.
    + intros i k b c [_ Hb]%lookup_delete_Some [_ Hc]%lookup_delete_Some. eauto.
    + intros i b [_ Hb]%lookup_delete_Some. eauto.
    + intros h t i [Ht [_ Hw]]%H6 Hcb.
      destruct (inv_wait0 h t i Ht Hcb) as (Hi & ? & ?).
      assert (j ≠ i) by congruence.
      rewrite lookup_delete_ne, lookup_delete_is_Some by done. auto.
    + intros h t i [Ht [Hp _]]%H6 Hcb.
      destruct (inv_poll0 h t i Ht Hcb) as [Hi ?].
      assert (j ≠ i) by congruence.
      rewrite lookup_delete_ne, lookup_delete_is_Some by done. auto.
    + intros h i [Hh Hf]%H7.
      destruct (inv_watch0 h i Hh) as [Hi ?].
      assert (j ≠ i) by congruence.
      rewrite lookup_delete_ne, lookup_delete_is_Some by done. auto.
  - split_and!; rewrite ?H1, ?H8, ?H9; [lia| |exists []; by rewrite app_nil_r].
    intros i b [_ Hb]%lookup_delete_Some _. exists b. split_and!; [done|done|lia].
Qed.

(** ** The scanner and the session hosts *)

Lemma sound_claim E terminal projectDir file (guard : World → bool) :
  (∀ w, guard w = true → file ∉ claimedFiles w) →
  sound (λ w, if guard w then createAgentFromFile E terminal file projectDir w else w).
Proof.
  intros Hguard w HI. destruct (guard w) eqn:Hg.
  - apply sound_createAgentFromFile; [by apply Hguard | done].
  - split; [done | apply evolves_refl].
Qed.

Lemma sound_scanForNewFiles E terminal sessionId : sound (scanForNewFiles E terminal sessionId).
Proof.
  unfold scanForNewFiles. intros w HI.
  destruct (nonEmpty (terminalProjectDirs w !! terminal)) as [projectDir|];
    [|split; [done | apply evolves_refl]].
  revert w HI.
  apply (sound_compose
    (λ w, match nonEmpty sessionId with
          | Some sessionId =>
              if existsSync E (path_join [projectDir; sessionId ++ lit ".jsonl"])
                 && negb (bool_decide (path_join [projectDir; sessionId ++ lit ".jsonl"]
                                         ∈ claimedFiles w))
              then createAgentFromFile E terminal
                     (path_join [projectDir; sessionId ++ lit ".jsonl"]) projectDir w
              else w
          | None => w
          end)
    (λ w, match readdirSync E projectDir with
          | Some names => foldl _ w _
          | None => w
          end)).
  - destruct (nonEmpty sessionId) as [sid|]; [|apply sound_id].
    apply sound_claim. intros w [_ Hc%negb_true_iff]%andb_true_iff.
    by apply bool_decide_eq_false in Hc.
  - destruct (readdirSync E projectDir) as [names|]; [|apply sound_id].
    apply sound_foldl. intros file.
    apply sound_claim. intros w [Hc%negb_true_iff _]%andb_true_iff.
    by apply bool_decide_eq_false in Hc.
Qed.

Lemma sound_same (f : World → World) :
  (∀ w, nextAgentId (f w) = nextAgentId w) → (∀ w, agents (f w) = agents w) →
  (∀ w, claimedFiles (f w) = claimedFiles w) → (∀ w, timers (f w) = timers w) →
  (∀ w, waitingTimers (f w) = waitingTimers w) →
  (∀ w, pollingTimers (f w) = pollingTimers w) →
  (∀ w, watchers (f w) = watchers w) → (∀ w, fileWatchers (f w) = fileWatchers w) →
  (∀ w, posted (f w) = posted w) →
  sound f.
Proof.
  intros H1 H2 H3 H4 H5 H6 H7 H8 H9 w HI. split.
  - by apply (Inv_same w).
  - by apply evolves_same.
Qed.

Lemma sound_clearTimer h : sound (clearTimer h).
Proof. intros w HI. split; [by apply Inv_clearTimer | by apply evolves_same]. Qed.

Lemma sound_setTimer_untracked (t : World → Timer) :
  (∀ w, untracked (callback (t w))) → sound (λ w, setTimer (t w) w).
Proof.
  intros Ht w HI. split; [by apply Inv_setTimer_untracked | by apply evolves_same].
Qed.

Lemma sound_startTerminalFileScan E terminal sessionId cwd :
  sound (startTerminalFileScan E terminal sessionId cwd).
Proof.
  unfold startTerminalFileScan.
  destruct (nonEmpty (getProjectDirPath E cwd)) as [projectDir|]; [|apply sound_id].
  intros w HI. split; [|by apply evolves_same].
  eapply (Inv_same (setInterval (ScanTick terminal sessionId) 1000 w)); try done.
  by apply Inv_setTimer_untracked.
Qed.

Lemma sound_cleanupTerminalScan terminal : sound (cleanupTerminalScan terminal).
Proof.
  unfold cleanupTerminalScan. intros w HI.
  destruct (terminalScanTimers w !! terminal) as [timer|].
  - split; [|by apply evolves_same].
    eapply (Inv_same (clearTimer timer w)); try done. by apply Inv_clearTimer.
  - split; [by eapply (Inv_same w) | by apply evolves_same].
Qed.

Lemma sound_noteTerminalIndex idx : sound (noteTerminalIndex idx).
Proof.
  apply sound_same; intros w; unfold noteTerminalIndex; by destruct (_ <=? _).
Qed.

Lemma sound_adoptExistingTerminals E terminals : sound (adoptExistingTerminals E terminals).
Proof.
  apply sound_foldl. intros t. destruct (matchTerminalName t.2); [|apply sound_id].
  apply (sound_compose (noteTerminalIndex _) (startTerminalFileScan _ _ _ _)).
  - apply sound_noteTerminalIndex.
  - apply sound_startTerminalFileScan.
Qed.

Lemma sound_launchNewTerminal E terminal sessionId :
  sound (launchNewTerminal E terminal sessionId).
Proof.
  apply (sound_compose (λ w, set_nextTerminalIndex (nextTerminalIndex w + 1) w)
                       (startTerminalFileScan _ _ _ _)).
  - by apply sound_same.
  - apply sound_startTerminalFileScan.
Qed.

Lemma sound_onDidOpenTerminal E terminal name : sound (onDidOpenTerminal E terminal name).
Proof.
  unfold onDidOpenTerminal. destruct (matchTerminalName name); [|apply sound_id].
  intros w HI. destruct (negb (isTracked terminal w)); [|by apply sound_id].
  revert w HI.
  apply (sound_compose (noteTerminalIndex _) (startTerminalFileScan _ _ _ _)).
  - apply sound_noteTerminalIndex.
  - apply sound_startTerminalFileScan.
Qed.

Lemma elem_of_agentIds i w : i ∈ agentIds w ↔ is_Some (agents w !! i).
Proof.
  unfold agentIds. rewrite merge_sort_Permutation, list_elem_of_fmap. split.
  - intros ([k a] & -> & Hka%elem_of_map_to_list). by eexists.
  - intros [a Ha]. exists (i, a). split; [done | by apply elem_of_map_to_list].
Qed.

Lemma sound_onDidCloseTerminal closed : sound (onDidCloseTerminal closed).
Proof.
  unfold onDidCloseTerminal.
  apply (sound_compose (λ w, foldl _ w (agentIds w)) (cleanupTerminalScan closed));
    [|apply sound_cleanupTerminalScan].
  intros w. generalize (agentIds w). intros ids. revert w.
  apply sound_foldl. intros i w HI.
  destruct (agents w !! i) as [a|] eqn:Ha; [|by apply sound_id].
  case_bool_decide; [|by apply sound_id].
  destruct (sound_removeAgent i w HI) as [HI1 He1]. split; [by apply Inv_emit|].
  destruct He1 as (Hn & Hag & ms & Hms & Hlate). split_and!; simpl; [done|done|].
  exists (ms ++ [agentClosed i]). split; [by rewrite Hms, app_assoc|].
  intros k Hk. apply Forall_app. split; [by apply Hlate|].
  apply Forall_singleton. intros Hab. simpl in Hab. subst k.
  destruct Hk as [_ Hk]. congruence.
Qed.

(** Messages about a registered agent. *)
Lemma emits_alive i ms w :
  is_Some (agents w !! i) → Forall (λ m, ∀ k, about m k → k = i) ms → Inv w →
  Inv (foldl (λ w m, emit m w) w ms) ∧ evolves w (foldl (λ w m, emit m w) w ms).
Proof.
  revert w. induction ms as [|m ms IH]; intros w Hi Hms HI; simpl.
  - split; [done | apply evolves_refl].
  - apply Forall_cons in Hms as [Hm Hms].
    destruct (IH (emit m w)) as [HI1 He1]; [done|done|by apply Inv_emit|].
    split; [done|]. eapply evolves_trans; [|done].
    apply evolves_emit. by eapply lateOnly_alive.
Qed.

Lemma sound_sendCurrentAgentStatuses : sound sendCurrentAgentStatuses.
Proof.
  unfold sendCurrentAgentStatuses. intros w HI.
  destruct (webviewView w); [|by apply sound_id].
  revert HI. generalize (agentIds w). intros ids. revert w.
  apply sound_foldl. intros i w HI.
  destruct (agents w !! i) as [a|] eqn:Ha; [|by apply sound_id].
  pose proof (emits_alive i
    (((λ p, agentToolStart i p.1 p.2) <$> activeToolStatuses a)
       ++ (if isWaiting a then [agentStatus i waiting] else [])) w) as H.
  rewrite foldl_app, foldl_fmap in H.
  destruct (isWaiting a); simpl in H; apply H; try done; try (by eexists);
    (apply Forall_app; split; [apply Forall_fmap, Forall_true; by intros p k <-|]);
    [apply Forall_singleton; by intros k <- | done].
Qed.

Lemma sound_sendExistingAgents : sound sendExistingAgents.
Proof.
  unfold sendExistingAgents. intros w HI.
  destruct (webviewView w); [|by apply sound_id].
  revert w HI.
  apply (sound_compose (λ w, emit (existingAgents (agentIds w)) w) sendCurrentAgentStatuses);
    [|apply sound_sendCurrentAgentStatuses].
  intros w HI. split; [by apply Inv_emit|].
  apply evolves_emit. intros i [_ Hi] Hab. simpl in Hab.
  apply elem_of_agentIds in Hab as [a Ha]. congruence.
Qed.

Lemma sound_dispose : sound dispose.
Proof.
  unfold dispose.
  apply (sound_compose (λ w, foldl _ w (agentIds w))
           (λ w, foldl _ w (map_to_list (terminalScanTimers w)).*1)).
  - intros w. generalize (agentIds w). intros ids. revert w.
    apply sound_foldl. intros i. apply sound_removeAgent.
  - intros w. generalize ((map_to_list (terminalScanTimers w)).*1). intros ts. revert w.
    apply sound_foldl. intros t. apply sound_cleanupTerminalScan.
Qed.

(** ** Timers and events *)

Lemma sound_pollTick E h j : sound (pollTick E h j).
Proof.
  intros w HI. unfold pollTick. destruct (agents w !! j).
  - by apply sound_readNewLines.
  - by apply sound_clearTimer.
Qed.

Lemma sound_waitingTimerFired h t j w :
  timers w !! h = Some t → callback t = WaitingFire j → Inv w →
  Inv (waitingTimerFired j (clearTimer h w))
  ∧ evolves w (waitingTimerFired j (clearTimer h w)).
Proof.
  intros Ht Hcb HI. destruct (inv_wait _ HI h t j Ht Hcb) as (Hw & Hj & _).
  assert (Inv (set_waitingTimers (delete j (waitingTimers w)) (clearTimer h w))) as HI1.
  { pose proof (Inv_clearTimer h w HI) as []. constructor; simpl in *; try done.
    intros h' t' i Ht' Hcb'. destruct (inv_wait0 h' t' i Ht' Hcb') as (Hi & ? & ?).
    split_and!; [|done..]. rewrite lookup_delete_ne; [done|].
    intros ->. apply lookup_delete_Some in Ht' as [Hne _]. congruence. }
  unfold waitingTimerFired.
  destruct (interprets_compose j _ _ (interprets_set_isWaiting j true)
              (interprets_post j (agentStatus j waiting) ltac:(by intros ? <-))
              (set_waitingTimers (delete j (waitingTimers w)) (clearTimer h w))
              Hj HI1) as [HI2 Hint].
  split; [done|]. eapply evolves_trans; [|by eapply interp_evolves].
  by apply evolves_same.
Qed.

Lemma sound_toolDoneFired j toolId : sound (toolDoneFired j toolId).
Proof.
  intros w HI. split; [by apply Inv_post|].
  apply evolves_post. intros i _ Hab. simpl in Hab. subst i. by eexists.
Qed.

Lemma sound_fireTimer E h : sound (fireTimer E h).
Proof.
  intros w HI. unfold fireTimer.
  destruct (timers w !! h) as [t|] eqn:Ht; [|by apply sound_id].
  destruct (clock w <? due t); [by apply sound_id|].
  remember (match period t with
            | None => clearTimer h w
            | Some p => set_timers (<[h := {| due := clock w + p; period := period t;
                                             callback := callback t |}]> (timers w)) w
            end) as w1 eqn:Hw1.
  assert (Inv w1 ∧ evolves w w1) as [HI1 He1].
  { subst w1. destruct (period t) eqn:Hper; [|by apply sound_clearTimer].
    split; [|by apply evolves_same]. apply Inv_timers; [|done].
    intros h' t' [[<- <-]|[_ Ht']]%lookup_insert_Some; right; [by exists t | by exists t']. }
  destruct (callback t) as [terminal sessionId|j|j|j toolId] eqn:Hcb; simpl runCallback.
  - destruct (sound_scanForNewFiles E terminal sessionId _ HI1).
    split; [done | by eapply evolves_trans].
  - destruct (sound_pollTick E h j _ HI1).
    split; [done | by eapply evolves_trans].
  - destruct (inv_wait _ HI h t j Ht Hcb) as (_ & _ & Hper). rewrite Hper in Hw1.
    subst w1. by eapply sound_waitingTimerFired.
  - destruct (sound_toolDoneFired j toolId _ HI1).
    split; [done | by eapply evolves_trans].
Qed.

Lemma sound_step ev : sound (λ w, step w ev).
Proof.
  destruct ev; simpl.
  - apply (sound_compose (set_webviewView true) (adoptExistingTerminals _ _)).
    + by apply sound_same.
    + apply sound_adoptExistingTerminals.
  - apply sound_launchNewTerminal.
  - apply sound_sendExistingAgents.
  - apply sound_onDidOpenTerminal.
  - apply sound_onDidCloseTerminal.
  - apply sound_fireTimer.
  - intros w HI. destruct (watchers w !! watcher); [by apply sound_readNewLines | by apply sound_id].
  - by apply sound_same.
  - apply sound_dispose.
Qed.

Lemma Inv_init : Inv init.
Proof. constructor; simpl; intros; by simplify_map_eq. Qed.

Lemma sound_run trace : sound (run trace).
Proof. apply sound_foldl. intros ev. apply sound_step. Qed.

Lemma Inv_run trace : Inv (run trace init).
Proof. apply sound_run, Inv_init. Qed.

Lemma run_app tr1 tr2 w : run (tr1 ++ tr2) w = run tr2 (run tr1 w).
Proof. apply foldl_app. Qed.

(** ** Exact effects of the interpreter *)

Lemma isStr_true v k : isStr v k = true → v = Some (JStr (lit k)).
Proof.
  destruct v as [[]|]; simpl; try done. by intros ->%bool_decide_eq_true.
Qed.

Lemma no_waiting_timer j w :
  Inv w → waitingTimers w !! j = None →
  ∀ h t, timers w !! h = Some t → callback t ≠ WaitingFire j.
Proof.
  intros HI Hnone h t Ht Hcb.
  destruct (inv_wait _ HI h t j Ht Hcb) as [? _]. congruence.
Qed.

Lemma cancelWaitingTimer_spec j w :
  agents (cancelWaitingTimer j w) = agents w
  ∧ posted (cancelWaitingTimer j w) = posted w
  ∧ webviewView (cancelWaitingTimer j w) = webviewView w
  ∧ clock (cancelWaitingTimer j w) = clock w
  ∧ nextHandle (cancelWaitingTimer j w) = nextHandle w
  ∧ waitingTimers (cancelWaitingTimer j w) !! j = None
  ∧ (∀ h t, timers (cancelWaitingTimer j w) !! h = Some t → timers w !! h = Some t).
Proof.
  unfold cancelWaitingTimer. destruct (waitingTimers w !! j) eqn:Hw; simpl.
  - split_and!; try done; [apply lookup_delete_eq|].
    by intros h t [_ ?]%lookup_delete_Some.
  - by split_and!.
Qed.

Lemma turnCompleted_spec j a w :
  Inv w → agents w !! j = Some a → webviewView w = true →
  posted (turnCompleted j w) = posted w ++ [agentStatus j waiting]
  ∧ agents (turnCompleted j w) = <[j := set_isWaiting true a]> (agents w)
  ∧ waitingTimers (turnCompleted j w) !! j = None
  ∧ (∀ h t, timers (turnCompleted j w) !! h = Some t → callback t ≠ WaitingFire j)
  ∧ (∀ h t, timers (turnCompleted j w) !! h = Some t → timers w !! h = Some t).
Proof.
  intros HI Ha Hweb.
  destruct (cancelWaitingTimer_spec j w) as (H1 & H2 & H3 & _ & _ & H6 & H7).
  pose proof (Inv_cancelWaitingTimer j w HI) as HI1.
  pose proof (no_waiting_timer j _ HI1 H6) as Hno.
  unfold turnCompleted, post. simpl. rewrite H3, Hweb. simpl.
  rewrite H1, H2. split_and!; try done.
  by apply alter_alt_Some.
Qed.

Lemma processRecord_turn j record w :
  isStr (field "type" record) "system" = true →
  isStr (field "subtype" record) "turn_duration" = true →
  processRecord j record w = turnCompleted j w.
Proof.
  intros Ht Hs. unfold processRecord.
  destruct record; try done. rewrite Hs.
  apply isStr_true in Ht. rewrite Ht. done.
Qed.



(** A record whose blocks are all text blocks, and not none. *)
Lemma textOnly_someType blocks :
  blocks ≠ [] → Forall (λ b, isStr (field "type" b) "text" = true) blocks →
  someType "tool_use" blocks = Some false ∧ someType "text" blocks = Some true.
Proof.
  intros Hne Hall. split.
  - clear Hne. induction Hall as [|b blocks Hb _ IH]; [done|].
    simpl. apply isStr_true in Hb. rewrite Hb. by destruct b.
  - destruct Hall as [|b blocks Hb _]; [done|].
    simpl. rewrite Hb. by destruct b.
Qed.


Lemma toolStarts_refl j w : toolStarts j w w.
Proof. split_and!; try done. exists []. by rewrite app_nil_r. Qed.

Lemma toolStarts_trans j w1 w2 w3 :
  toolStarts j w1 w2 → toolStarts j w2 w3 → toolStarts j w1 w3.
Proof.
  intros (A1 & A2 & A3 & ms1 & A4 & A5) (B1 & B2 & B3 & ms2 & B4 & B5).
  split_and!; [congruence|congruence| |].
  - intros i. by rewrite (B3 i).
  - exists (ms1 ++ ms2). split; [by rewrite B4, A4, app_assoc | by apply Forall_app].
Qed.

Lemma toolUseBlock_toolStarts j block w w' :
  toolUseBlock j block w = Some w' → toolStarts j w w'.
Proof.
  unfold toolUseBlock. destruct (_ && _); [|intros [= <-]; apply toolStarts_refl].
  destruct (formatToolStatus _ _) as [status|]; [|done].
  destruct (toStr _); [|done]. intros [= <-].
  unfold post, updAgent. simpl.
  assert (∀ i, isWaiting <$>
      alter (λ a, set_activeToolStatuses
                    (Map_set (default JNull (field "id" block)) status (activeToolStatuses a)) a) j
        (alter (λ a, set_activeToolIds
                    (Set_add (default JNull (field "id" block)) (activeToolIds a)) a) j
           (agents w)) !! i = isWaiting <$> agents w !! i) as Hw.
  { intros i. rewrite alter_alter_eq, lookup_alter. case_decide; [subst|done].
    by destruct (agents w !! i). }
  destruct (webviewView w); (split_and!; [done|done|done|]).
  - eexists [_]. split; [done|]. apply Forall_singleton. by do 2 eexists.
  - exists []. by rewrite app_nil_r.
Qed.

Lemma toolUseLoop_toolStarts j blocks w : toolStarts j w (toolUseLoop j blocks w).
Proof.
  revert w. induction blocks as [|block blocks IH]; intros w; [apply toolStarts_refl|].
  simpl. destruct (toolUseBlock j block w) as [w'|] eqn:Hb.
  - pose proof (toolUseBlock_toolStarts _ _ _ _ Hb) as H1.
    destruct block; try apply toolStarts_refl; by eapply toolStarts_trans.
  - destruct block; apply toolStarts_refl.
Qed.

Lemma processRecord_toolUse j record blocks w :
  isStr (field "type" record) "assistant" = true →
  optField "content" (field "message" record) = Some (JArr blocks) →
  someType "tool_use" blocks = Some true →
  processRecord j record w
  = toolUseLoop j blocks
      (post (agentStatus j active)
         (updAgent j (set_isWaiting false) (cancelWaitingTimer j w))).
Proof.
  intros Ht Hc Hu. unfold processRecord.
  destruct record; try done; rewrite Ht, Hc; simpl; by rewrite Hu.
Qed.

Lemma toolResults_refl w : toolResults w w.
Proof. by split_and!. Qed.

Lemma toolResults_trans w1 w2 w3 : toolResults w1 w2 → toolResults w2 w3 → toolResults w1 w3.
Proof.
  intros (A1 & A2 & A3 & A4 & A5 & A6) (B1 & B2 & B3 & B4 & B5 & B6).
  split_and!; try congruence; [lia|].
  intros h Hh. rewrite B6 by lia. by apply A6.
Qed.

Lemma updAgent_same j f a w :
  agents w !! j = Some a → f a = a → agents (updAgent j f w) = agents w.
Proof.
  intros Ha Hf. unfold updAgent. simpl.
  rewrite (alter_alt_Some _ _ _ _ Ha), Hf. by apply insert_id.
Qed.

Lemma toolResultBlock_toolResults j block w w' :
  toolResultBlock j block w = Some w' → toolResults w w'.
Proof.
  unfold toolResultBlock.
  destruct (_ && _); [|intros [= <-]; apply toolResults_refl].
  destruct (toStr _); [|done]. intros [= <-].
  split_and!; simpl; try done; [lia|].
  intros h Hh. apply lookup_insert_ne. lia.
Qed.

Lemma toolResultLoop_toolResults j blocks w : toolResults w (toolResultLoop j blocks w).
Proof.
  revert w. induction blocks as [|block blocks IH]; intros w; [apply toolResults_refl|].
  simpl. destruct (toolResultBlock j block w) as [w'|] eqn:Hb.
  - pose proof (toolResultBlock_toolResults _ _ _ _ Hb).
    destruct block; try apply toolResults_refl; by eapply toolResults_trans.
  - destruct block; apply toolResults_refl.
Qed.

(** A tool result for an id that is not open leaves the agents as they are. *)
Lemma toolResultBlock_absent j a block w w' :
  toolResultBlock j block w = Some w' →
  agents w !! j = Some a →
  activeToolIds a = (activeToolStatuses a).*1 →
  (∀ k, field "tool_use_id" block = Some k → Set_has k (activeToolIds a) = false) →
  agents w' = agents w.
Proof.
  unfold toolResultBlock. intros Hw' Ha Hl Habs.
  destruct (_ && _) eqn:Hcond; [|by injection Hw' as <-].
  destruct (toStr _); [|done]. injection Hw' as <-. simpl.
  apply andb_true_iff in Hcond as [_ Htr].
  destruct (field "tool_use_id" block) as [k|] eqn:Hk; [|done]. simpl.
  specialize (Habs k eq_refl).
  rewrite alter_alter_eq, (alter_alt_Some _ _ _ a) by done. simpl.
  rewrite Set_delete_absent by done.
  rewrite Map_delete_absent by (by rewrite <- Set_has_keys, <- Hl).
  apply insert_id. rewrite Ha. f_equal. by destruct a.
Qed.

Lemma toolResultLoop_absent j a blocks w :
  agents w !! j = Some a →
  activeToolIds a = (activeToolStatuses a).*1 →
  (∀ b k, b ∈ blocks → field "tool_use_id" b = Some k →
     Set_has k (activeToolIds a) = false) →
  agents (toolResultLoop j blocks w) = agents w.
Proof.
  revert w. induction blocks as [|block blocks IH]; intros w Ha Hl Habs; [done|].
  simpl. destruct (toolResultBlock j block w) as [w'|] eqn:Hb.
  - assert (agents w' = agents w) as Hsame.
    { eapply toolResultBlock_absent; [done..|]. intros k. apply Habs. by left. }
    destruct block; try done;
      (rewrite IH; [done | by rewrite Hsame | done |];
       intros b' k' Hin; apply Habs; by right).
  - by destruct block.
Qed.

Lemma processRecord_toolResult j record blocks w :
  isStr (field "type" record) "user" = true →
  optField "content" (field "message" record) = Some (JArr blocks) →
  someType "tool_result" blocks = Some true →
  processRecord j record w = toolResultLoop j blocks w.
Proof.
  intros Ht Hc Hu. unfold processRecord.
  destruct record; try done. rewrite Hc, Hu.
  apply isStr_true in Ht. by rewrite Ht.
Qed.

(** ** Exact effects of creation and of a scan *)

(** What a pump leaves of the agent it serves, and of the others. *)
Lemma readNewLines_frame E j w :
  Inv w →
  nextAgentId (readNewLines E j w) = nextAgentId w
  ∧ claimedFiles (readNewLines E j w) = claimedFiles w
  ∧ webviewView (readNewLines E j w) = webviewView w
  ∧ (∀ i, i ≠ j → agents (readNewLines E j w) !! i = agents w !! i)
  ∧ (∀ a, agents w !! j = Some a →
       reader <$> agents (readNewLines E j w) !! j
       = Some (reader (default a (fst <$> pump E a)))).
Proof.
  intros HI. destruct (agents w !! j) as [a|] eqn:Ha.
  - pose proof (readNewLines_spec E j w a Ha HI) as H.
    destruct (pump E a) as [[a' lines]|] eqn:Hp.
    + destruct H as (_ & H1 & H2 & H3 & _ & H5 & H6 & _). simpl in *.
      split_and!; try done.
      * intros i Hi. rewrite H6 by done. by rewrite lookup_insert_ne.
      * intros ? [= <-]. rewrite Hp. simpl. by rewrite (H5 j), lookup_insert_eq.
    + rewrite H. split_and!; try done. intros ? [= <-]. by rewrite Ha, Hp.
  - unfold readNewLines. rewrite Ha. split_and!; done.
Qed.

Lemma pump_static E a :
  jsonlFile (default a (fst <$> pump E a)) = jsonlFile a
  ∧ terminalRef (default a (fst <$> pump E a)) = terminalRef a.
Proof.
  destruct (pump E a) as [[a' lines]|] eqn:Hp; [|done].
  by apply pump_Some in Hp as (stat & _ & _ & -> & _).
Qed.

Lemma createAgentFromFile_spec E terminal filePath projectDir w :
  Inv w → filePath ∉ claimedFiles w →
  let w' := createAgentFromFile E terminal filePath projectDir w in
  nextAgentId w' = nextAgentId w + 1
  ∧ claimedFiles w' = {[filePath]} ∪ claimedFiles w
  ∧ (∃ a, agents w' !! nextAgentId w = Some a
          ∧ jsonlFile a = filePath ∧ terminalRef a = terminal)
  ∧ (∀ i, i ≠ nextAgentId w → agents w' !! i = agents w !! i).
Proof.
  intros HI Hfree w'. subst w'. rewrite createAgentFromFile_register.
  pose proof (Inv_registerAgent E terminal filePath projectDir w Hfree HI) as HI1.
  destruct (readNewLines_frame E (nextAgentId w) _ HI1) as (F1 & F2 & _ & F4 & F5).
  assert (nextAgentId (registerAgent E terminal filePath projectDir w) = nextAgentId w + 1
          ∧ claimedFiles (registerAgent E terminal filePath projectDir w)
            = {[filePath]} ∪ claimedFiles w
          ∧ agents (registerAgent E terminal filePath projectDir w)
            = <[nextAgentId w := newAgent (nextAgentId w) terminal filePath projectDir]>
                (agents w)) as (R1 & R2 & R3).
  { unfold registerAgent, startFileWatching, setInterval, setTimer, post. simpl.
    by destruct (webviewView w), (watchable E filePath). }
  rewrite F1, F2, R1, R2. split_and!; [done|done| |].
  - specialize (F5 (newAgent (nextAgentId w) terminal filePath projectDir)).
    rewrite R3, lookup_insert_eq in F5. specialize (F5 eq_refl).
    destruct (agents _ !! nextAgentId w) as [a'|]; [|done].
    exists a'. injection F5 as _ Ht _ Hf _ _.
    destruct (pump_static E (newAgent (nextAgentId w) terminal filePath projectDir))
      as [Hf' Ht'].
    split_and!; [done|by rewrite Hf, Hf'|by rewrite Ht, Ht'].
  - intros i Hi. rewrite F4 by done. rewrite R3. by apply lookup_insert_ne.
Qed.

Lemma grows_refl P terminal w : Inv w → grows P terminal w w.
Proof.
  intros HI. split_and!; [lia|done| | |].
  - intros i a Ha. by exists a.
  - intros i a Ha _. by exists a.
  - intros i a Ha Hi. apply (inv_ids _ HI) in Ha. lia.
Qed.

Lemma grows_trans P terminal w1 w2 w3 :
  grows P terminal w1 w2 → grows P terminal w2 w3 → grows P terminal w1 w3.
Proof.
  intros (A1 & A2 & A3 & A4 & A5) (B1 & B2 & B3 & B4 & B5).
  split_and!; [lia|set_solver| | |].
  - intros i a Ha. destruct (A3 i a Ha) as (a2 & Ha2 & ? & ?).
    destruct (B3 i a2 Ha2) as (a3 & Ha3 & ? & ?).
    exists a3. split_and!; [done|congruence..].
  - intros i a3 Ha3 Hi. destruct (B4 i a3 Ha3) as (a2 & Ha2 & ? & ?); [lia|].
    destruct (A4 i a2 Ha2 Hi) as (a1 & Ha1 & ? & ?).
    exists a1. split_and!; [done|congruence..].
  - intros i a3 Ha3 Hi. destruct (decide (i < nextAgentId w2)) as [Hlt|Hge].
    + destruct (B4 i a3 Ha3 Hlt) as (a2 & Ha2 & -> & ->). by apply (A5 i).
    + destruct (B5 i a3 Ha3) as (? & Hnot & ?); [lia|].
      split_and!; [done| |done]. intros Hin. apply Hnot. by apply A2.
Qed.

Lemma createAgentFromFile_grows (P : jsstring → Prop) E terminal filePath projectDir w :
  Inv w → filePath ∉ claimedFiles w → P filePath →
  grows P terminal w (createAgentFromFile E terminal filePath projectDir w).
Proof.
  intros HI Hfree HP.
  destruct (createAgentFromFile_spec E terminal filePath projectDir w HI Hfree)
    as (H1 & H2 & (a0 & Ha0 & Hf0 & Ht0) & H4).
  assert (∀ i a, agents w !! i = Some a → i ≠ nextAgentId w) as Hfresh.
  { intros i a Ha ->. apply (inv_ids _ HI) in Ha. lia. }
  split_and!; [lia|rewrite H2; set_solver| | |].
  - intros i a Ha. exists a. rewrite H4; [done | by eapply Hfresh].
  - intros i a' Ha' Hi. exists a'. by rewrite <- H4 by lia.
  - intros i a' Ha' Hi. destruct (decide (i = nextAgentId w)) as [->|Hne].
    + rewrite Ha0 in Ha'. injection Ha' as <-. by rewrite Hf0, Ht0.
    + rewrite H4 in Ha' by done. apply (inv_ids _ HI) in Ha'. lia.
Qed.

Lemma claim_grows (P : jsstring → Prop) E terminal projectDir file (guard : World → bool) w :
  (∀ w, guard w = true → file ∉ claimedFiles w) →
  (∀ w, guard w = true → P file) →
  Inv w →
  grows P terminal w
    (if guard w then createAgentFromFile E terminal file projectDir w else w).
Proof.
  intros Hfree HP HI. destruct (guard w) eqn:Hg; [|by apply grows_refl].
  apply createAgentFromFile_grows; eauto.
Qed.

Lemma claims_grow (P : jsstring → Prop) E terminal projectDir files
    (guard : jsstring → World → bool) w :
  (∀ file w, guard file w = true → file ∉ claimedFiles w) →
  (∀ file w, file ∈ files → guard file w = true → P file) →
  Inv w →
  grows P terminal w
    (foldl (λ w file, if guard file w
                      then createAgentFromFile E terminal file projectDir w else w)
           w files).
Proof.
  intros Hfree. revert w. induction files as [|file files IH]; intros w HP HI; simpl.
  - by apply grows_refl.
  - eapply grows_trans.
    + apply (claim_grows P E terminal projectDir file (guard file)); [by eauto| |done].
      intros w0. apply HP. by left.
    + apply IH.
      * intros f w0 Hf. apply HP. by right.
      * by apply (sound_claim E terminal projectDir file (guard file)); eauto.
Qed.

Lemma isFileRecent_spec E p :
  isFileRecent E p = true ↔
  sessionMaxAgeSecs E = 0
  ∨ ∃ stat, statSync E p = Some stat
            ∧ Date_now E - fs.mtimeMs stat < sessionMaxAgeSecs E * 1000.
Proof.
  unfold isFileRecent. destruct (Z.eqb_spec (sessionMaxAgeSecs E) 0) as [H0|H0].
  - split; [by left | done].
  - destruct (statSync E p) as [stat|].
    + rewrite Z.ltb_lt. split; [intros; right; by exists stat|].
      intros [?|(stat' & [= <-] & ?)]; done.
    + split; [done|]. by intros [?|(? & ? & ?)].
Qed.

End Preservation.

(** * The claims *)

Section Claims.
Context {RT : NodeRuntime}.

(** C1. In every reachable state, two registered agents that own the same
    transcript path are the same agent, and the path of every registered
    agent is in the claim set. *)
Theorem at_most_one_owner trace i j a b :
  agents (run trace init) !! i = Some a →
  agents (run trace init) !! j = Some b →
  jsonlFile a = jsonlFile b →
  i = j ∧ jsonlFile a ∈ claimedFiles (run trace init).
Proof.
  intros Ha Hb Hf. pose proof (Inv_run trace) as HI. split.
  - by eapply inv_unique.
  - by eapply inv_claimed.
Qed.

(** C10. In every reachable state the open tool ids of an agent are the keys
    of its tool statuses, in the same order. *)
Theorem tools_in_lockstep trace i a :
  agents (run trace init) !! i = Some a →
  activeToolIds a = (activeToolStatuses a).*1.
Proof. intros Ha. by eapply inv_tools; [apply Inv_run|]. Qed.

(** C3. In every reachable state: whatever happens next, the offset of an
    agent does not decrease; a pump leaves it as it is or sets it to the
    size it observed, which is larger; and a pump that observes a size not
    above the offset changes nothing at all, from the watcher as from the
    poll (the poll timer itself is rescheduled). *)
Theorem offset_monotone trace later E j a :
  agents (run trace init) !! j = Some a →
  let w := run trace init in
  (∀ a', agents (run later w) !! j = Some a' → fileOffset a ≤ fileOffset a')
  ∧ (∀ a', agents (readNewLines E j w) !! j = Some a' →
       fileOffset a' = fileOffset a
       ∨ ∃ stat, statSync E (jsonlFile a) = Some stat
                 ∧ fileOffset a < fs.size stat ∧ fileOffset a' = fs.size stat)
  ∧ (∀ stat, statSync E (jsonlFile a) = Some stat → fs.size stat ≤ fileOffset a →
       readNewLines E j w = w
       ∧ (∀ watcher, watchers w !! watcher = Some j → step w (FileChanged watcher E) = w)
       ∧ (∀ h t, timers w !! h = Some t → callback t = PollTick j →
            agents (step w (TimerFires h E)) = agents w
            ∧ posted (step w (TimerFires h E)) = posted w
            ∧ claimedFiles (step w (TimerFires h E)) = claimedFiles w)).
Proof.
  intros Ha w. pose proof (Inv_run trace) as HI. fold w in HI, Ha.
  assert (∀ stat, statSync E (jsonlFile a) = Some stat → fs.size stat ≤ fileOffset a →
          pump E a = None) as Hnone.
  { intros stat Hstat Hle. unfold pump. rewrite Hstat.
    by destruct (Z.leb_spec (fs.size stat) (fileOffset a)); [|lia]. }
  split_and!.
  - intros a' Ha'. destruct (sound_run later w HI) as [_ (_ & Hag & _)].
    destruct (Hag j a' Ha') as (a0 & Ha0 & _ & Hle); [by eapply inv_ids|].
    congruence.
  - intros a' Ha'. destruct (readNewLines_frame E j w HI) as (_ & _ & _ & _ & Hr).
    specialize (Hr a Ha). rewrite Ha' in Hr. injection Hr as _ _ _ _ Hoff _.
    destruct (pump E a) as [[a1 lines]|] eqn:Hp; simpl in Hoff; [|by left].
    apply pump_Some in Hp as (stat & Hstat & Hlt & -> & _). right.
    exists stat. simpl in Hoff. by split_and!.
  - intros stat Hstat Hle. specialize (Hnone stat Hstat Hle).
    assert (readNewLines E j w = w) as Hsame.
    { unfold readNewLines. by rewrite Ha, Hnone. }
    split_and!; [done| |].
    + intros watcher Hw. simpl. by rewrite Hw.
    + intros h t Ht Hcb. simpl. unfold fireTimer. rewrite Ht.
      destruct (clock w <? due t); [done|]. rewrite Hcb. simpl. unfold pollTick.
      destruct (period t); simpl; rewrite Ha; unfold readNewLines; simpl;
        by rewrite Ha, Hnone.
Qed.

(** C5.  In a reachable state with the view attached, a
    turn-completion record cancels the pending debounce timer of the agent,
    sets the waiting flag and emits one waiting status: no debounce callback
    of the agent is left to fire, and no timer is added.  Cancelling a timer
    changes no agent and emits nothing, and the record leaves the flag set
    when the debounce had already fired. *)
Theorem turn_completion_wins trace j a record :
  agents (run trace init) !! j = Some a →
  webviewView (run trace init) = true →
  isStr (field "type" record) "system" = true →
  isStr (field "subtype" record) "turn_duration" = true →
  let w := run trace init in
  let w' := processRecord j record w in
  posted w' = posted w ++ [agentStatus j waiting]
  ∧ agents w' = <[j := set_isWaiting true a]> (agents w)
  ∧ waitingTimers w' !! j = None
  ∧ (∀ h t, timers w' !! h = Some t → callback t ≠ WaitingFire j)
  ∧ (∀ h t, timers w' !! h = Some t → timers w !! h = Some t)
  ∧ agents (cancelWaitingTimer j w) = agents w
  ∧ posted (cancelWaitingTimer j w) = posted w.
Proof.
  intros Ha Hweb Ht Hs w w'. pose proof (Inv_run trace) as HI.
  subst w'. rewrite processRecord_turn by done.
  destruct (turnCompleted_spec j a w HI Ha Hweb) as (H1 & H2 & H3 & H4 & H5).
  destruct (cancelWaitingTimer_spec j w) as (H6 & H7 & _).
  by split_and!.
Qed.

(** C4, as the code has it.  In a reachable state with the view attached, a
    user record whose first block is a tool result, and none of whose tool
    results names an open tool, changes no agent, no waiting timer and emits
    nothing at once; but a timer is set for the result, and when it fires
    300 ms later the tool-done message is emitted all the same. *)
Theorem unmatched_tool_result trace j a record block rest toolId E :
  agents (run trace init) !! j = Some a →
  webviewView (run trace init) = true →
  isStr (field "type" record) "user" = true →
  optField "content" (field "message" record) = Some (JArr (block :: rest)) →
  isStr (field "type" block) "tool_result" = true →
  field "tool_use_id" block = Some toolId →
  truthy (Some toolId) = true →
  is_Some (toStr toolId) →
  (∀ b k, b ∈ block :: rest → field "tool_use_id" b = Some k →
     Set_has k (activeToolIds a) = false) →
  let w := run trace init in
  let w' := processRecord j record w in
  agents w' = agents w
  ∧ posted w' = posted w
  ∧ waitingTimers w' = waitingTimers w
  ∧ timers w' !! nextHandle w
    = Some {| due := clock w + 300; period := None; callback := ToolDoneFire j toolId |}
  ∧ posted (fireTimer E (nextHandle w) (step w' (TimePasses 300)))
    = posted w ++ [agentToolDone j toolId].
Proof.
  intros Ha Hweb Ht Hc Hb Hid Htr [str Hstr] Habs w w'.
  pose proof (Inv_run trace) as HI. fold w in HI, Ha, Hweb.
  assert (block ≠ JNull) as Hnn by (by intros ->).
  assert (someType "tool_result" (block :: rest) = Some true) as Hsome.
  { simpl. rewrite Hb. by destruct block. }
  assert (w' = toolResultLoop j (block :: rest) w) as Hw'.
  { subst w'. by apply processRecord_toolResult. }
  clearbody w'.
  assert (activeToolIds a = (activeToolStatuses a).*1) as Hl by (by eapply inv_tools).
  assert (agents w' = agents w) as Hag.
  { rewrite Hw'. by eapply toolResultLoop_absent. }
  set (w1 := setTimeout (ToolDoneFire j toolId) 300 w).
  assert (agents w1 = agents w) as Hag1 by done.
  assert (toolResults w1 w') as (R1 & R2 & R3 & R4 & R5 & R6).
  { rewrite Hw'. simpl.
    assert (toolResultBlock j block w = Some
              (setTimeout (ToolDoneFire j toolId) 300
                 (updAgent j (λ a, set_activeToolStatuses
                                     (Map_delete toolId (activeToolStatuses a)) a)
                    (updAgent j (λ a, set_activeToolIds
                                        (Set_delete toolId (activeToolIds a)) a) w)))) as Hblk.
    { unfold toolResultBlock. rewrite Hb, Hid. simpl. simpl in Htr.
      by rewrite Htr, Hstr. }
    rewrite Hblk.
    pose proof (toolResultLoop_toolResults j rest
      (setTimeout (ToolDoneFire j toolId) 300
         (updAgent j (λ a, set_activeToolStatuses
                             (Map_delete toolId (activeToolStatuses a)) a)
            (updAgent j (λ a, set_activeToolIds
                                (Set_delete toolId (activeToolIds a)) a) w)))) as Hr.
    destruct block; done. }
  assert (timers w' !! nextHandle w
          = Some {| due := clock w + 300; period := None;
                    callback := ToolDoneFire j toolId |}) as Htimer.
  { rewrite R6 by (simpl; lia). simpl. by rewrite lookup_insert_eq. }
  split_and!; [done| done | done | done |].
  simpl. unfold fireTimer. simpl. rewrite Htimer. simpl. rewrite R4. simpl.
  unfold toolDoneFired, post. simpl. rewrite R3. simpl. rewrite Hweb. simpl.
  destruct (Z.ltb_spec (clock w + 0 `max` 300) (clock w + 300)); [lia|].
  simpl. by rewrite R1.
Qed.

(** C6, as the code has it.  In a reachable state with the view attached, an
    assistant record with a tool use clears the waiting flag, cancels the
    debounce timer of the agent and emits the active status before its
    tool-start messages: right after it the status reported last is active,
    and no debounce callback of the agent is pending. *)
Theorem tool_use_reports_active trace j a record blocks :
  agents (run trace init) !! j = Some a →
  webviewView (run trace init) = true →
  isStr (field "type" record) "assistant" = true →
  optField "content" (field "message" record) = Some (JArr blocks) →
  someType "tool_use" blocks = Some true →
  let w := run trace init in
  let w' := processRecord j record w in
  isWaiting <$> agents w' !! j = Some false
  ∧ waitingTimers w' !! j = None
  ∧ (∀ h t, timers w' !! h = Some t → callback t ≠ WaitingFire j)
  ∧ ∃ ms, posted w' = posted w ++ agentStatus j active :: ms
          ∧ Forall (λ m, ∃ toolId status, m = agentToolStart j toolId status) ms.
Proof.
  intros Ha Hweb Ht Hc Hu w w'. pose proof (Inv_run trace) as HI.
  fold w in HI, Ha, Hweb.
  assert (Inv w') as HI'.
  { subst w'. apply interprets_processRecord; [by eexists | done]. }
  subst w'. rewrite (processRecord_toolUse j record blocks) in * by done.
  destruct (cancelWaitingTimer_spec j w) as (C1 & C2 & C3 & _ & _ & C6 & _).
  destruct (toolUseLoop_toolStarts j blocks
              (post (agentStatus j active)
                 (updAgent j (set_isWaiting false) (cancelWaitingTimer j w))))
    as (S1 & S2 & S3 & ms & S4 & S5).
  assert (waitingTimers (toolUseLoop j blocks
              (post (agentStatus j active)
                 (updAgent j (set_isWaiting false) (cancelWaitingTimer j w)))) !! j = None)
    as Hnone.
  { rewrite S1. unfold post. simpl. rewrite C3, Hweb. simpl. done. }
  split_and!; [|done|by apply no_waiting_timer|].
  - rewrite (S3 j). unfold post. simpl. rewrite C3, Hweb. simpl.
    by rewrite lookup_alter_eq, C1, Ha.
  - exists ms. split; [|done]. rewrite S4. unfold post. simpl. rewrite C3, Hweb. simpl.
    by rewrite C2, <- app_assoc.
Qed.

(** C9, as the code has it.  Removing an agent of a reachable state deletes
    its state, releases its claim and leaves no watcher, no poll timer and no
    debounce timer of it.  Whatever happens later, the agent stays away, no
    watcher or such timer of it comes back, and the only messages about it
    are delayed tool-done messages: those timers are not cancelled, and one
    that fires emits its message without touching the agents. *)
Theorem teardown trace later j a E :
  agents (run trace init) !! j = Some a →
  let w := run trace init in
  let w' := removeAgent j w in
  let w'' := run later w' in
  agents w' !! j = None
  ∧ (jsonlFile a ∉ claimedFiles w')
  ∧ fileWatchers w' !! j = None
  ∧ pollingTimers w' !! j = None
  ∧ waitingTimers w' !! j = None
  ∧ agents w'' !! j = None
  ∧ (∀ h, watchers w'' !! h ≠ Some j)
  ∧ (∀ h t, timers w'' !! h = Some t →
       callback t ≠ PollTick j ∧ callback t ≠ WaitingFire j)
  ∧ (∃ ms, posted w'' = posted w' ++ ms ∧ Forall (lateOnly j) ms)
  ∧ (∀ h t toolId,
       timers w'' !! h = Some t → callback t = ToolDoneFire j toolId →
       due t ≤ clock w'' → webviewView w'' = true →
       posted (fireTimer E h w'') = posted w'' ++ [agentToolDone j toolId]
       ∧ agents (fireTimer E h w'') = agents w'').
Proof.
  intros Ha w w' w''. pose proof (Inv_run trace) as HI. fold w in HI, Ha.
  destruct (removeAgent_spec j w a Ha) as (R1 & R2 & R3 & R4 & R5 & _ & _ & R8 & _).
  fold w' in R1, R2, R3, R4, R5, R8.
  destruct (sound_removeAgent j w HI) as [HI' _]. fold w' in HI'.
  destruct (sound_run later w' HI') as [HI'' He]. fold w'' in HI'', He.
  assert (gone j w') as Hgone.
  { split; [rewrite R8; by eapply inv_ids | by rewrite R1, lookup_delete_eq]. }
  pose proof (evolves_gone j w' w'' He Hgone) as [_ Hgone''].
  split_and!.
  - by rewrite R1, lookup_delete_eq.
  - rewrite R2. set_solver.
  - by rewrite R3, lookup_delete_eq.
  - by rewrite R4, lookup_delete_eq.
  - by rewrite R5, lookup_delete_eq.
  - done.
  - intros h Hh. destruct (inv_watch _ HI'' h j Hh) as [_ [? ?]]. congruence.
  - intros h t Ht. split; intros Hcb.
    + destruct (inv_poll _ HI'' h t j Ht Hcb) as [_ [? ?]]. congruence.
    + destruct (inv_wait _ HI'' h t j Ht Hcb) as (_ & [? ?] & _). congruence.
  - destruct He as (_ & _ & ms & Hms & Hlate). exists ms. split; [done | by apply Hlate].
  - intros h t toolId Ht Hcb Hdue Hweb. unfold fireTimer. rewrite Ht.
    destruct (Z.ltb_spec (clock w'') (due t)); [lia|]. rewrite Hcb. simpl.
    unfold toolDoneFired, post.
    destruct (period t); simpl; rewrite Hweb; done.
Qed.

(** C8, as the code has it.  At a scan tick of a terminal with a project
    directory, in a reachable state: when the session identifier is known
    and its file exists and is unclaimed, the file is claimed on this tick by
    a new agent of the terminal, whatever its modification time and the
    threshold; every agent created on the tick is for a path that was
    unclaimed, and is either that file or a listed transcript that passes
    the recency filter; the filter accepts every path when the threshold is
    zero, even one that cannot be stat-ed, and otherwise accepts a path that
    can be stat-ed and is younger than the threshold. *)
Theorem scan_claims trace E terminal sessionId projectDir :
  nonEmpty (terminalProjectDirs (run trace init) !! terminal) = Some projectDir →
  let w := run trace init in
  let w' := scanForNewFiles E terminal sessionId w in
  let expected sid := path_join [projectDir; sid ++ lit ".jsonl"] in
  (∀ sid, nonEmpty sessionId = Some sid →
     existsSync E (expected sid) = true → expected sid ∉ claimedFiles w →
     expected sid ∈ claimedFiles w'
     ∧ ∃ a, agents w' !! nextAgentId w = Some a
            ∧ jsonlFile a = expected sid ∧ terminalRef a = terminal)
  ∧ (∀ i a, agents w' !! i = Some a → nextAgentId w ≤ i →
       (jsonlFile a ∉ claimedFiles w)
       ∧ terminalRef a = terminal
       ∧ ((∃ sid, nonEmpty sessionId = Some sid ∧ jsonlFile a = expected sid
                  ∧ existsSync E (expected sid) = true)
          ∨ (∃ names name, readdirSync E projectDir = Some names ∧ name ∈ names
                           ∧ endsWith name (lit ".jsonl") = true
                           ∧ jsonlFile a = path_join [projectDir; name]
                           ∧ isFileRecent E (jsonlFile a) = true)))
  ∧ (∀ p, isFileRecent E p = true ↔
          sessionMaxAgeSecs E = 0
          ∨ ∃ stat, statSync E p = Some stat
                    ∧ Date_now E - fs.mtimeMs stat < sessionMaxAgeSecs E * 1000)
  ∧ (∀ p, statSync E p = None → isFileRecent E p = true → sessionMaxAgeSecs E = 0).
Proof.
  intros Hdir w w' expected. pose proof (Inv_run trace) as HI. fold w in HI, Hdir.
  set (P := λ f : jsstring,
    (∃ sid, nonEmpty sessionId = Some sid ∧ f = expected sid
            ∧ existsSync E (expected sid) = true)
    ∨ (∃ names name, readdirSync E projectDir = Some names ∧ name ∈ names
                     ∧ endsWith name (lit ".jsonl") = true
                     ∧ f = path_join [projectDir; name]
                     ∧ isFileRecent E f = true)).
  set (w1 := match nonEmpty sessionId with
             | Some sid =>
                 if existsSync E (expected sid)
                    && negb (bool_decide (expected sid ∈ claimedFiles w))
                 then createAgentFromFile E terminal (expected sid) projectDir w
                 else w
             | None => w
             end).
  assert (Inv w1 ∧ grows P terminal w w1) as [HI1 Hg1].
  { subst w1. destruct (nonEmpty sessionId) as [sid|] eqn:Hsid;
      [|split; [done | by apply grows_refl]].
    destruct (existsSync E (expected sid)) eqn:Hex; simpl;
      [|split; [done | by apply grows_refl]].
    case_bool_decide as Hcl; simpl; [split; [done | by apply grows_refl]|].
    split; [by apply sound_createAgentFromFile|].
    apply createAgentFromFile_grows; [done|done|]. left. by exists sid. }
  assert (grows P terminal w1 w') as Hg2.
  { subst w'. unfold scanForNewFiles. rewrite Hdir. fold expected. fold w1.
    destruct (readdirSync E projectDir) as [names|] eqn:Hnames; [|by apply grows_refl].
    apply (claims_grow P E terminal projectDir _
             (λ file w, negb (bool_decide (file ∈ claimedFiles w)) && isFileRecent E file));
      [| |done].
    - intros file w0 [Hc%negb_true_iff _]%andb_true_iff.
      by apply bool_decide_eq_false in Hc.
    - intros file w0 (name & -> & Hname)%list_elem_of_fmap [_ Hrec]%andb_true_iff.
      apply list_elem_of_In, filter_In in Hname as [Hin Hends].
      right. exists names, name. split_and!; try done. by apply list_elem_of_In. }
  pose proof (grows_trans _ _ _ _ _ Hg1 Hg2) as (_ & _ & _ & _ & G5).
  split_and!.
  - intros sid Hsid Hex Hfree.
    assert (w1 = createAgentFromFile E terminal (expected sid) projectDir w) as Hw1.
    { subst w1. rewrite Hsid, Hex. simpl. by rewrite bool_decide_eq_false_2. }
    destruct (createAgentFromFile_spec E terminal (expected sid) projectDir w HI Hfree)
      as (_ & C2 & (a & Ha & Hf & Ht) & _).
    rewrite <- Hw1 in C2, Ha.
    destruct Hg2 as (_ & G2 & G3 & _).
    split.
    + apply G2. rewrite C2. set_solver.
    + destruct (G3 _ a Ha) as (a' & Ha' & Hf' & Ht'). exists a'.
      split_and!; [done|congruence..].
  - intros i a Ha Hi. destruct (G5 i a Ha Hi) as (HP & ? & ?).
    split_and!; [done|done|]. destruct HP as [(sid & ? & ? & ?)|(names & name & ?)].
    + left. by exists sid.
    + right. by exists names, name.
  - apply isFileRecent_spec.
  - intros p Hstat [?|(stat & ? & _)]%isFileRecent_spec; [done | congruence].
Qed.

End Claims.

Lemma at_most_one_owner_witness :
  let w := run (RT := Sample.runtime) (Sample.opened []) init in
  ∃ a, agents w !! 1 = Some a ∧ 1 = 1 ∧ jsonlFile a ∈ claimedFiles w.
Proof.
  eexists. split; [vm_compute; reflexivity|].
  eapply (at_most_one_owner (RT := Sample.runtime) (Sample.opened []) 1 1);
    vm_compute; reflexivity.
Defined.

Lemma tools_in_lockstep_witness :
  let w := run (RT := Sample.runtime) (Sample.opened [Sample.toolUseLine]) init in
  ∃ a, agents w !! 1 = Some a
       ∧ activeToolIds a = [JStr (lit "t1")]
       ∧ activeToolIds a = (activeToolStatuses a).*1.
Proof.
  eexists. split; [vm_compute; reflexivity|]. split; [vm_compute; reflexivity|].
  eapply (tools_in_lockstep (RT := Sample.runtime) (Sample.opened [Sample.toolUseLine]) 1).
  vm_compute. reflexivity.
Defined.

Lemma offset_monotone_witness :
  let w := run (RT := Sample.runtime) (Sample.opened [Sample.textLine]) init in
  let E := Sample.session (Sample.transcript [Sample.textLine]) in
  let a := set_fileOffset 73
             (newAgent 1 7 (Sample.join [Sample.dir; lit "s1.jsonl"]) Sample.dir) in
  agents w !! 1 = Some a
  ∧ statSync E (jsonlFile a) = Some {| fs.size := 73; fs.mtimeMs := 900 |}
  ∧ readNewLines (RT := Sample.runtime) E 1 w = w.
Proof.
  intros w E a.
  assert (agents w !! 1 = Some a) as Ha by (vm_compute; reflexivity).
  assert (statSync E (jsonlFile a) = Some {| fs.size := 73; fs.mtimeMs := 900 |}) as Hstat
    by (vm_compute; reflexivity).
  split; [exact Ha|]. split; [exact Hstat|].
  refine (proj1 (proj2 (proj2
    (offset_monotone (RT := Sample.runtime) (Sample.opened [Sample.textLine]) [] E 1 a Ha))
    _ Hstat _)).
  vm_compute. discriminate.
Defined.

Lemma turn_completion_wins_witness :
  let w := run (RT := Sample.runtime) (Sample.opened [Sample.textLine]) init in
  let record := Sample.record Sample.turnLine in
  let w' := processRecord (RT := Sample.runtime) 1 record w in
  agents w !! 1 = Some (set_fileOffset 73 Sample.agent1)
  ∧ waitingTimers w !! 1 = Some 4
  ∧ posted w' = posted w ++ [agentStatus 1 waiting]
  ∧ waitingTimers w' !! 1 = None.
Proof.
  intros w record w'.
  assert (agents w !! 1 = Some (set_fileOffset 73 Sample.agent1)) as Ha
    by (vm_compute; reflexivity).
  split_and!; [exact Ha | vm_compute; reflexivity | |].
  - refine (proj1
      (turn_completion_wins (RT := Sample.runtime) (Sample.opened [Sample.textLine]) 1
         _ record Ha _ _ _)); vm_compute; reflexivity.
  - refine (proj1 (proj2 (proj2
      (turn_completion_wins (RT := Sample.runtime) (Sample.opened [Sample.textLine]) 1
         _ record Ha _ _ _)))); vm_compute; reflexivity.
Defined.

Lemma unmatched_tool_result_witness :
  let w := run (RT := Sample.runtime) (Sample.opened []) init in
  let record := Sample.record Sample.toolResultLine in
  let w' := processRecord (RT := Sample.runtime) 1 record w in
  agents w !! 1 = Some Sample.agent1
  ∧ activeToolIds Sample.agent1 = []
  ∧ agents w' = agents w
  ∧ posted (fireTimer (RT := Sample.runtime) Sample.empty (nextHandle w)
              (step (RT := Sample.runtime) w' (TimePasses 300)))
    = posted w ++ [agentToolDone 1 (JStr (lit "x"))].
Proof.
  intros w record w'.
  assert (agents w !! 1 = Some Sample.agent1) as Ha by (vm_compute; reflexivity).
  assert (is_Some (toStr (RT := Sample.runtime) (JStr (lit "x")))) as Hstr
    by (by eexists).
  assert (∀ b k, b ∈ default JNull (head (Sample.blocksOf record)) :: [] →
            field "tool_use_id" b = Some k →
            Set_has k (activeToolIds Sample.agent1) = false) as Habs by done.
  pose proof (unmatched_tool_result (RT := Sample.runtime) (Sample.opened []) 1
                Sample.agent1 record
                (default JNull (head (Sample.blocksOf record))) []
                (JStr (lit "x")) Sample.empty Ha
                ltac:(vm_compute; reflexivity) ltac:(vm_compute; reflexivity)
                ltac:(vm_compute; reflexivity) ltac:(vm_compute; reflexivity)
                ltac:(vm_compute; reflexivity) ltac:(vm_compute; reflexivity)
                Hstr Habs) as H.
  split_and!; [exact Ha | reflexivity | exact (proj1 H) |].
  exact (proj2 (proj2 (proj2 (proj2 H)))).
Defined.

(** C4 as stated fails: the tool result of an id that was never started
    still gets its tool-done message. *)
Lemma tool_done_without_start :
  let w := run (RT := Sample.runtime)
             (Sample.opened [Sample.toolResultLine]
                ++ [TimePasses 300;
                    TimerFires 4 (Sample.session (Sample.transcript [Sample.toolResultLine]))])
             init in
  activeToolIds <$> agents w !! 1 = Some []
  ∧ posted w = [agentCreated 1; agentToolDone 1 (JStr (lit "x"))]
  ∧ ¬ toolDonePreceded (posted w).
Proof.
  assert (posted (run (RT := Sample.runtime)
             (Sample.opened [Sample.toolResultLine]
                ++ [TimePasses 300;
                    TimerFires 4 (Sample.session (Sample.transcript [Sample.toolResultLine]))])
             init) = [agentCreated 1; agentToolDone 1 (JStr (lit "x"))]) as Hposted
    by (vm_compute; reflexivity).
  split_and!; [vm_compute; reflexivity | exact Hposted |].
  rewrite Hposted. intros H.
  destruct (H [agentCreated 1] 1 (JStr (lit "x")) [] eq_refl) as [status Hin].
  apply list_elem_of_singleton in Hin. discriminate.
Qed.

Lemma tool_use_reports_active_witness :
  let w := run (RT := Sample.runtime) (Sample.opened [Sample.textLine]) init in
  let record := Sample.record Sample.toolUseLine in
  let w' := processRecord (RT := Sample.runtime) 1 record w in
  agents w !! 1 = Some (set_fileOffset 73 Sample.agent1)
  ∧ waitingTimers w !! 1 = Some 4
  ∧ waitingTimers w' !! 1 = None
  ∧ isWaiting <$> agents w' !! 1 = Some false.
Proof.
  intros w record w'.
  assert (agents w !! 1 = Some (set_fileOffset 73 Sample.agent1)) as Ha
    by (vm_compute; reflexivity).
  pose proof (tool_use_reports_active (RT := Sample.runtime)
                (Sample.opened [Sample.textLine]) 1 _ record (Sample.blocksOf record) Ha) as H.
  split_and!; [exact Ha | vm_compute; reflexivity | |].
  - refine (proj1 (proj2 (H _ _ _ _))); vm_compute; reflexivity.
  - refine (proj1 (H _ _ _ _)); vm_compute; reflexivity.
Defined.

(** C6 as stated fails: a turn-completion record reports waiting while the
    tool started before it is still open. *)
Lemma waiting_reported_with_open_tool :
  let w := run (RT := Sample.runtime)
             (Sample.opened [Sample.toolUseLine; Sample.turnLine]) init in
  activeToolIds <$> agents w !! 1 = Some [JStr (lit "t1")]
  ∧ isWaiting <$> agents w !! 1 = Some true
  ∧ posted w = [agentCreated 1; agentStatus 1 active;
                agentToolStart 1 (JStr (lit "t1")) (lit "Searching files");
                agentStatus 1 waiting].
Proof. vm_compute. by split_and!. Qed.

Lemma teardown_witness :
  let w := run (RT := Sample.runtime) (Sample.opened [Sample.toolResultLine]) init in
  let a := set_fileOffset 81 Sample.agent1 in
  agents w !! 1 = Some a
  ∧ agents (removeAgent 1 w) !! 1 = None
  ∧ jsonlFile a ∉ claimedFiles (removeAgent 1 w).
Proof.
  intros w a.
  assert (agents w !! 1 = Some a) as Ha by (vm_compute; reflexivity).
  pose proof (teardown (RT := Sample.runtime) (Sample.opened [Sample.toolResultLine])
                [] 1 a Sample.empty Ha) as H.
  split_and!; [exact Ha | exact (proj1 H) | exact (proj1 (proj2 H))].
Defined.

(** C9 as stated fails: the delayed tool-done timer is not cancelled by the
    teardown, and when it fires it emits a message about the removed agent. *)
Lemma tool_done_after_teardown :
  let closed := run (RT := Sample.runtime)
                  (Sample.opened [Sample.toolResultLine] ++ [DidCloseTerminal 7]) init in
  let w := run (RT := Sample.runtime) [TimePasses 300; TimerFires 4 Sample.empty] closed in
  agents closed !! 1 = None
  ∧ posted closed = [agentCreated 1; agentClosed 1]
  ∧ callback <$> timers closed !! 4 = Some (ToolDoneFire 1 (JStr (lit "x")))
  ∧ posted w = posted closed ++ [agentToolDone 1 (JStr (lit "x"))].
Proof. vm_compute. by split_and!. Qed.

Lemma scan_claims_witness :
  let w := run (RT := Sample.runtime) Sample.launched init in
  let E := Sample.stale (Sample.transcript [Sample.textLine]) in
  let w' := scanForNewFiles (RT := Sample.runtime) E 7 (Some (lit "s1")) w in
  nonEmpty (terminalProjectDirs w !! 7) = Some Sample.dir
  ∧ isFileRecent E Sample.path = false
  ∧ Sample.path ∈ claimedFiles w'.
Proof.
  intros w E w'.
  assert (nonEmpty (terminalProjectDirs w !! 7) = Some Sample.dir) as Hdir
    by (vm_compute; reflexivity).
  assert (claimedFiles w = ∅) as Hnone by (vm_compute; reflexivity).
  pose proof (scan_claims (RT := Sample.runtime) Sample.launched E 7 (Some (lit "s1"))
                Sample.dir Hdir) as H.
  split_and!; [exact Hdir | vm_compute; reflexivity |].
  refine (proj1 (proj1 H (lit "s1") _ _ _)); [reflexivity | vm_compute; reflexivity |].
  fold w. rewrite Hnone. apply not_elem_of_empty.
Defined.

(** C8 as stated fails: with the threshold at zero a listed path that cannot
    be stat-ed passes the filter, and the scan creates an agent for it. *)
Lemma missing_file_eligible_when_unlimited :
  let ghost := Sample.join [Sample.dir; lit "ghost.jsonl"] in
  let w := run (RT := Sample.runtime)
             (Sample.launched ++ [TimerFires 1 Sample.dangling]) init in
  statSync Sample.dangling ghost = None
  ∧ isFileRecent Sample.dangling ghost = true
  ∧ jsonlFile <$> agents w !! 1 = Some ghost.
Proof. vm_compute. by split_and!. Qed.

(** * Further properties of the provider *)

Section Interpreter.
Context {RT : NodeRuntime}.

Lemma isStr_other k k' : lit k ≠ lit k' → isStr (Some (JStr (lit k))) k' = false.
Proof. intros Hne. simpl. by apply bool_decide_eq_false. Qed.

(** What the interpreter ignores: lines of an agent that is gone, lines that
    do not parse, records of another type than assistant, user and system,
    system records of another subtype, assistant records without tool use and
    without text (thinking only) or without a list of blocks, and user records
    whose text is blank.  None changes the state or emits anything. *)
Theorem ignored_input j line record blocks s w :
  (agents w !! j = None → processTranscriptLine j line w = w)
  ∧ (JSON_parse line = None → processTranscriptLine j line w = w)
  ∧ (isStr (field "type" record) "assistant" = false →
     isStr (field "type" record) "user" = false →
     isStr (field "type" record) "system" = false →
     processRecord j record w = w)
  ∧ (isStr (field "type" record) "system" = true →
     isStr (field "subtype" record) "turn_duration" = false →
     processRecord j record w = w)
  ∧ (isStr (field "type" record) "assistant" = true →
     optField "content" (field "message" record) = Some (JArr blocks) →
     someType "tool_use" blocks = Some false →
     someType "text" blocks = Some false →
     processRecord j record w = w)
  ∧ (isStr (field "type" record) "assistant" = true →
     asArray (optField "content" (field "message" record)) = None →
     processRecord j record w = w)
  ∧ (isStr (field "type" record) "user" = true →
     optField "content" (field "message" record) = Some (JStr s) →
     blank s = true →
     processRecord j record w = w).
Proof.
  split_and!.
  - intros Ha. unfold processTranscriptLine. by rewrite Ha.
  - intros Hp. unfold processTranscriptLine. rewrite Hp. by destruct (agents w !! j).
  - intros H1 H2 H3. unfold processRecord. destruct record; try done.
    all: rewrite H1, H2, H3; done.
  - intros H1 H2. unfold processRecord. destruct record; try done.
    rewrite H2. apply isStr_true in H1. by rewrite H1.
  - intros H1 H2 H3 H4. unfold processRecord. destruct record; try done.
    by rewrite H1, H2; simpl; rewrite H3, H4.
  - intros H1 H2. unfold processRecord. destruct record; try done.
    rewrite H2. apply isStr_true in H1. by rewrite H1.
  - intros H1 H2 H3. unfold processRecord. destruct record; try done.
    rewrite H2, H3. apply isStr_true in H1. by rewrite H1.
Qed.

Lemma clearAgentActivity_spec j a w :
  agents w !! j = Some a → webviewView w = true →
  agents (clearAgentActivity j w)
  = <[j := set_isWaiting false (set_activeToolStatuses [] (set_activeToolIds [] a))]>
      (agents w)
  ∧ posted (clearAgentActivity j w)
    = posted w ++ [agentToolsClear j; agentStatus j active]
  ∧ waitingTimers (clearAgentActivity j w) = waitingTimers w
  ∧ timers (clearAgentActivity j w) = timers w.
Proof.
  intros Ha Hweb. unfold clearAgentActivity, post. rewrite Ha. simpl. rewrite Hweb.
  simpl. rewrite Hweb. simpl. split_and!; try done; [|by rewrite <- app_assoc].
  rewrite !alter_alter_eq. by rewrite (alter_alt_Some _ _ _ a Ha).
Qed.

(** A new user turn.  In a reachable state with the view attached, a user
    record whose content is a list without tool result, or a text that is not
    blank, cancels the debounce timer of the agent, closes all its tools,
    clears its waiting flag and emits tools-clear, then active. *)
Theorem new_user_turn trace j a record :
  agents (run trace init) !! j = Some a →
  webviewView (run trace init) = true →
  isStr (field "type" record) "user" = true →
  (∃ blocks, optField "content" (field "message" record) = Some (JArr blocks)
             ∧ someType "tool_result" blocks = Some false)
  ∨ (∃ s, optField "content" (field "message" record) = Some (JStr s)
          ∧ blank s = false) →
  let w := run trace init in
  let w' := processRecord j record w in
  agents w'
  = <[j := set_isWaiting false (set_activeToolStatuses [] (set_activeToolIds [] a))]>
      (agents w)
  ∧ posted w' = posted w ++ [agentToolsClear j; agentStatus j active]
  ∧ waitingTimers w' !! j = None
  ∧ (∀ h t, timers w' !! h = Some t → callback t ≠ WaitingFire j).
Proof.
  intros Ha Hweb Ht Hc w w'. pose proof (Inv_run trace) as HI. fold w in HI, Ha, Hweb.
  assert (w' = clearAgentActivity j (cancelWaitingTimer j w)) as Hw'.
  { subst w'. unfold processRecord. apply isStr_true in Ht.
    destruct Hc as [(blocks & Hc & Hs)|(s & Hc & Hs)];
      destruct record; try done; rewrite Hc, ?Hs, Ht; done. }
  assert (Inv w') as HI'.
  { subst w'. apply interprets_processRecord; [by eexists | done]. }
  clearbody w'. subst w'.
  destruct (cancelWaitingTimer_spec j w) as (C1 & C2 & C3 & _ & _ & C6 & _).
  destruct (clearAgentActivity_spec j a (cancelWaitingTimer j w)) as (K1 & K2 & K3 & K4);
    [by rewrite C1 | by rewrite C3 |].
  assert (waitingTimers (clearAgentActivity j (cancelWaitingTimer j w)) !! j = None)
    as Hnone by (by rewrite K3).
  split_and!; [by rewrite K1, C1 | by rewrite K2, C2 | done | by apply no_waiting_timer].
Qed.

Lemma Set_delete_add k s :
  sameValueZero k k = true → Set_has k s = false → Set_delete k (Set_add k s) = s.
Proof.
  intros Hk Hs. unfold Set_add. rewrite Hs. unfold Set_delete.
  rewrite List.filter_app. simpl. rewrite Hk. simpl. rewrite app_nil_r.
  by apply Set_delete_absent.
Qed.

Lemma Map_delete_set {V} k (v : V) m :
  sameValueZero k k = true → Map_has k m = false → Map_delete k (Map_set k v m) = m.
Proof.
  intros Hk Hm. unfold Map_set. rewrite Hm. unfold Map_delete.
  rewrite List.filter_app. simpl. rewrite Hk. simpl. rewrite app_nil_r.
  by apply Map_delete_absent.
Qed.

Lemma post_spec m w :
  agents (post m w) = agents w
  ∧ webviewView (post m w) = webviewView w
  ∧ clock (post m w) = clock w
  ∧ timers (post m w) = timers w
  ∧ nextHandle (post m w) = nextHandle w
  ∧ waitingTimers (post m w) = waitingTimers w
  ∧ posted (post m w) = posted w ++ (if webviewView w then [m] else []).
Proof.
  unfold post. destruct (webviewView w) eqn:Hweb; simpl; rewrite ?Hweb, ?app_nil_r; done.
Qed.

Lemma updAgent_insert j f a w :
  agents w !! j = Some a → updAgent j f w = set_agents (<[j := f a]> (agents w)) w.
Proof. intros Ha. unfold updAgent. by rewrite (alter_alt_Some _ _ _ a Ha). Qed.

Lemma set_agents_twice m m' w : set_agents m (set_agents m' w) = set_agents m w.
Proof. by destruct w. Qed.

Lemma toolUseLoop_single j block w w' :
  block ≠ JNull → toolUseBlock j block w = Some w' → toolUseLoop j [block] w = w'.
Proof. intros Hn Hb. simpl. rewrite Hb. by destruct block. Qed.

Lemma toolResultLoop_single j block w w' :
  block ≠ JNull → toolResultBlock j block w = Some w' → toolResultLoop j [block] w = w'.
Proof. intros Hn Hb. simpl. rewrite Hb. by destruct block. Qed.

Lemma truthy_JStr s : s ≠ [] → truthy (Some (JStr s)) = true.
Proof. intros Hs. destruct s; [done|]. simpl. by rewrite ?bool_decide_eq_false_2. Qed.

(** A tool that is started and then finished.  In a reachable state with the
    view attached, an assistant record with one tool-use block for an id that
    is not open, followed by a user record with the tool result of that id,
    leaves the open tools of the agent as they were, with the waiting flag
    cleared; active and the tool start are emitted at once, and the timer of
    the tool-done message is set. *)
Theorem tool_started_then_finished trace j a started finished use result toolId status :
  agents (run trace init) !! j = Some a →
  webviewView (run trace init) = true →
  toolId ≠ [] →
  Set_has (JStr toolId) (activeToolIds a) = false →
  isStr (field "type" started) "assistant" = true →
  optField "content" (field "message" started) = Some (JArr [use]) →
  isStr (field "type" use) "tool_use" = true →
  field "id" use = Some (JStr toolId) →
  formatToolStatus
    (if truthy (field "name" use) then default JNull (field "name" use) else JStr [])
    (if truthy (field "input" use) then default JNull (field "input" use) else JObj [])
  = Some status →
  isStr (field "type" finished) "user" = true →
  optField "content" (field "message" finished) = Some (JArr [result]) →
  isStr (field "type" result) "tool_result" = true →
  field "tool_use_id" result = Some (JStr toolId) →
  let w := run trace init in
  let w1 := processRecord j started w in
  let w2 := processRecord j finished w1 in
  agents w1
  = <[j := set_activeToolStatuses (activeToolStatuses a ++ [(JStr toolId, status)])
             (set_activeToolIds (activeToolIds a ++ [JStr toolId])
                (set_isWaiting false a))]> (agents w)
  ∧ posted w1
    = posted w ++ [agentStatus j active; agentToolStart j (JStr toolId) status]
  ∧ agents w2 = <[j := set_isWaiting false a]> (agents w)
  ∧ posted w2 = posted w1
  ∧ timers w2 !! nextHandle w1
    = Some {| due := clock w + 300; period := None;
              callback := ToolDoneFire j (JStr toolId) |}.
Proof.
  intros Ha Hweb Hne Hfresh Ht1 Hc1 Hu Hid Hst Ht2 Hc2 Hr Hrid w w1 w2.
  pose proof (Inv_run trace) as HI. fold w in HI, Ha, Hweb.
  assert (activeToolIds a = (activeToolStatuses a).*1) as Hl by (by eapply inv_tools).
  assert (Map_has (JStr toolId) (activeToolStatuses a) = false) as Hfresh'
    by (by rewrite <- Set_has_keys, <- Hl).
  assert (use ≠ JNull) as Hun by (by intros ->).
  assert (result ≠ JNull) as Hrn by (by intros ->).
  pose proof (truthy_JStr toolId Hne) as Htr.
  assert (sameValueZero (JStr toolId) (JStr toolId) = true) as Hsv
    by (simpl; by apply bool_decide_eq_true).
  destruct (cancelWaitingTimer_spec j w) as (C1 & C2 & C3 & C4 & C5 & _).
  set (w0 := post (agentStatus j active)
               (updAgent j (set_isWaiting false) (cancelWaitingTimer j w))).
  set (a1 := set_activeToolStatuses (activeToolStatuses a ++ [(JStr toolId, status)])
               (set_activeToolIds (activeToolIds a ++ [JStr toolId])
                  (set_isWaiting false a))).
  assert (w1 = post (agentToolStart j (JStr toolId) status)
                 (set_agents (<[j := a1]> (agents w)) w0)) as Hw1.
  { subst w1. rewrite (processRecord_toolUse j started [use]);
      [|done|done|simpl; rewrite Hu; by destruct use].
    apply toolUseLoop_single; [done|]. unfold toolUseBlock.
    rewrite Hu, Hid, Htr, Hst. simpl. do 2 f_equal. fold w0.
    assert (agents w0 = <[j := set_isWaiting false a]> (agents w)) as Hw0.
    { unfold w0. rewrite (proj1 (post_spec _ _)). unfold updAgent. simpl.
      by rewrite C1, (alter_alt_Some _ _ _ a Ha). }
    rewrite updAgent_updAgent.
    rewrite (updAgent_insert j _ (set_isWaiting false a))
      by (rewrite Hw0; apply lookup_insert_eq).
    rewrite Hw0, insert_insert_eq. simpl.
    unfold Set_add, Map_set. by rewrite Hfresh, Hfresh'. }
  assert (webviewView w0 = true ∧ posted w0 = posted w ++ [agentStatus j active]
          ∧ clock w0 = clock w) as (W1 & W2 & W3).
  { unfold w0. destruct (post_spec (agentStatus j active)
      (updAgent j (set_isWaiting false) (cancelWaitingTimer j w)))
      as (_ & Q2 & Q3 & _ & _ & _ & Q7).
    rewrite Q2, Q3, Q7. unfold updAgent. simpl. by rewrite C2, C3, C4, Hweb. }
  assert (w2 = setTimeout (ToolDoneFire j (JStr toolId)) 300
                 (set_agents (<[j := set_isWaiting false a]> (agents w)) w1)) as Hw2.
  { subst w2. rewrite (processRecord_toolResult j finished [result]);
      [|done|done|simpl; rewrite Hr; by destruct result].
    apply toolResultLoop_single; [done|]. unfold toolResultBlock.
    rewrite Hr, Hrid, Htr. simpl. do 2 f_equal.
    assert (agents w1 = <[j := a1]> (agents w)) as Hag.
    { rewrite Hw1. by rewrite (proj1 (post_spec _ _)). }
    rewrite updAgent_updAgent.
    rewrite (updAgent_insert j _ a1) by (rewrite Hag; apply lookup_insert_eq).
    rewrite Hag, insert_insert_eq. simpl.
    pose proof (Set_delete_add _ _ Hsv Hfresh) as D1.
    pose proof (Map_delete_set _ status _ Hsv Hfresh') as D2.
    unfold Set_add in D1. unfold Map_set in D2. rewrite Hfresh in D1. rewrite Hfresh' in D2.
    by rewrite D1, D2. }
  assert (posted w1 = posted w0 ++ [agentToolStart j (JStr toolId) status]
          ∧ agents w1 = <[j := a1]> (agents w) ∧ clock w1 = clock w0) as (P1 & P2 & P3).
  { rewrite Hw1.
    destruct (post_spec (agentToolStart j (JStr toolId) status)
                (set_agents (<[j := a1]> (agents w)) w0)) as (Q1 & _ & Q3 & _ & _ & _ & Q7).
    rewrite Q1, Q3, Q7. simpl. by rewrite W1. }
  split_and!.
  - done.
  - by rewrite P1, W2, <- app_assoc.
  - by rewrite Hw2.
  - by rewrite Hw2.
  - rewrite Hw2. simpl. rewrite lookup_insert_eq. by rewrite P3, W3.
Qed.

End Interpreter.

Section Hosts.
Context {RT : NodeRuntime}.



(** The project directory of a workspace path: under [~/.claude/projects],
    named after the path with every colon, backslash and slash replaced by a
    hyphen.  The name has the length of the path and none of the three
    characters, and differs from the path only where one of them stood.  The
    terminal's own directory is used when there is one, else the workspace
    folder; without either there is no project directory. *)
Theorem project_dir_name E cwd workspacePath :
  nonEmpty (match nonEmpty cwd with Some p => Some p | None => workspaceFolder E end)
  = workspacePath →
  match workspacePath with
  | None => getProjectDirPath E cwd = None
  | Some p =>
      ∃ dirName,
        getProjectDirPath E cwd
        = Some (path_join [homedir E; lit ".claude"; lit "projects"; dirName])
        ∧ length dirName = length p
        ∧ ∀ k c, p !! k = Some c →
            dirName !! k = Some (if bool_decide (c ∈ [58; 92; 47]) then 45 else c)
            ∧ ∀ c', dirName !! k = Some c' → c' ∉ [58; 92; 47]
  end.
Proof.
  intros Hw. unfold getProjectDirPath. rewrite Hw. destruct workspacePath as [p|]; [|done].
  eexists. split; [reflexivity|]. split; [by rewrite length_fmap|].
  intros k c Hk. rewrite list_lookup_fmap, Hk. simpl.
  assert (((c =? 58) || (c =? 92) || (c =? 47)) = bool_decide (c ∈ [58; 92; 47])) as ->.
  { case_bool_decide as Hc.
    - set_unfold in Hc. destruct Hc as [->|[->|[->|[]]]]; done.
    - set_unfold in Hc. apply orb_false_intro; [apply orb_false_intro|]; apply Z.eqb_neq; naive_solver. }
  split; [done|]. intros c' [= <-]. case_bool_decide as Hc; [|done].
  set_unfold. lia.
Qed.

Lemma decimalDigits_spec fuel n :
  0 ≤ n < 2 ^ Z.of_nat fuel →
  foldl (λ n c, 10 * n + (c - 48)) 0 (decimalDigits fuel n) = n
  ∧ forallb (λ c, (48 <=? c) && (c <=? 57)) (decimalDigits fuel n) = true
  ∧ (0 < fuel → decimalDigits fuel n ≠ [])%nat.
Proof.
  revert n. induction fuel as [|fuel IH]; intros n Hn.
  - simpl in *. split_and!; [lia|done|lia].
  - simpl. pose proof (Z.mod_pos_bound n 10 ltac:(lia)) as Hm.
    pose proof (Z.div_mod n 10 ltac:(lia)) as Hd.
    rewrite foldl_app, forallb_app. simpl.
    assert ((48 <=? 48 + n mod 10) && (48 + n mod 10 <=? 57) = true) as ->
      by (apply andb_true_intro; split; lia).
    destruct (Z.ltb_spec n 10) as [Hlt|Hge].
    + simpl. rewrite Z.mod_small by lia. split_and!; [lia|done|done].
    + destruct (IH (n / 10)) as (H1 & H2 & _).
      { split; [apply Z.div_pos; lia|].
        rewrite Nat2Z.inj_succ, Z.pow_succ_r in Hn by lia.
        apply Z.div_lt_upper_bound; lia. }
      rewrite H1, H2. split_and!; [lia|done|].
      intros _. by destruct (decimalDigits fuel (n / 10)).
Qed.

(** The provider recognises the names it gives: the name of the terminal
    launched with index [idx] matches the pattern of [onDidOpenTerminal] and
    [adoptExistingTerminals], and the number read back is [idx]. *)
Theorem launched_name_matches idx :
  0 ≤ idx < 2 ^ 53 → matchTerminalName (terminalName idx) = Some idx.
Proof.
  intros Hidx. unfold matchTerminalName, terminalName.
  rewrite take_app_length, drop_app_length.
  destruct (decimalDigits_spec (S (Z.to_nat (Z.log2 idx))) idx) as (H1 & H2 & H3).
  { split; [lia|]. rewrite Nat2Z.inj_succ, Z2Nat.id by apply Z.log2_nonneg.
    destruct (decide (idx = 0)) as [->|]; [done|]. apply Z.log2_spec. lia. }
  fold (decimal idx) in *. rewrite H1, H2.
  rewrite bool_decide_eq_true_2, bool_decide_eq_false_2; [done| |done].
  apply H3. lia.
Qed.

Lemma startTerminalFileScan_tracked E terminal sessionId cwd w :
  is_Some (nonEmpty (getProjectDirPath E cwd)) →
  isTracked terminal (startTerminalFileScan E terminal sessionId cwd w) = true.
Proof.
  intros [p Hp]. unfold startTerminalFileScan, isTracked. rewrite Hp. simpl.
  rewrite lookup_insert_eq. by rewrite bool_decide_eq_true_2.
Qed.

(** A terminal the provider launched is not adopted again: once its scan is
    started, the open event of the terminal changes nothing, whatever its
    name. *)
Theorem launched_terminal_not_adopted E E' terminal sessionId name w :
  is_Some (nonEmpty (getProjectDirPath E (workspaceFolder E))) →
  onDidOpenTerminal E' terminal name (launchNewTerminal E terminal sessionId w)
  = launchNewTerminal E terminal sessionId w.
Proof.
  intros Hp. unfold onDidOpenTerminal, launchNewTerminal.
  rewrite startTerminalFileScan_tracked by done. by destruct (matchTerminalName name).
Qed.

End Hosts.

Section Registry.
Context {RT : NodeRuntime}.

Lemma set_posted_twice ms ms' w : set_posted ms (set_posted ms' w) = set_posted ms w.
Proof. by destruct w. Qed.

Lemma set_posted_same w : set_posted (posted w) w = w.
Proof. by destruct w. Qed.

Lemma emits_spec {A} (f : A → Message) l w :
  foldl (λ w p, emit (f p) w) w l = set_posted (posted w ++ (f <$> l)) w.
Proof.
  revert w. induction l as [|p l IH]; intros w; simpl.
  - by rewrite app_nil_r, set_posted_same.
  - rewrite IH. unfold emit. simpl. by rewrite set_posted_twice, <- app_assoc.
Qed.

(** The messages that replay the state of agent [agentId]. *)
Lemma statuses_spec ids w :
  foldl (λ w agentId,
           match agents w !! agentId with
           | Some agent =>
               let w :=
                 foldl (λ w p, emit (agentToolStart agentId p.1 p.2) w)
                       w (activeToolStatuses agent) in
               if isWaiting agent then emit (agentStatus agentId waiting) w else w
           | None => w
           end) w ids
  = set_posted
      (posted w ++
       ids ≫= (λ i, match agents w !! i with
                    | Some a =>
                        ((λ p, agentToolStart i p.1 p.2) <$> activeToolStatuses a)
                        ++ (if isWaiting a then [agentStatus i waiting] else [])
                    | None => []
                    end)) w.
Proof.
  revert w. induction ids as [|i ids IH]; intros w; simpl.
  - by rewrite app_nil_r, set_posted_same.
  - rewrite IH. destruct (agents w !! i) as [a|] eqn:Ha.
    + rewrite (emits_spec (λ p, agentToolStart i p.1 p.2)).
      destruct (isWaiting a); unfold emit; simpl;
        rewrite ?set_posted_twice, ?app_nil_r, <- ?app_assoc; done.
    + simpl. done.
Qed.

Lemma agentIds_sorted w :
  StronglySorted Z.le (agentIds w) ∧ NoDup (agentIds w).
Proof.
  unfold agentIds. split.
  - apply StronglySorted_merge_sort; apply _.
  - rewrite merge_sort_Permutation. apply NoDup_fst_map_to_list.
Qed.

(** The answer to [webviewReady].  With the view attached the provider
    sends the ids of the registered agents, each once and in ascending
    order, then for each agent in that order a tool start for every open
    tool and, if the agent waits, its waiting status; nothing else in the
    state changes. *)
Theorem existing_agents_resent w :
  webviewView w = true →
  sendExistingAgents w
  = set_posted
      (posted w ++ existingAgents (agentIds w) ::
       agentIds w ≫= (λ i, match agents w !! i with
                           | Some a =>
                               ((λ p, agentToolStart i p.1 p.2) <$> activeToolStatuses a)
                               ++ (if isWaiting a then [agentStatus i waiting] else [])
                           | None => []
                           end)) w
  ∧ StronglySorted Z.le (agentIds w)
  ∧ NoDup (agentIds w)
  ∧ ∀ i, i ∈ agentIds w ↔ is_Some (agents w !! i).
Proof.
  intros Hweb. split_and!; [|apply agentIds_sorted..|intros; apply elem_of_agentIds].
  unfold sendExistingAgents, sendCurrentAgentStatuses. rewrite Hweb. simpl. rewrite Hweb.
  rewrite statuses_spec. unfold emit. simpl.
  by rewrite set_posted_twice, <- app_assoc.
Qed.

Lemma removeAgent_agents j w i :
  agents (removeAgent j w) !! i = if decide (i = j) then None else agents w !! i.
Proof.
  destruct (agents w !! j) as [a|] eqn:Ha.
  - destruct (removeAgent_spec j w a Ha) as (-> & _).
    case_decide; [subst; apply lookup_delete_eq | by apply lookup_delete_ne].
  - unfold removeAgent. rewrite Ha. case_decide; by subst.
Qed.

Lemma close_fold closed ids w :
  NoDup ids →
  let w' :=
    foldl (λ w id,
             match agents w !! id with
             | Some agent =>
                 if bool_decide (terminalRef agent = closed)
                 then emit (agentClosed id) (removeAgent id w)
                 else w
             | None => w
             end) w ids in
  (∀ i, agents w' !! i
        = if bool_decide (i ∈ ids ∧ terminalRef <$> agents w !! i = Some closed)
          then None else agents w !! i)
  ∧ posted w'
    = posted w ++
      (agentClosed <$>
         List.filter (λ i, bool_decide (terminalRef <$> agents w !! i = Some closed)) ids)
  ∧ (∀ f, f ∈ claimedFiles w' ↔
          f ∈ claimedFiles w
          ∧ ¬ ∃ i a, i ∈ ids ∧ agents w !! i = Some a
                     ∧ terminalRef a = closed ∧ jsonlFile a = f)
  ∧ terminalScanTimers w' = terminalScanTimers w
  ∧ terminalProjectDirs w' = terminalProjectDirs w
  ∧ (∀ h t, timers w' !! h = Some t → timers w !! h = Some t).
Proof.
  revert w. induction ids as [|i0 ids IH]; intros w Hnd.
  - simpl. split_and!; [done|by rewrite app_nil_r|set_solver|done..].
  - cbn [foldl]. apply NoDup_cons in Hnd as [Hi0 Hnd].
    set (w1 := match agents w !! i0 with
               | Some agent =>
                   if bool_decide (terminalRef agent = closed)
                   then emit (agentClosed i0) (removeAgent i0 w)
                   else w
               | None => w
               end).
    specialize (IH w1 Hnd). cbv zeta in IH. destruct IH as (I1 & I2 & I3 & I4 & I5 & I6).
    assert (∀ i, agents w1 !! i
                 = if bool_decide (i = i0 ∧ terminalRef <$> agents w !! i = Some closed)
                   then None else agents w !! i) as Hw1.
    { intros i. unfold w1. destruct (agents w !! i0) as [a0|] eqn:Ha0.
      - case_bool_decide as Hc.
        + simpl. rewrite removeAgent_agents. case_decide as Hi.
          * subst i. rewrite Ha0. simpl. subst closed. by rewrite bool_decide_eq_true_2.
          * rewrite bool_decide_eq_false_2; [done|]. naive_solver.
        + rewrite bool_decide_eq_false_2; [done|].
          intros [-> Hx]. rewrite Ha0 in Hx. simpl in Hx. congruence.
      - rewrite bool_decide_eq_false_2; [done|].
        intros [-> Hx]. by rewrite Ha0 in Hx. }
    assert (∀ i, i ∈ ids → agents w1 !! i = agents w !! i) as Hrest.
    { intros i Hi. rewrite Hw1. rewrite bool_decide_eq_false_2; [done|].
      intros [-> _]. done. }
    split_and!.
    + intros i. rewrite I1, Hw1.
      destruct (decide (i = i0)) as [->|Hne].
      * rewrite (bool_decide_eq_false_2 (i0 ∈ ids ∧ _)) by naive_solver.
        destruct (agents w !! i0) as [a0|] eqn:Ha0; simpl.
        -- destruct (decide (terminalRef a0 = closed)) as [<-|Hc].
           ++ rewrite !bool_decide_eq_true_2; [done| |done]. split; [set_solver|done].
           ++ rewrite !bool_decide_eq_false_2; [done| |]; naive_solver.
        -- rewrite !bool_decide_eq_false_2; [done| |]; naive_solver.
      * rewrite (bool_decide_eq_false_2 (i = i0 ∧ _)) by naive_solver.
        destruct (decide (i ∈ ids)) as [Hi|Hi].
        -- erewrite (bool_decide_ext (i ∈ ids ∧ _)); [done|]. set_solver.
        -- rewrite !bool_decide_eq_false_2; [done| |]; set_solver.
    + rewrite I2.
      rewrite (filter_ext_in
                 (λ i, bool_decide (terminalRef <$> agents w1 !! i = Some closed))
                 (λ i, bool_decide (terminalRef <$> agents w !! i = Some closed)))
        by (intros i Hi%list_elem_of_In; by rewrite Hrest).
      cbn [List.filter]. unfold w1. destruct (agents w !! i0) as [a0|] eqn:Ha0; simpl.
      * case_bool_decide as Hc.
        -- rewrite bool_decide_eq_true_2 by congruence. simpl.
           destruct (removeAgent_spec i0 w a0 Ha0) as (_ & _ & _ & _ & _ & _ & _ & _ & ->).
           by rewrite <- app_assoc.
        -- rewrite bool_decide_eq_false_2 by congruence. done.
      * done.
    + intros f. rewrite I3.
      assert (f ∈ claimedFiles w1 ↔
              f ∈ claimedFiles w
              ∧ ¬ ∃ a, agents w !! i0 = Some a ∧ terminalRef a = closed ∧ jsonlFile a = f)
        as ->.
      { unfold w1. destruct (agents w !! i0) as [a0|] eqn:Ha0.
        - case_bool_decide as Hc.
          + simpl. destruct (removeAgent_spec i0 w a0 Ha0) as (_ & -> & _).
            set_unfold. naive_solver.
          + naive_solver.
        - naive_solver. }
      split.
      * intros [[Hf Hn0] Hn]. split; [done|]. intros (i & a & Hi & Ha & Hc & Hfa).
        apply elem_of_cons in Hi as [->|Hi]; [naive_solver|].
        apply Hn. exists i, a. by rewrite Hrest.
      * intros [Hf Hn]. split_and!; [done| |].
        -- intros (a & Ha & Hc & Hfa). apply Hn. exists i0, a. set_solver.
        -- intros (i & a & Hi & Ha & Hc & Hfa). apply Hn. exists i, a.
           rewrite Hrest in Ha by done. set_solver.
    + rewrite I4. unfold w1. destruct (agents w !! i0) as [a0|] eqn:Ha0; [|done].
      case_bool_decide; [|done]. simpl. unfold removeAgent. rewrite Ha0.
      unfold cancelWaitingTimer. by repeat case_match.
    + rewrite I5. unfold w1. destruct (agents w !! i0) as [a0|] eqn:Ha0; [|done].
      case_bool_decide; [|done]. simpl. unfold removeAgent. rewrite Ha0.
      unfold cancelWaitingTimer. by repeat case_match.
    + intros h t Ht. apply I6 in Ht. unfold w1 in Ht.
      destruct (agents w !! i0) as [a0|] eqn:Ha0; [|done].
      case_bool_decide; [|done]. simpl in Ht.
      destruct (removeAgent_spec i0 w a0 Ha0) as (_ & _ & _ & _ & _ & Hx & _).
      by apply Hx in Ht as [? _].
Qed.

(** A terminal is closed.  The agents of that terminal, and only they, are
    removed; one agent-closed message is emitted for each, in ascending
    order of the ids, whether or not a view is attached to the provider; the
    claims of the removed agents, and only they, are released; and the scan
    of the terminal is stopped and forgotten. *)
Theorem terminal_closed closed w :
  let w' := onDidCloseTerminal closed w in
  (∀ i, agents w' !! i
        = if bool_decide (terminalRef <$> agents w !! i = Some closed)
          then None else agents w !! i)
  ∧ posted w'
    = posted w ++
      (agentClosed <$>
         List.filter (λ i, bool_decide (terminalRef <$> agents w !! i = Some closed))
                     (agentIds w))
  ∧ (∀ f, f ∈ claimedFiles w' ↔
          f ∈ claimedFiles w
          ∧ ¬ ∃ i a, agents w !! i = Some a ∧ terminalRef a = closed ∧ jsonlFile a = f)
  ∧ terminalScanTimers w' = delete closed (terminalScanTimers w)
  ∧ terminalProjectDirs w' = delete closed (terminalProjectDirs w)
  ∧ (∀ h t, timers w' !! h = Some t →
       timers w !! h = Some t ∧ terminalScanTimers w !! closed ≠ Some h).
Proof.
  intros w'. subst w'. unfold onDidCloseTerminal.
  destruct (close_fold closed (agentIds w) w) as (F1 & F2 & F3 & F4 & F5 & F6);
    [apply agentIds_sorted|].
  match goal with |- context [cleanupTerminalScan closed ?x] => set (w1 := x) in * end.
  assert (agents (cleanupTerminalScan closed w1) = agents w1
          ∧ posted (cleanupTerminalScan closed w1) = posted w1
          ∧ claimedFiles (cleanupTerminalScan closed w1) = claimedFiles w1
          ∧ terminalScanTimers (cleanupTerminalScan closed w1)
            = delete closed (terminalScanTimers w1)
          ∧ terminalProjectDirs (cleanupTerminalScan closed w1)
            = delete closed (terminalProjectDirs w1)
          ∧ (∀ h t, timers (cleanupTerminalScan closed w1) !! h = Some t →
               timers w1 !! h = Some t ∧ terminalScanTimers w1 !! closed ≠ Some h))
    as (K1 & K2 & K3 & K4 & K5 & K6).
  { unfold cleanupTerminalScan. destruct (terminalScanTimers w1 !! closed) as [h0|]; simpl.
    - split_and!; try done. intros h t [Hne Ht]%lookup_delete_Some. split; congruence.
    - by split_and!. }
  rewrite K1, K2, K3, K4, K5, F4, F5. split_and!; try done.
  - intros i. rewrite F1. destruct (decide (i ∈ agentIds w)) as [Hi|Hi].
    + erewrite bool_decide_ext; [done|]. naive_solver.
    + assert (agents w !! i = None) as Hnone
        by (apply eq_None_not_Some; by rewrite <- elem_of_agentIds).
      rewrite Hnone. simpl. by rewrite !bool_decide_eq_false_2 by naive_solver.
  - intros f. rewrite F3. split; intros [Hf Hn]; (split; [done|]).
    + intros (i & a & Ha & Hc & Hfa). apply Hn. exists i, a. split_and!; try done.
      apply elem_of_agentIds. by eexists.
    + intros (i & a & _ & Ha & Hc & Hfa). apply Hn. by exists i, a.
  - intros h t Ht. apply K6 in Ht as [Ht Hne]. rewrite F4 in Hne. split; [|done].
    by apply F6.
Qed.

Lemma reader_Some (m m' : gmap Z AgentState) i a' :
  reader <$> m' !! i = reader <$> m !! i → m' !! i = Some a' →
  ∃ a, m !! i = Some a ∧ reader a = reader a'.
Proof.
  intros Hr Ha'. rewrite Ha' in Hr. destruct (m !! i) as [a|]; [|done].
  exists a. split; [done|]. simpl in Hr. congruence.
Qed.

Lemma reader_is_Some (m m' : gmap Z AgentState) i :
  reader <$> m' !! i = reader <$> m !! i → is_Some (m' !! i) ↔ is_Some (m !! i).
Proof.
  intros Hr. rewrite <- !(fmap_is_Some reader). by rewrite Hr.
Qed.

(** The book-keeping does not depend on the tools and the waiting flag of
    the agents, on the messages, the clock, the view or the terminal index. *)
Lemma Tidy_same w w' :
  nextAgentId w' = nextAgentId w →
  (∀ i, reader <$> agents w' !! i = reader <$> agents w !! i) →
  claimedFiles w' = claimedFiles w →
  timers w' = timers w → watchers w' = watchers w → nextHandle w' = nextHandle w →
  fileWatchers w' = fileWatchers w → pollingTimers w' = pollingTimers w →
  waitingTimers w' = waitingTimers w →
  terminalScanTimers w' = terminalScanTimers w →
  terminalProjectDirs w' = terminalProjectDirs w →
  Tidy w → Tidy w'.
Proof.
  intros E1 Hr E3 E4 E5 E6 E7 E8 E9 E10 E11 [].
  constructor; rewrite ?E1, ?E3, ?E4, ?E5, ?E6, ?E7, ?E8, ?E9, ?E10, ?E11; try done.
  - intros i a' Ha'. destruct (reader_Some _ _ _ _ (Hr i) Ha') as (a & Ha & Hra).
    injection Hra as <- _ _ _ _ _. eauto.
  - intros f Hf. destruct (tidy_owned0 f Hf) as (i & a & Ha & Hfa).
    destruct (proj2 (reader_is_Some _ _ _ (Hr i))) as [a' Ha']; [by eexists|].
    destruct (reader_Some _ _ _ _ (Hr i) Ha') as (a0 & Ha0 & Hra).
    exists i, a'. split; [done|]. rewrite Ha in Ha0. injection Ha0 as <-.
    by injection Hra as _ _ _ <- _ _.
  - intros i a' Ha'. destruct (reader_Some _ _ _ _ (Hr i) Ha') as (a & Ha & Hra).
    injection Hra as _ _ _ _ <- <-. eauto.
  - intros i Hi. apply tidy_polled0. by apply (reader_is_Some _ _ _ (Hr i)).
  - intros i Hi. apply (reader_is_Some _ _ _ (Hr i)). by apply tidy_polling0.
Qed.

Lemma tidy_id_fun : tidy (λ w, w).
Proof. by intros w _ HT. Qed.

Lemma tidy_compose f g : sound f → tidy f → tidy g → tidy (λ w, g (f w)).
Proof. intros Sf Tf Tg w HI HT. apply Tg; [by apply Sf | by apply Tf]. Qed.

Lemma tidy_foldl {A} (f : World → A → World) (l : list A) :
  (∀ x, sound (λ w, f w x)) → (∀ x, tidy (λ w, f w x)) → tidy (λ w, foldl f w l).
Proof.
  intros Sf Tf. induction l as [|x l IH] using rev_ind; [apply tidy_id_fun|].
  intros w HI HT. rewrite foldl_snoc. apply (Tf x).
  - by apply (sound_foldl f l Sf).
  - by apply IH.
Qed.

Lemma tidy_same (f : World → World) :
  (∀ w, nextAgentId (f w) = nextAgentId w) → (∀ w, agents (f w) = agents w) →
  (∀ w, claimedFiles (f w) = claimedFiles w) → (∀ w, timers (f w) = timers w) →
  (∀ w, watchers (f w) = watchers w) → (∀ w, nextHandle (f w) = nextHandle w) →
  (∀ w, fileWatchers (f w) = fileWatchers w) →
  (∀ w, pollingTimers (f w) = pollingTimers w) →
  (∀ w, waitingTimers (f w) = waitingTimers w) →
  (∀ w, terminalScanTimers (f w) = terminalScanTimers w) →
  (∀ w, terminalProjectDirs (f w) = terminalProjectDirs w) →
  tidy f.
Proof.
  intros ? Ha ? ? ? ? ? ? ? ? ? w _ HT. apply (Tidy_same w); try done.
  intros i. by rewrite Ha.
Qed.

Lemma Tidy_emit m w : Tidy w → Tidy (emit m w).
Proof. by apply Tidy_same. Qed.

Lemma Tidy_post m w : Tidy w → Tidy (post m w).
Proof. unfold post. destruct (webviewView w); [apply Tidy_emit | done]. Qed.

(** Two handles kept for different purposes are different. *)
Lemma kept_callback h w :
  Tidy w → kept h w →
  ∃ t, timers w !! h = Some t
       ∧ ((∃ i, pollingTimers w !! i = Some h ∧ callback t = PollTick i)
          ∨ (∃ i, waitingTimers w !! i = Some h ∧ callback t = WaitingFire i)
          ∨ (∃ terminal sessionId, terminalScanTimers w !! terminal = Some h
                                   ∧ callback t = ScanTick terminal sessionId)).
Proof.
  intros [] [[i Hi]|[[i Hi]|[terminal Hi]]].
  - destruct (tidy_polled0 i) as (h' & t & Hh' & Ht & Hcb); [apply tidy_polling0; by eexists|].
    rewrite Hi in Hh'. injection Hh' as <-. exists t. split; [done|]. left. eauto.
  - destruct (tidy_waiting0 i h Hi) as (t & Ht & Hcb). exists t. split; [done|].
    right. left. eauto.
  - destruct (tidy_scanning0 terminal h Hi) as (t & sid & Ht & Hcb). exists t.
    split; [done|]. right. right. eauto.
Qed.

(** Timers may be rescheduled, and those under no kept handle may go. *)
Lemma Tidy_timers w ts :
  (∀ h t', ts !! h = Some t' →
     ∃ t, timers w !! h = Some t ∧ callback t = callback t' ∧ period t = period t') →
  (∀ h t, timers w !! h = Some t → kept h w →
     ∃ t', ts !! h = Some t' ∧ callback t' = callback t) →
  Tidy w → Tidy (set_timers ts w).
Proof.
  intros Hsub Hkept HT. pose proof HT as [].
  constructor; simpl; try done.
  - intros h [[t' Ht']|Hw].
    + destruct (Hsub h t' Ht') as (t & Ht & _). apply tidy_fresh0. left. by eexists.
    + apply tidy_fresh0. by right.
  - intros h t' Ht'. destruct (Hsub h t' Ht') as (t & Ht & <- & <-). eauto.
  - intros i Hi. destruct (tidy_polled0 i Hi) as (h & t & Hh & Ht & Hcb).
    destruct (Hkept h t Ht) as (t' & Ht' & Hcb'); [left; eauto|].
    exists h, t'. split_and!; [done|done|congruence].
  - intros i h Hh. destruct (tidy_waiting0 i h Hh) as (t & Ht & Hcb).
    destruct (Hkept h t Ht) as (t' & Ht' & Hcb'); [right; left; eauto|].
    exists t'. split; [done|congruence].
  - intros terminal h Hh. destruct (tidy_scanning0 terminal h Hh) as (t & sid & Ht & Hcb).
    destruct (Hkept h t Ht) as (t' & Ht' & Hcb'); [right; right; eauto|].
    exists t', sid. split; [done|congruence].
Qed.

Lemma Tidy_clearTimer h w : ¬ kept h w → Tidy w → Tidy (clearTimer h w).
Proof.
  intros Hh. apply Tidy_timers.
  - intros h' t' [_ Ht']%lookup_delete_Some. by exists t'.
  - intros h' t Ht Hk. exists t. split; [|done]. apply lookup_delete_Some.
    split; [|done]. by intros <-.
Qed.

Lemma Tidy_setTimer t w :
  period t = periodOf (callback t) → Tidy w → Tidy (setTimer t w).
Proof.
  intros Hp []. unfold setTimer.
  assert (∀ h t0, timers w !! h = Some t0 → <[nextHandle w := t]> (timers w) !! h = Some t0)
    as Hold.
  { intros h t0 Ht0. rewrite lookup_insert_ne; [done|].
    intros <-. assert (nextHandle w < nextHandle w); [|lia].
    apply tidy_fresh0. left. by eexists. }
  constructor; simpl; try done.
  - intros h [[t' [[<- <-]|[_ Ht']]%lookup_insert_Some]|Hw]; [lia| |].
    + assert (h < nextHandle w); [|lia]. apply tidy_fresh0. left. by eexists.
    + assert (h < nextHandle w); [|lia]. apply tidy_fresh0. by right.
  - intros h t' [[<- <-]|[_ Ht']]%lookup_insert_Some; eauto.
  - intros i Hi. destruct (tidy_polled0 i Hi) as (h & t0 & ? & ? & ?). exists h, t0. eauto.
  - intros i h Hh. destruct (tidy_waiting0 i h Hh) as (t0 & ? & ?). exists t0. eauto.
  - intros terminal h Hh. destruct (tidy_scanning0 terminal h Hh) as (t0 & sid & ? & ?).
    exists t0, sid. eauto.
Qed.

Lemma Tidy_waitingTimers_delete j w :
  Tidy w → Tidy (set_waitingTimers (delete j (waitingTimers w)) w).
Proof.
  intros []. constructor; simpl; try done.
  intros i h [_ Hh]%lookup_delete_Some. eauto.
Qed.

Lemma Tidy_waitingTimers_insert j h t w :
  timers w !! h = Some t → callback t = WaitingFire j →
  Tidy w → Tidy (set_waitingTimers (<[j := h]> (waitingTimers w)) w).
Proof.
  intros Ht Hcb []. constructor; simpl; try done.
  intros i h' [[<- <-]|[_ Hh]]%lookup_insert_Some; eauto.
Qed.

Lemma Tidy_cancelWaitingTimer j w : Tidy w → Tidy (cancelWaitingTimer j w).
Proof.
  intros HT. unfold cancelWaitingTimer.
  destruct (waitingTimers w !! j) as [h|] eqn:Hj; [|done].
  destruct (tidy_waiting _ HT j h Hj) as (t & Ht & Hcb).
  apply (Tidy_same (clearTimer h (set_waitingTimers (delete j (waitingTimers w)) w)));
    try done.
  pose proof (Tidy_waitingTimers_delete j w HT) as HT1.
  apply Tidy_clearTimer; [|done].
  intros Hk. destruct (kept_callback h _ HT1 Hk) as (t' & Ht' & Hcase).
  simpl in Ht'. rewrite Ht in Ht'. injection Ht' as <-.
  destruct Hcase as [(i & _ & Hc)|[(i & Hi & Hc)|(terminal & sid & _ & Hc)]];
    [congruence| |congruence].
  simpl in Hi. apply lookup_delete_Some in Hi as [Hne _]. congruence.
Qed.

Lemma Tidy_startWaitingTimer j delayMs w : Tidy w → Tidy (startWaitingTimer j delayMs w).
Proof.
  intros HT. unfold startWaitingTimer.
  pose proof (Tidy_cancelWaitingTimer j w HT) as HT1.
  revert HT1. generalize (cancelWaitingTimer j w). clear. intros w HT.
  eapply (Tidy_waitingTimers_insert j (nextHandle w)
            {| due := clock w + delayMs; period := None; callback := WaitingFire j |}
            (setTimeout (WaitingFire j) delayMs w)).
  - simpl. apply lookup_insert_eq.
  - done.
  - by apply Tidy_setTimer.
Qed.

(** ** The interpreter and the reader *)

Lemma Tidy_updAgent j f w :
  (∀ a, reader (f a) = reader a) → Tidy w → Tidy (updAgent j f w).
Proof.
  intros Hr. apply Tidy_same; try done.
  intros i. simpl. rewrite lookup_alter. case_decide; [subst|done].
  destruct (agents w !! i); simpl; [by rewrite Hr | done].
Qed.

Lemma Tidy_clearAgentActivity j w : Tidy w → Tidy (clearAgentActivity j w).
Proof.
  intros HT. unfold clearAgentActivity. destruct (agents w !! j); [|done].
  by repeat first [apply Tidy_post | apply Tidy_updAgent; [done|]].
Qed.

Lemma Tidy_turnCompleted j w : Tidy w → Tidy (turnCompleted j w).
Proof.
  intros HT. unfold turnCompleted.
  apply Tidy_post, Tidy_updAgent; [done|]. by apply Tidy_cancelWaitingTimer.
Qed.

Lemma Tidy_toolUseBlock j block w w' :
  toolUseBlock j block w = Some w' → Tidy w → Tidy w'.
Proof.
  unfold toolUseBlock. intros Hw' HT.
  destruct (_ && _); [|by injection Hw' as <-].
  destruct (formatToolStatus _ _) as [status|]; [|done].
  destruct (toStr _); [|done]. injection Hw' as <-.
  by repeat first [apply Tidy_post | apply Tidy_updAgent; [done|]].
Qed.

Lemma Tidy_toolUseLoop j blocks w : Tidy w → Tidy (toolUseLoop j blocks w).
Proof.
  revert w. induction blocks as [|block blocks IH]; intros w HT; [done|]. simpl.
  destruct (toolUseBlock j block w) as [w'|] eqn:Hb; [|by destruct block].
  pose proof (Tidy_toolUseBlock _ _ _ _ Hb HT). destruct block; auto.
Qed.

Lemma Tidy_toolResultBlock j block w w' :
  toolResultBlock j block w = Some w' → Tidy w → Tidy w'.
Proof.
  unfold toolResultBlock. intros Hw' HT.
  destruct (_ && _); [|by injection Hw' as <-].
  destruct (toStr _); [|done]. injection Hw' as <-.
  apply Tidy_setTimer; [done|].
  by repeat (apply Tidy_updAgent; [done|]).
Qed.

Lemma Tidy_toolResultLoop j blocks w : Tidy w → Tidy (toolResultLoop j blocks w).
Proof.
  revert w. induction blocks as [|block blocks IH]; intros w HT; [done|]. simpl.
  destruct (toolResultBlock j block w) as [w'|] eqn:Hb; [|by destruct block].
  pose proof (Tidy_toolResultBlock _ _ _ _ Hb HT). destruct block; auto.
Qed.

Lemma Tidy_processRecord j record w : Tidy w → Tidy (processRecord j record w).
Proof.
  intros HT. unfold processRecord.
  destruct record; try done;
  repeat match goal with
  | |- Tidy (match ?x with _ => _ end) => destruct x
  | |- Tidy (if ?x then _ else _) => destruct x
  | |- Tidy (toolUseLoop _ _ _) => apply Tidy_toolUseLoop
  | |- Tidy (toolResultLoop _ _ _) => apply Tidy_toolResultLoop
  | |- Tidy (post _ _) => apply Tidy_post
  | |- Tidy (updAgent _ _ _) => apply Tidy_updAgent; [done|]
  | |- Tidy (clearAgentActivity _ _) => apply Tidy_clearAgentActivity
  | |- Tidy (cancelWaitingTimer _ _) => apply Tidy_cancelWaitingTimer
  | |- Tidy (startWaitingTimer _ _ _) => apply Tidy_startWaitingTimer
  | |- Tidy (turnCompleted _ _) => apply Tidy_turnCompleted
  end; done.
Qed.

Lemma Tidy_processTranscriptLine j line w :
  Tidy w → Tidy (processTranscriptLine j line w).
Proof.
  intros HT. unfold processTranscriptLine.
  destruct (agents w !! j); [|done]. destruct (JSON_parse line); [|done].
  by apply Tidy_processRecord.
Qed.

(** The read itself: the new carry has no line terminator, and the new
    offset is the size of the file. *)
Lemma Tidy_pump E j a a' lines w :
  agents w !! j = Some a → pump E a = Some (a', lines) →
  Tidy w → Tidy (set_agents (<[j := a']> (agents w)) w).
Proof.
  intros Ha Hp HT. pose proof HT as [].
  apply pump_Some in Hp as (stat & _ & Hlt & -> & _).
  destruct (tidy_id0 j a Ha) as [Hid Hpos]. destruct (tidy_carry0 j a Ha) as [_ Hoff].
  constructor; simpl; try done.
  - intros i a' [[<- <-]|[_ Ha']]%lookup_insert_Some; eauto.
  - intros f Hf. destruct (tidy_owned0 f Hf) as (i & b & Hb & Hfb).
    destruct (decide (i = j)) as [->|Hne].
    + eexists j, _. rewrite lookup_insert_eq. split; [done|]. simpl. congruence.
    + exists i, b. by rewrite lookup_insert_ne.
  - intros i a' [[<- <-]|[_ Ha']]%lookup_insert_Some; [|eauto]. simpl.
    split; [apply last_split_no_sep | lia].
  - intros i Hi. apply tidy_polled0.
    apply lookup_insert_is_Some in Hi as [<-|[_ Hi]]; [by eexists | done].
  - intros i Hi. apply lookup_insert_is_Some'. right. by apply tidy_polling0.
Qed.

Lemma tidy_readNewLines E j : tidy (readNewLines E j).
Proof.
  intros w _ HT. unfold readNewLines. destruct (agents w !! j) as [a|] eqn:Ha; [|done].
  destruct (pump E a) as [[a' lines]|] eqn:Hp; [|done].
  pose proof (Tidy_pump E j a a' lines w Ha Hp HT) as HT1.
  revert HT1. generalize (set_agents (<[j:=a']> (agents w)) w). generalize (deliverable lines).
  clear. intros ls. induction ls as [|l ls IH]; intros w HT; [done|]. simpl.
  by apply IH, Tidy_processTranscriptLine.
Qed.

(** ** Agents *)

Lemma Tidy_registerAgent E terminal filePath projectDir w :
  Inv w → Tidy w → Tidy (registerAgent E terminal filePath projectDir w).
Proof.
  intros HI HT. pose proof HT as [].
  assert (agents w !! nextAgentId w = None) as Hnew.
  { destruct (agents w !! nextAgentId w) as [a|] eqn:Ha; [|done].
    pose proof (inv_ids _ HI _ _ Ha). lia. }
  assert (pollingTimers w !! nextAgentId w = None) as Hpt.
  { apply eq_None_not_Some. intros Hp%tidy_polling0. rewrite Hnew in Hp. by destruct Hp. }
  assert (fileWatchers w !! nextAgentId w = None) as Hfw.
  { destruct (fileWatchers w !! nextAgentId w) as [h|] eqn:Hh; [|done].
    apply tidy_watched0 in Hh. destruct (inv_watch _ HI _ _ Hh) as [_ Hx].
    rewrite Hnew in Hx. by destruct Hx. }
  assert (∀ h, is_Some (timers w !! h) → h < nextHandle w) as Hft by eauto.
  assert (∀ h, is_Some (watchers w !! h) → h < nextHandle w) as Hfwt by eauto.
  unfold registerAgent, startFileWatching, setInterval, setTimer, post, emit.
  destruct (watchable E filePath), (webviewView _); simpl.
  all: constructor; simpl.
  all: try (intros i a [[<- <-]|[_ Ha]]%lookup_insert_Some; simpl; by eauto with lia).
  all: try (intros i a [[<- <-]|[_ Ha]]%lookup_insert_Some;
    [simpl; split; [apply not_elem_of_nil | lia] | by eauto]).
  all: try lia.
  all: try done.
  all: try (intros f [->%elem_of_singleton|Hf]%elem_of_union;
    [eexists _, _; by rewrite lookup_insert_eq|];
    destruct (tidy_owned0 f Hf) as (i & a & Ha & Hfa); exists i, a;
    rewrite lookup_insert_ne; [done|congruence]).
  all: try (intros h [[t [[<- <-]|[_ Ht]]%lookup_insert_Some]
                     |[i [[<- <-]|[_ Hi]]%lookup_insert_Some]];
    try lia; (assert (h < nextHandle w) by eauto); lia).
  all: try (intros h [[t [[<- <-]|[_ Ht]]%lookup_insert_Some]|Hw];
    try lia; (assert (h < nextHandle w) by eauto); lia).
  all: try (intros h t [[<- <-]|[_ Ht]]%lookup_insert_Some; by eauto).
  all: try (intros i h [[<- <-]|[Hne Hh]]%lookup_insert_Some;
    [by rewrite lookup_insert_eq|];
    rewrite lookup_insert_ne; [by eauto|];
    intros <-; apply tidy_watched0 in Hh;
    assert (nextHandle w < nextHandle w) by eauto; lia).
  all: try (intros i [<-|[Hne Hi]]%lookup_insert_is_Some;
    [eexists _, _; rewrite !lookup_insert_eq; by split_and!|];
    destruct (tidy_polled0 i Hi) as (h & t & Hh & Ht & Hcb); exists h, t;
    rewrite !lookup_insert_ne; [done| |done];
    intros <-; (assert (nextHandle w < nextHandle w ∨ nextHandle w + 1 < nextHandle w)
                  by eauto with lia); lia).
  all: try (intros i [<-|[Hne Hi]]%lookup_insert_is_Some;
    apply lookup_insert_is_Some'; by eauto).
  all: try (intros i h Hh; destruct (tidy_waiting0 i h Hh) as (t & Ht & Hcb);
    exists t; rewrite lookup_insert_ne; [done|];
    intros <-; (assert (nextHandle w < nextHandle w ∨ nextHandle w + 1 < nextHandle w)
                  by eauto with lia); lia).
  all: try (intros tm h Hh; destruct (tidy_scanning0 tm h Hh) as (t & sid & Ht & Hcb);
    exists t, sid; rewrite lookup_insert_ne; [done|];
    intros <-; (assert (nextHandle w < nextHandle w ∨ nextHandle w + 1 < nextHandle w)
                  by eauto with lia); lia).
Qed.

Lemma tidy_createAgentFromFile E terminal filePath projectDir w :
  filePath ∉ claimedFiles w → Inv w → Tidy w →
  Tidy (createAgentFromFile E terminal filePath projectDir w).
Proof.
  intros Hfree HI HT. rewrite createAgentFromFile_register.
  apply tidy_readNewLines; [by apply Inv_registerAgent | by apply Tidy_registerAgent].
Qed.

Lemma removeAgent_hosts j w :
  nextHandle (removeAgent j w) = nextHandle w
  ∧ terminalScanTimers (removeAgent j w) = terminalScanTimers w
  ∧ terminalProjectDirs (removeAgent j w) = terminalProjectDirs w
  ∧ nextTerminalIndex (removeAgent j w) = nextTerminalIndex w
  ∧ webviewView (removeAgent j w) = webviewView w
  ∧ clock (removeAgent j w) = clock w.
Proof.
  unfold removeAgent, cancelWaitingTimer. by repeat case_match.
Qed.

Lemma tidy_removeAgent j : tidy (removeAgent j).
Proof.
  intros w HI HT. destruct (agents w !! j) as [a|] eqn:Ha;
    [|unfold removeAgent; by rewrite Ha].
  destruct (removeAgent_spec j w a Ha) as (H1 & H2 & H3 & H4 & H5 & H6 & H7 & H8 & _).
  destruct (removeAgent_hosts j w) as (G1 & G2 & G3 & _).
  pose proof HT as [].
  assert (∀ i h t, i ≠ j → timers w !! h = Some t →
            callback t = PollTick i ∨ callback t = WaitingFire i
            ∨ (∃ tm sid, callback t = ScanTick tm sid) →
            timers (removeAgent j w) !! h = Some t) as Hkeep.
  { intros i h t Hne Ht Hcb. apply H6. split_and!; [done| |].
    - intros Hp. destruct (tidy_polled0 j) as (h' & t' & Hh' & Ht' & Hcb'); [by eexists|].
      rewrite Hp in Hh'. injection Hh' as <-. rewrite Ht in Ht'. injection Ht' as <-.
      destruct Hcb as [?|[?|(? & ? & ?)]]; congruence.
    - intros Hp. destruct (tidy_waiting0 j h Hp) as (t' & Ht' & Hcb').
      rewrite Ht in Ht'. injection Ht' as <-.
      destruct Hcb as [?|[?|(? & ? & ?)]]; congruence. }
  constructor; rewrite ?H1, ?H2, ?H3, ?H4, ?H5, ?H8, ?G1, ?G2, ?G3; try done.
  - intros i b [_ Hb]%lookup_delete_Some. eauto.
  - intros f [Hf Hnf]%elem_of_difference.
    destruct (tidy_owned0 f Hf) as (i & b & Hb & Hfb). exists i, b. split; [|done].
    apply lookup_delete_Some. split; [|done]. intros <-.
    apply Hnf, elem_of_singleton. congruence.
  - intros i b [_ Hb]%lookup_delete_Some. eauto.
  - intros h [[t Ht]|[i Hi]].
    + apply H6 in Ht as [Ht _]. apply tidy_fresh0. left. by eexists.
    + apply H7 in Hi as [Hi _]. apply tidy_fresh0. right. by eexists.
  - intros h t Ht. apply H6 in Ht as [Ht _]. eauto.
  - intros i h [Hne Hh]%lookup_delete_Some. apply H7. split; [by eauto|].
    intros Hj. apply tidy_watched0 in Hh, Hj. congruence.
  - intros i [b [Hne Hb]%lookup_delete_Some].
    destruct (tidy_polled0 i) as (h & t & Hh & Ht & Hcb); [by eexists|].
    exists h, t. split_and!; [by apply lookup_delete_Some| |done].
    apply (Hkeep i); auto.
  - intros i [h [Hne Hh]%lookup_delete_Some]. apply lookup_delete_is_Some.
    split; [done|]. apply tidy_polling0. by eexists.
  - intros i h [Hne Hh]%lookup_delete_Some.
    destruct (tidy_waiting0 i h Hh) as (t & Ht & Hcb). exists t. split; [|done].
    apply (Hkeep i); auto.
  - intros tm h Hh. destruct (tidy_scanning0 tm h Hh) as (t & sid & Ht & Hcb).
    exists t, sid. split; [|done]. apply (Hkeep (j + 1)); [lia|done|eauto].
Qed.

Lemma tidy_claim E terminal projectDir file (guard : World → bool) :
  (∀ w, guard w = true → file ∉ claimedFiles w) →
  tidy (λ w, if guard w then createAgentFromFile E terminal file projectDir w else w).
Proof.
  intros Hg w HI HT. destruct (guard w) eqn:Hgw; [|done].
  apply tidy_createAgentFromFile; auto.
Qed.

Lemma tidy_scanForNewFiles E terminal sessionId : tidy (scanForNewFiles E terminal sessionId).
Proof.
  unfold scanForNewFiles. intros w HI HT.
  destruct (nonEmpty (terminalProjectDirs w !! terminal)) as [projectDir|]; [|done].
  revert w HI HT.
  apply (tidy_compose
           (λ w, match nonEmpty sessionId with
                 | Some sessionId =>
                     if existsSync E (path_join [projectDir; sessionId ++ lit ".jsonl"])
                        && negb (bool_decide
                             (path_join [projectDir; sessionId ++ lit ".jsonl"] ∈ claimedFiles w))
                     then createAgentFromFile E terminal
                            (path_join [projectDir; sessionId ++ lit ".jsonl"]) projectDir w
                     else w
                 | None => w
                 end)
           (λ w, match readdirSync E projectDir with
                 | None => w
                 | Some names => foldl _ w _
                 end)).
  - destruct (nonEmpty sessionId) as [sid|]; [|apply sound_id].
    apply (sound_claim E terminal projectDir _ (λ w, existsSync E _ && negb (bool_decide (_ ∈ claimedFiles w)))).
    intros w [_ Hc%negb_true_iff%bool_decide_eq_false]%andb_prop. done.
  - destruct (nonEmpty sessionId) as [sid|]; [|apply tidy_id_fun].
    apply (tidy_claim E terminal projectDir _ (λ w, existsSync E _ && negb (bool_decide (_ ∈ claimedFiles w)))).
    intros w [_ Hc%negb_true_iff%bool_decide_eq_false]%andb_prop. done.
  - destruct (readdirSync E projectDir) as [names|]; [|apply tidy_id_fun].
    apply tidy_foldl; intros file.
    + apply (sound_claim E terminal projectDir file
               (λ w, negb (bool_decide (file ∈ claimedFiles w)) && isFileRecent E file)).
      intros w [Hc%negb_true_iff%bool_decide_eq_false _]%andb_prop. done.
    + apply (tidy_claim E terminal projectDir file
               (λ w, negb (bool_decide (file ∈ claimedFiles w)) && isFileRecent E file)).
      intros w [Hc%negb_true_iff%bool_decide_eq_false _]%andb_prop. done.
Qed.

(** ** Terminals *)

Lemma tidy_startTerminalFileScan E terminal sessionId cwd :
  tidy (startTerminalFileScan E terminal sessionId cwd).
Proof.
  intros w _ HT. unfold startTerminalFileScan.
  destruct (nonEmpty (getProjectDirPath E cwd)) as [projectDir|]; [|done].
  pose proof (Tidy_setTimer {| due := clock w + 1000; period := Some 1000;
                               callback := ScanTick terminal sessionId |} w eq_refl HT) as [].
  unfold setInterval. unfold setTimer in *. simpl in *.
  constructor; simpl; try done.
  - intros tm h [[<- <-]|[_ Hh]]%lookup_insert_Some; [|by eauto].
    eexists _, _. by rewrite lookup_insert_eq.
  - intros tm. rewrite !lookup_insert_is_Some. by rewrite tidy_dirs0.
Qed.

Lemma tidy_cleanupTerminalScan terminal : tidy (cleanupTerminalScan terminal).
Proof.
  intros w _ HT. unfold cleanupTerminalScan.
  assert (Tidy (set_terminalProjectDirs (delete terminal (terminalProjectDirs w))
                 (set_terminalScanTimers (delete terminal (terminalScanTimers w)) w)))
    as HT1.
  { pose proof HT as []. constructor; simpl; try done.
    - intros tm h [_ Hh]%lookup_delete_Some. eauto.
    - intros tm. rewrite !lookup_delete_is_Some. by rewrite tidy_dirs0. }
  destruct (terminalScanTimers w !! terminal) as [h|] eqn:Hh; [|done].
  destruct (tidy_scanning _ HT terminal h Hh) as (t & sid & Ht & Hcb).
  eapply (Tidy_same (clearTimer h _)); [..|apply Tidy_clearTimer; [|exact HT1]]; try done.
  intros Hk. destruct (kept_callback h _ HT1 Hk) as (t' & Ht' & Hcase).
  simpl in Ht'. rewrite Ht in Ht'. injection Ht' as <-.
  destruct Hcase as [(i & _ & Hc)|[(i & _ & Hc)|(tm & sid' & Hi & Hc)]];
    [congruence|congruence|].
  simpl in Hi. apply lookup_delete_Some in Hi as [Hne _]. congruence.
Qed.

Lemma tidy_noteTerminalIndex idx : tidy (noteTerminalIndex idx).
Proof. apply tidy_same; intros w; unfold noteTerminalIndex; by destruct (_ <=? _). Qed.

Lemma tidy_adoptExistingTerminals E terminals : tidy (adoptExistingTerminals E terminals).
Proof.
  apply tidy_foldl; intros t; (destruct (matchTerminalName t.2); [|apply sound_id || apply tidy_id_fun]).
  - apply (sound_compose (noteTerminalIndex _) (startTerminalFileScan _ _ _ _));
      [apply sound_noteTerminalIndex | apply sound_startTerminalFileScan].
  - apply (tidy_compose (noteTerminalIndex _) (startTerminalFileScan _ _ _ _));
      [apply sound_noteTerminalIndex | apply tidy_noteTerminalIndex
      | apply tidy_startTerminalFileScan].
Qed.

Lemma tidy_launchNewTerminal E terminal sessionId :
  tidy (launchNewTerminal E terminal sessionId).
Proof.
  intros w HI HT. unfold launchNewTerminal.
  apply tidy_startTerminalFileScan; [by apply (Inv_same w) | by apply (Tidy_same w)].
Qed.

Lemma tidy_onDidOpenTerminal E terminal name : tidy (onDidOpenTerminal E terminal name).
Proof.
  intros w HI HT. unfold onDidOpenTerminal.
  destruct (matchTerminalName name); [|done]. destruct (negb _); [|done].
  apply tidy_startTerminalFileScan; [by apply sound_noteTerminalIndex
                                    | by apply tidy_noteTerminalIndex].
Qed.

Lemma sound_closeAgent closed i :
  sound (λ w, match agents w !! i with
              | Some agent =>
                  if bool_decide (terminalRef agent = closed)
                  then emit (agentClosed i) (removeAgent i w)
                  else w
              | None => w
              end).
Proof.
  intros w HI.
  destruct (agents w !! i) as [a|] eqn:Ha; [|by apply sound_id].
  case_bool_decide; [|by apply sound_id].
  destruct (sound_removeAgent i w HI) as [HI1 He1]. split; [by apply Inv_emit|].
  destruct He1 as (Hn & Hag & ms & Hms & Hlate). split_and!; simpl; [done|done|].
  exists (ms ++ [agentClosed i]). split; [by rewrite Hms, app_assoc|].
  intros k Hk. apply Forall_app. split; [by apply Hlate|].
  apply Forall_singleton. intros Hab. simpl in Hab. subst k.
  destruct Hk as [_ Hk]. congruence.
Qed.

Lemma tidy_onDidCloseTerminal closed : tidy (onDidCloseTerminal closed).
Proof.
  unfold onDidCloseTerminal.
  apply (tidy_compose (λ w, foldl _ w (agentIds w)) (cleanupTerminalScan closed));
    [| |apply tidy_cleanupTerminalScan].
  - intros w. generalize (agentIds w). intros ids. revert w.
    apply sound_foldl. intros i. apply sound_closeAgent.
  - intros w. generalize (agentIds w). intros ids. revert w.
    apply tidy_foldl; [intros i; apply sound_closeAgent|].
    intros i w HI HT. destruct (agents w !! i) as [a|]; [|done].
    destruct (bool_decide _); [|done]. by apply Tidy_emit, tidy_removeAgent.
Qed.

Lemma tidy_sendExistingAgents : tidy sendExistingAgents.
Proof.
  intros w _ HT. unfold sendExistingAgents, sendCurrentAgentStatuses.
  destruct (webviewView w) eqn:Hweb; [|done]. simpl. rewrite Hweb.
  rewrite statuses_spec. by apply (Tidy_same w).
Qed.

Lemma tidy_dispose : tidy dispose.
Proof.
  unfold dispose.
  apply (tidy_compose (λ w, foldl _ w (agentIds w))
           (λ w, foldl _ w (map_to_list (terminalScanTimers w)).*1)).
  - intros w. generalize (agentIds w). intros ids. revert w.
    apply sound_foldl. intros i. apply sound_removeAgent.
  - intros w. generalize (agentIds w). intros ids. revert w.
    apply tidy_foldl; intros i; [apply sound_removeAgent | apply tidy_removeAgent].
  - intros w. generalize ((map_to_list (terminalScanTimers w)).*1). intros ts. revert w.
    apply tidy_foldl; intros t; [apply sound_cleanupTerminalScan | apply tidy_cleanupTerminalScan].
Qed.

(** ** Timers, and the event loop *)

Lemma Tidy_reschedule h t due' w :
  timers w !! h = Some t → Tidy w →
  Tidy (set_timers (<[h := {| due := due'; period := period t; callback := callback t |}]>
                      (timers w)) w).
Proof.
  intros Ht. apply Tidy_timers.
  - intros h' t' [[<- <-]|[_ Ht']]%lookup_insert_Some; [by exists t | by exists t'].
  - intros h' t0 Ht0 _. destruct (decide (h' = h)) as [->|Hne].
    + rewrite lookup_insert_eq. eexists. split; [done|]. simpl. congruence.
    + rewrite lookup_insert_ne by done. by exists t0.
Qed.

Lemma tidy_fireTimer E h : tidy (fireTimer E h).
Proof.
  intros w HI HT. unfold fireTimer.
  destruct (timers w !! h) as [t|] eqn:Ht; [|done].
  destruct (clock w <? due t); [done|].
  pose proof (tidy_period _ HT h t Ht) as Hper.
  destruct (callback t) as [terminal sessionId|j|j|j toolId] eqn:Hcb;
    simpl in Hper; rewrite Hper; simpl runCallback.
  - apply tidy_scanForNewFiles.
    + apply Inv_timers; [|done].
      intros h' t' [[<- <-]|[_ Ht']]%lookup_insert_Some; right;
        [exists t; simpl; by rewrite Hcb, Hper | by exists t'].
    + rewrite <- Hcb, <- Hper. by apply Tidy_reschedule.
  - assert (Inv (set_timers (<[h := {| due := clock w + 2000; period := Some 2000;
                                       callback := PollTick j |}]> (timers w)) w)) as HI1.
    { apply Inv_timers; [|done].
      intros h' t' [[<- <-]|[_ Ht']]%lookup_insert_Some; right;
        [exists t; simpl; by rewrite Hcb, Hper | by exists t']. }
    unfold pollTick. simpl.
    destruct (inv_poll _ HI h t j Ht Hcb) as [_ [a Ha]]. rewrite Ha.
    apply tidy_readNewLines; [done|].
    rewrite <- Hcb, <- Hper. by apply Tidy_reschedule.
  - destruct (inv_wait _ HI h t j Ht Hcb) as (Hw & Hj & _).
    unfold waitingTimerFired.
    apply Tidy_post, Tidy_updAgent; [done|].
    eapply (Tidy_same (cancelWaitingTimer j w));
      [..|by apply Tidy_cancelWaitingTimer]; unfold cancelWaitingTimer; rewrite Hw; done.
  - unfold toolDoneFired. apply Tidy_post, Tidy_clearTimer; [|done].
    intros Hk. destruct (kept_callback h _ HT Hk) as (t' & Ht' & Hcase).
    rewrite Ht in Ht'. injection Ht' as <-.
    destruct Hcase as [(i & _ & Hc)|[(i & _ & Hc)|(tm & sid' & _ & Hc)]]; congruence.
Qed.

Lemma tidy_step ev : tidy (λ w, step w ev).
Proof.
  destruct ev; simpl.
  - apply (tidy_compose (set_webviewView true) (adoptExistingTerminals _ _)).
    + by apply sound_same.
    + by apply tidy_same.
    + apply tidy_adoptExistingTerminals.
  - apply tidy_launchNewTerminal.
  - apply tidy_sendExistingAgents.
  - apply tidy_onDidOpenTerminal.
  - apply tidy_onDidCloseTerminal.
  - apply tidy_fireTimer.
  - intros w HI HT. destruct (watchers w !! watcher); [by apply tidy_readNewLines | done].
  - by apply tidy_same.
  - apply tidy_dispose.
Qed.

Lemma Tidy_init : Tidy init.
Proof.
  constructor; unfold init; simpl; try done.
  - intros h [[? ?]|[? ?]]; done.
  - intros ? [? ?]; done.
  - intros ? [? ?]; done.
  - intros tm. split; intros [? ?]; done.
Qed.

Lemma Tidy_run trace : Tidy (run trace init).
Proof.
  unfold run. induction trace as [|ev trace IH] using rev_ind; [apply Tidy_init|].
  rewrite foldl_snoc. apply tidy_step; [apply Inv_run | done].
Qed.

(** ** What disposal leaves *)

Lemma removeAll_spec ids w :
  (∀ i, agents (foldl (λ w id, removeAgent id w) w ids) !! i
        = if bool_decide (i ∈ ids) then None else agents w !! i)
  ∧ posted (foldl (λ w id, removeAgent id w) w ids) = posted w.
Proof.
  revert w. induction ids as [|i0 ids IH]; intros w; [done|]. cbn [foldl].
  destruct (IH (removeAgent i0 w)) as [I1 I2]. split.
  - intros i. rewrite I1, removeAgent_agents.
    destruct (decide (i = i0)) as [->|Hne].
    + rewrite (bool_decide_eq_true_2 (i0 ∈ i0 :: ids)) by set_solver.
      by destruct (bool_decide _).
    + destruct (decide (i ∈ ids)).
      * rewrite !bool_decide_eq_true_2; [done|set_solver|done].
      * rewrite !bool_decide_eq_false_2; [done|set_solver|done].
  - rewrite I2. destruct (agents w !! i0) as [a|] eqn:Ha.
    + by destruct (removeAgent_spec i0 w a Ha) as (_ & _ & _ & _ & _ & _ & _ & _ & ->).
    + unfold removeAgent. by rewrite Ha.
Qed.

Lemma cleanupAll_spec ts w :
  (∀ tm, terminalScanTimers (foldl (λ w terminal, cleanupTerminalScan terminal w) w ts) !! tm
         = if bool_decide (tm ∈ ts) then None else terminalScanTimers w !! tm)
  ∧ agents (foldl (λ w terminal, cleanupTerminalScan terminal w) w ts) = agents w
  ∧ posted (foldl (λ w terminal, cleanupTerminalScan terminal w) w ts) = posted w.
Proof.
  revert w. induction ts as [|t0 ts IH]; intros w; [done|]. cbn [foldl].
  destruct (IH (cleanupTerminalScan t0 w)) as (I1 & I2 & I3).
  assert (terminalScanTimers (cleanupTerminalScan t0 w) = delete t0 (terminalScanTimers w)
          ∧ agents (cleanupTerminalScan t0 w) = agents w
          ∧ posted (cleanupTerminalScan t0 w) = posted w) as (K1 & K2 & K3).
  { unfold cleanupTerminalScan. by destruct (terminalScanTimers w !! t0). }
  split_and!; [|congruence..].
  intros tm. rewrite I1, K1. destruct (decide (tm = t0)) as [->|Hne].
  - rewrite (bool_decide_eq_true_2 (t0 ∈ t0 :: ts)) by set_solver.
    rewrite lookup_delete_eq. by destruct (bool_decide _).
  - rewrite lookup_delete_ne by done. destruct (decide (tm ∈ ts)).
    + rewrite !bool_decide_eq_true_2; [done|set_solver|done].
    + rewrite !bool_decide_eq_false_2; [done|set_solver|done].
Qed.

End Registry.

Section Reachable.
Context {RT : NodeRuntime}.

(** Agent ids.  In every reachable state the id an agent carries is the key
    it is registered under, and it lies between 1 and the next id to hand
    out. *)
Theorem agent_ids trace i a :
  agents (run trace init) !! i = Some a →
  id a = i ∧ 1 ≤ i < nextAgentId (run trace init).
Proof.
  intros Ha. destruct (tidy_id _ (Tidy_run trace) i a Ha) as [? ?].
  pose proof (inv_ids _ (Inv_run trace) i a Ha). by split_and!.
Qed.

(** The claim set is the set of the files of the registered agents: in
    every reachable state a path is claimed exactly when an agent reads it.
    No claim outlives its agent. *)
Theorem claims_are_owned trace f :
  f ∈ claimedFiles (run trace init)
  ↔ ∃ i a, agents (run trace init) !! i = Some a ∧ jsonlFile a = f.
Proof.
  split.
  - apply (tidy_owned _ (Tidy_run trace)).
  - intros (i & a & Ha & <-). by eapply inv_claimed, Ha; apply Inv_run.
Qed.

(** The carried fragment never holds a line terminator, and the offset is
    never negative, in every reachable state. *)
Theorem carry_without_newline trace i a :
  agents (run trace init) !! i = Some a →
  (newline ∉ lineBuffer a) ∧ 0 ≤ fileOffset a.
Proof. apply (tidy_carry _ (Tidy_run trace)). Qed.

(** Every registered agent is polled.  In every reachable state each agent
    has a pending interval of 2 s that reads its transcript, under the handle
    kept for it; every pending poll is that of a registered agent, so the
    check of the poll callback for a removed agent never applies; a file
    watcher is open for the agent exactly when a handle is kept for it; and
    handles are kept for registered agents only. *)
Theorem agents_are_polled trace i :
  let w := run trace init in
  (is_Some (agents w !! i) →
   ∃ h t, pollingTimers w !! i = Some h ∧ timers w !! h = Some t
          ∧ callback t = PollTick i ∧ period t = Some 2000)
  ∧ (∀ h t, timers w !! h = Some t → callback t = PollTick i →
       pollingTimers w !! i = Some h ∧ is_Some (agents w !! i))
  ∧ (∀ h, fileWatchers w !! i = Some h ↔ watchers w !! h = Some i)
  ∧ (is_Some (pollingTimers w !! i) ∨ is_Some (fileWatchers w !! i)
     ∨ is_Some (waitingTimers w !! i) → is_Some (agents w !! i)).
Proof.
  intros w. pose proof (Inv_run trace) as HI. pose proof (Tidy_run trace) as HT.
  fold w in HI, HT. split_and!.
  - intros Hi. destruct (tidy_polled _ HT i Hi) as (h & t & Hh & Ht & Hcb).
    exists h, t. split_and!; try done.
    rewrite (tidy_period _ HT h t Ht), Hcb. done.
  - intros h t Ht Hcb. by apply (inv_poll _ HI h t i).
  - intros h. split; [apply (tidy_watched _ HT) | apply (inv_watch _ HI)].
  - intros [Hp|[[h Hh]|[h Hh]]].
    + by apply (tidy_polling _ HT).
    + apply (tidy_watched _ HT) in Hh. by apply (inv_watch _ HI) in Hh as [_ ?].
    + destruct (tidy_waiting _ HT i h Hh) as (t & Ht & Hcb).
      by destruct (inv_wait _ HI h t i Ht Hcb) as (_ & ? & _).
Qed.

(** The debounce handle.  In every reachable state the handle kept for the
    waiting timer of an agent is the handle of a pending timeout that
    reports the agent as waiting, and every such timeout is under the kept
    handle: an agent has at most one pending. *)
Theorem debounce_pending trace i h :
  let w := run trace init in
  waitingTimers w !! i = Some h
  ↔ ∃ t, timers w !! h = Some t ∧ callback t = WaitingFire i.
Proof.
  intros w. split.
  - apply (tidy_waiting _ (Tidy_run trace)).
  - intros (t & Ht & Hcb). by destruct (inv_wait _ (Inv_run trace) h t i Ht Hcb).
Qed.

(** Terminals under scan.  In every reachable state a project directory is
    recorded for a terminal exactly when a scan handle is kept for it, and
    the handle is that of a pending interval of 1 s that scans for this
    terminal. *)
Theorem terminals_scanned trace terminal :
  let w := run trace init in
  (is_Some (terminalProjectDirs w !! terminal)
   ↔ is_Some (terminalScanTimers w !! terminal))
  ∧ ∀ h, terminalScanTimers w !! terminal = Some h →
      ∃ t sessionId, timers w !! h = Some t
        ∧ callback t = ScanTick terminal sessionId ∧ period t = Some 1000.
Proof.
  intros w. pose proof (Tidy_run trace) as HT. fold w in HT. split.
  - apply (tidy_dirs _ HT).
  - intros h Hh. destruct (tidy_scanning _ HT terminal h Hh) as (t & sid & Ht & Hcb).
    exists t, sid. split_and!; try done. rewrite (tidy_period _ HT h t Ht), Hcb. done.
Qed.

(** Disposal.  After [dispose] in a reachable state no agent is registered,
    no file is claimed, no watcher is open and no handle is kept for an agent
    or a terminal; nothing is emitted; and the timers still pending are scans
    of terminals no longer followed and delayed tool-done messages. *)
Theorem disposed trace :
  let w := run trace init in
  let w' := dispose w in
  agents w' = ∅ ∧ claimedFiles w' = ∅
  ∧ fileWatchers w' = ∅ ∧ pollingTimers w' = ∅ ∧ waitingTimers w' = ∅
  ∧ watchers w' = ∅
  ∧ terminalScanTimers w' = ∅ ∧ terminalProjectDirs w' = ∅
  ∧ posted w' = posted w
  ∧ ∀ h t, timers w' !! h = Some t → untracked (callback t).
Proof.
  intros w w'.
  assert (Inv w') as HI by (apply sound_dispose, Inv_run).
  assert (Tidy w') as HT by (apply tidy_dispose; [apply Inv_run | apply Tidy_run]).
  assert (agents w' = ∅ ∧ terminalScanTimers w' = ∅ ∧ posted w' = posted w)
    as (Ha & Hs & Hp).
  { subst w'. unfold dispose.
    destruct (removeAll_spec (agentIds w) w) as [R1 R2].
    set (w1 := foldl (λ w id, removeAgent id w) w (agentIds w)) in *.
    destruct (cleanupAll_spec (map_to_list (terminalScanTimers w1)).*1 w1) as (C1 & C2 & C3).
    split_and!.
    - rewrite C2. apply map_empty. intros i. rewrite R1.
      case_bool_decide as Hi; [done|]. apply eq_None_not_Some. by rewrite <- elem_of_agentIds.
    - apply map_empty. intros tm. rewrite C1. case_bool_decide as Hi; [done|].
      destruct (terminalScanTimers w1 !! tm) as [h|] eqn:Hh; [|done].
      destruct Hi. apply list_elem_of_fmap. exists (tm, h). split; [done|].
      by apply elem_of_map_to_list.
    - by rewrite C3, R2. }
  assert (∀ i, agents w' !! i = None) as Hnone by (intros i; by rewrite Ha).
  assert (watchers w' = ∅) as Hw.
  { apply map_empty. intros h. destruct (watchers w' !! h) as [i|] eqn:Hh; [|done].
    destruct (inv_watch _ HI h i Hh) as [_ [a Hi]]. by rewrite Hnone in Hi. }
  split_and!; try done.
  - apply set_eq. intros f. split; [|set_solver].
    intros (i & a & Hi & _)%(tidy_owned _ HT). by rewrite Hnone in Hi.
  - apply map_empty. intros i. destruct (fileWatchers w' !! i) as [h|] eqn:Hh; [|done].
    apply (tidy_watched _ HT) in Hh. by rewrite Hw in Hh.
  - apply map_empty. intros i. apply eq_None_not_Some.
    intros [a Hi]%(tidy_polling _ HT). by rewrite Hnone in Hi.
  - apply map_empty. intros i. destruct (waitingTimers w' !! i) as [h|] eqn:Hh; [|done].
    destruct (tidy_waiting _ HT i h Hh) as (t & Ht & Hcb).
    destruct (inv_wait _ HI h t i Ht Hcb) as (_ & [a Hi] & _). by rewrite Hnone in Hi.
  - apply map_empty. intros tm. apply eq_None_not_Some.
    intros Hd%(tidy_dirs _ HT). rewrite Hs in Hd. by destruct Hd.
  - intros h t Ht. destruct (callback t) as [| j | j |] eqn:Hcb; try done.
    + destruct (inv_poll _ HI h t j Ht Hcb) as (_ & [a Hi]). by rewrite Hnone in Hi.
    + destruct (inv_wait _ HI h t j Ht Hcb) as (_ & [a Hi] & _). by rewrite Hnone in Hi.
Qed.

End Reachable.

Section Scans.
Context {RT : NodeRuntime}.

Lemma hosts_post m w : hosts (post m w) = hosts w.
Proof. unfold post. by destruct (webviewView w). Qed.

Lemma hosts_updAgent j f w : hosts (updAgent j f w) = hosts w.
Proof. done. Qed.

Lemma hosts_cancelWaitingTimer j w : hosts (cancelWaitingTimer j w) = hosts w.
Proof. unfold cancelWaitingTimer. by destruct (waitingTimers w !! j). Qed.

Lemma hosts_startWaitingTimer j delayMs w : hosts (startWaitingTimer j delayMs w) = hosts w.
Proof. unfold startWaitingTimer. simpl. apply hosts_cancelWaitingTimer. Qed.

Lemma hosts_clearAgentActivity j w : hosts (clearAgentActivity j w) = hosts w.
Proof.
  unfold clearAgentActivity. destruct (agents w !! j); [|done].
  by rewrite !hosts_post, !hosts_updAgent.
Qed.

Lemma hosts_turnCompleted j w : hosts (turnCompleted j w) = hosts w.
Proof.
  unfold turnCompleted. by rewrite hosts_post, hosts_updAgent, hosts_cancelWaitingTimer.
Qed.

Lemma hosts_toolUseLoop j blocks w : hosts (toolUseLoop j blocks w) = hosts w.
Proof.
  revert w. induction blocks as [|block blocks IH]; intros w; [done|]. simpl.
  assert (∀ w', toolUseBlock j block w = Some w' → hosts w' = hosts w) as Hb.
  { unfold toolUseBlock. intros w' Hw'.
    destruct (_ && _); [|by injection Hw' as <-].
    destruct (formatToolStatus _ _) as [status|]; [|done].
    destruct (toStr _); [|done]. injection Hw' as <-.
    by rewrite hosts_post, !hosts_updAgent. }
  destruct (toolUseBlock j block w) as [w'|]; [|by destruct block].
  destruct block; try done; rewrite IH; by apply Hb.
Qed.

Lemma hosts_toolResultLoop j blocks w : hosts (toolResultLoop j blocks w) = hosts w.
Proof.
  revert w. induction blocks as [|block blocks IH]; intros w; [done|]. simpl.
  assert (∀ w', toolResultBlock j block w = Some w' → hosts w' = hosts w) as Hb.
  { unfold toolResultBlock. intros w' Hw'.
    destruct (_ && _); [|by injection Hw' as <-].
    destruct (toStr _); [|done]. by injection Hw' as <-. }
  destruct (toolResultBlock j block w) as [w'|]; [|by destruct block].
  destruct block; try done; rewrite IH; by apply Hb.
Qed.

Lemma hosts_processRecord j record w : hosts (processRecord j record w) = hosts w.
Proof.
  unfold processRecord.
  destruct record; try done;
  repeat match goal with
  | |- hosts (match ?x with _ => _ end) = _ => destruct x
  | |- hosts (if ?x then _ else _) = _ => destruct x
  | |- hosts (toolUseLoop _ _ _) = _ => rewrite hosts_toolUseLoop
  | |- hosts (toolResultLoop _ _ _) = _ => rewrite hosts_toolResultLoop
  | |- hosts (post _ _) = _ => rewrite hosts_post
  | |- hosts (updAgent _ _ _) = _ => rewrite hosts_updAgent
  | |- hosts (clearAgentActivity _ _) = _ => rewrite hosts_clearAgentActivity
  | |- hosts (cancelWaitingTimer _ _) = _ => rewrite hosts_cancelWaitingTimer
  | |- hosts (startWaitingTimer _ _ _) = _ => rewrite hosts_startWaitingTimer
  | |- hosts (turnCompleted _ _) = _ => rewrite hosts_turnCompleted
  end; done.
Qed.

Lemma hosts_readNewLines E j w : hosts (readNewLines E j w) = hosts w.
Proof.
  unfold readNewLines. destruct (agents w !! j) as [a|]; [|done].
  destruct (pump E a) as [[a' lines]|]; [|done].
  change (hosts w) with (hosts (set_agents (<[j:=a']> (agents w)) w)).
  generalize (set_agents (<[j:=a']> (agents w)) w). generalize (deliverable lines).
  intros ls. induction ls as [|l ls IH]; intros w'; [done|]. simpl. rewrite IH.
  unfold processTranscriptLine. destruct (agents w' !! j); [|done].
  destruct (JSON_parse l); [|done]. apply hosts_processRecord.
Qed.

Lemma hosts_createAgentFromFile E terminal filePath projectDir w :
  hosts (createAgentFromFile E terminal filePath projectDir w) = hosts w.
Proof.
  rewrite createAgentFromFile_register, hosts_readNewLines.
  unfold registerAgent, startFileWatching, setInterval, setTimer, post.
  by destruct (watchable E filePath), (webviewView _).
Qed.

Lemma hosts_removeAgent j w : hosts (removeAgent j w) = hosts w.
Proof. destruct (removeAgent_hosts j w) as (_ & ? & ? & ? & _). unfold hosts. congruence. Qed.

Lemma hosts_claims E terminal projectDir (guard : jsstring → World → bool) files w :
  hosts (foldl (λ w file, if guard file w
                          then createAgentFromFile E terminal file projectDir w else w)
               w files) = hosts w.
Proof.
  revert w. induction files as [|f files IH]; intros w; [done|]. simpl. rewrite IH.
  destruct (guard f w); [apply hosts_createAgentFromFile | done].
Qed.



Lemma hosts_scanForNewFiles E terminal sessionId w :
  hosts (scanForNewFiles E terminal sessionId w) = hosts w.
Proof.
  unfold scanForNewFiles.
  destruct (nonEmpty (terminalProjectDirs w !! terminal)) as [projectDir|]; [|done].
  destruct (readdirSync E projectDir) as [names|].
  - rewrite (hosts_claims E terminal projectDir
               (λ file w, negb (bool_decide (file ∈ claimedFiles w)) && isFileRecent E file)).
    destruct (nonEmpty sessionId); [|done].
    destruct (_ && _); [apply hosts_createAgentFromFile | done].
  - destruct (nonEmpty sessionId); [|done].
    destruct (_ && _); [apply hosts_createAgentFromFile | done].
Qed.



(** The index of the next terminal name never decreases, whatever happens,
    and it is at least 1 in every reachable state. *)
Theorem terminal_index_grows trace ev :
  let w := run trace init in
  1 ≤ nextTerminalIndex w ≤ nextTerminalIndex (step w ev).
Proof.
  assert (∀ w ev, nextTerminalIndex w ≤ nextTerminalIndex (step w ev)) as Hstep.
  { clear. intros w ev.
    assert (∀ E t sid cwd w0, nextTerminalIndex (startTerminalFileScan E t sid cwd w0)
                              = nextTerminalIndex w0) as Hscan.
    { intros. unfold startTerminalFileScan. by destruct (nonEmpty _). }
    assert (∀ idx w0, nextTerminalIndex w0 ≤ nextTerminalIndex (noteTerminalIndex idx w0))
      as Hnote.
    { intros. unfold noteTerminalIndex. destruct (Z.leb_spec (nextTerminalIndex w0) idx);
        simpl; lia. }
    assert (∀ w0 w1, hosts w1 = hosts w0 → nextTerminalIndex w0 ≤ nextTerminalIndex w1)
      as Hh by (intros ?? [= -> _ _]; lia).
    destruct ev; cbn [step].
    - unfold adoptExistingTerminals.
      change (nextTerminalIndex w) with (nextTerminalIndex (set_webviewView true w)).
      generalize (set_webviewView true w). intros w0.
      induction terminals as [|t ts IH] using rev_ind; [done|].
      rewrite foldl_snoc. etrans; [apply IH|].
      destruct (matchTerminalName t.2); [|done]. rewrite Hscan. apply Hnote.
    - unfold launchNewTerminal. rewrite Hscan. simpl. lia.
    - apply Hh. unfold sendExistingAgents, sendCurrentAgentStatuses.
      destruct (webviewView w) eqn:Hweb; [|done]. simpl. rewrite Hweb.
      by rewrite statuses_spec.
    - unfold onDidOpenTerminal. destruct (matchTerminalName name); [|done].
      destruct (negb _); [|done]. rewrite Hscan. apply Hnote.
    - unfold onDidCloseTerminal.
      assert (∀ w0, nextTerminalIndex (cleanupTerminalScan closed w0) = nextTerminalIndex w0)
        as -> by (intros; unfold cleanupTerminalScan; by destruct (terminalScanTimers _ !! _)).
      generalize (agentIds w). intros ids.
      induction ids as [|i ids IH] using rev_ind; [done|].
      rewrite foldl_snoc. etrans; [apply IH|].
      destruct (agents _ !! i); [|done]. destruct (bool_decide _); [|done].
      apply Hh. unfold emit. simpl. apply hosts_removeAgent.
    - unfold fireTimer. destruct (timers w !! h) as [t|]; [|done].
      destruct (clock w <? due t); [done|].
      assert (∀ w0, hosts w0 = hosts w →
                nextTerminalIndex w ≤ nextTerminalIndex (runCallback E h (callback t) w0))
        as Hcb.
      { intros w0 Hw0. apply Hh. rewrite <- Hw0.
        destruct (callback t); simpl.
        - apply hosts_scanForNewFiles.
        - unfold pollTick. destruct (agents w0 !! agentId); [apply hosts_readNewLines | done].
        - unfold waitingTimerFired. by rewrite hosts_post, hosts_updAgent.
        - unfold toolDoneFired. by rewrite hosts_post. }
      apply Hcb. by destruct (period t).
    - destruct (watchers w !! watcher); [|done]. apply Hh, hosts_readNewLines.
    - done.
    - unfold dispose. etrans.
      + instantiate (1 := nextTerminalIndex (foldl (λ w id, removeAgent id w) w (agentIds w))).
        generalize (agentIds w). intros ids.
        induction ids as [|i ids IH] using rev_ind; [done|].
        rewrite foldl_snoc. etrans; [apply IH|]. apply Hh, hosts_removeAgent.
      + generalize (foldl (λ w id, removeAgent id w) w (agentIds w)). intros w0.
        generalize ((map_to_list (terminalScanTimers w0)).*1). intros ts.
        induction ts as [|t ts IH] using rev_ind; [done|].
        rewrite foldl_snoc. etrans; [apply IH|].
        unfold cleanupTerminalScan. by destruct (terminalScanTimers _ !! _). }
  intros w. split; [|apply Hstep]. subst w. unfold run.
  induction trace as [|e trace IH] using rev_ind; [done|].
  rewrite foldl_snoc. etrans; [apply IH | apply Hstep].
Qed.

End Scans.

(** ** Examples for the further properties *)

Lemma new_user_turn_witness :
  let w := run (RT := Sample.runtime) (Sample.opened [Sample.textLine]) init in
  let w' := processRecord (RT := Sample.runtime) 1 (Sample.record Sample.userLine) w in
  agents w !! 1 = Some (set_fileOffset 73 Sample.agent1)
  ∧ waitingTimers w !! 1 = Some 4
  ∧ posted w' = posted w ++ [agentToolsClear 1; agentStatus 1 active]
  ∧ waitingTimers w' !! 1 = None.
Proof.
  intros w w'.
  assert (agents w !! 1 = Some (set_fileOffset 73 Sample.agent1)) as Ha
    by (vm_compute; reflexivity).
  assert (webviewView w = true) as Hweb by (vm_compute; reflexivity).
  assert (isStr (field "type" (Sample.record Sample.userLine)) "user" = true) as Ht
    by (vm_compute; reflexivity).
  assert (blank (lit "go on") = false) as Hb by (vm_compute; reflexivity).
  assert (optField "content" (field "message" (Sample.record Sample.userLine))
          = Some (JStr (lit "go on"))) as Hc by (vm_compute; reflexivity).
  pose proof (new_user_turn (RT := Sample.runtime) (Sample.opened [Sample.textLine]) 1 _
                (Sample.record Sample.userLine) Ha Hweb Ht
                (or_intror (ex_intro _ (lit "go on") (conj Hc Hb)))) as H.
  split_and!; [exact Ha | vm_compute; reflexivity | exact (proj1 (proj2 H))
              | exact (proj1 (proj2 (proj2 H)))].
Defined.

Lemma tool_started_then_finished_witness :
  let w := run (RT := Sample.runtime) (Sample.opened [Sample.textLine]) init in
  let w1 := processRecord (RT := Sample.runtime) 1 (Sample.record Sample.toolUseLine) w in
  let w2 := processRecord (RT := Sample.runtime) 1 (Sample.record Sample.finishedLine) w1 in
  agents w !! 1 = Some (set_fileOffset 73 Sample.agent1)
  ∧ posted w1 = posted w ++ [agentStatus 1 active;
                             agentToolStart 1 (JStr (lit "t1")) (lit "Searching files")]
  ∧ agents w2 = <[1 := set_isWaiting false (set_fileOffset 73 Sample.agent1)]> (agents w).
Proof.
  intros w w1 w2.
  assert (agents w !! 1 = Some (set_fileOffset 73 Sample.agent1)) as Ha
    by (vm_compute; reflexivity).
  assert (lit "t1" ≠ []) as Hne by (vm_compute; discriminate).
  pose proof (tool_started_then_finished (RT := Sample.runtime)
                (Sample.opened [Sample.textLine]) 1 _
                (Sample.record Sample.toolUseLine) (Sample.record Sample.finishedLine)
                (default JNull (head (Sample.blocksOf (Sample.record Sample.toolUseLine))))
                (default JNull (head (Sample.blocksOf (Sample.record Sample.finishedLine))))
                (lit "t1") (lit "Searching files") Ha) as H.
  split_and!; [exact Ha | |].
  - refine (proj1 (proj2 (H _ Hne _ _ _ _ _ _ _ _ _ _))); vm_compute; reflexivity.
  - refine (proj1 (proj2 (proj2 (H _ Hne _ _ _ _ _ _ _ _ _ _)))); vm_compute; reflexivity.
Defined.


Lemma project_dir_name_witness :
  nonEmpty (match nonEmpty None with
            | Some p => Some p
            | None => workspaceFolder Sample.empty
            end) = Some (lit "/work")
  ∧ ∃ dirName,
      getProjectDirPath (RT := Sample.runtime) Sample.empty None
      = Some (path_join (NodeRuntime := Sample.runtime)
                [homedir Sample.empty; lit ".claude"; lit "projects"; dirName])
      ∧ length dirName = length (lit "/work")
      ∧ ∀ k c, lit "/work" !! k = Some c →
          dirName !! k = Some (if bool_decide (c ∈ [58; 92; 47]) then 45 else c)
          ∧ ∀ c', dirName !! k = Some c' → c' ∉ [58; 92; 47].
Proof.
  assert (nonEmpty (match nonEmpty None with
                    | Some p => Some p
                    | None => workspaceFolder Sample.empty
                    end) = Some (lit "/work")) as Hw by (vm_compute; reflexivity).
  split; [exact Hw|].
  exact (project_dir_name (RT := Sample.runtime) Sample.empty None (Some (lit "/work")) Hw).
Defined.

Lemma launched_name_matches_witness :
  0 ≤ 12 < 2 ^ 53 ∧ matchTerminalName (terminalName 12) = Some 12.
Proof. split; [lia|]. apply launched_name_matches. lia. Defined.

Lemma launched_terminal_not_adopted_witness :
  let w := launchNewTerminal (RT := Sample.runtime) Sample.empty 7 (lit "s1") init in
  is_Some (terminalScanTimers w !! 7)
  ∧ onDidOpenTerminal (RT := Sample.runtime) Sample.empty 7 (terminalName 1) w = w.
Proof.
  intros w. split; [vm_compute; by eexists|].
  apply (launched_terminal_not_adopted (RT := Sample.runtime)).
  vm_compute. by eexists.
Defined.

Lemma existing_agents_resent_witness :
  let w := run (RT := Sample.runtime)
             (Sample.opened [Sample.toolUseLine; Sample.turnLine]) init in
  webviewView w = true
  ∧ posted (sendExistingAgents w)
    = posted w ++ [existingAgents [1];
                   agentToolStart 1 (JStr (lit "t1")) (lit "Searching files");
                   agentStatus 1 waiting].
Proof.
  intros w.
  assert (webviewView w = true) as Hweb by (vm_compute; reflexivity).
  split; [exact Hweb|].
  rewrite (proj1 (existing_agents_resent w Hweb)). vm_compute. reflexivity.
Defined.

Lemma agent_ids_witness :
  let w := run (RT := Sample.runtime) (Sample.opened [Sample.textLine]) init in
  agents w !! 1 = Some (set_fileOffset 73 Sample.agent1)
  ∧ id (set_fileOffset 73 Sample.agent1) = 1
  ∧ 1 ≤ 1 < nextAgentId w.
Proof.
  intros w.
  assert (agents w !! 1 = Some (set_fileOffset 73 Sample.agent1)) as Ha
    by (vm_compute; reflexivity).
  split; [exact Ha|].
  exact (agent_ids (RT := Sample.runtime) (Sample.opened [Sample.textLine]) 1 _ Ha).
Defined.

Lemma carry_without_newline_witness :
  let w := run (RT := Sample.runtime) (Sample.opened [Sample.textLine]) init in
  agents w !! 1 = Some (set_fileOffset 73 Sample.agent1)
  ∧ (newline ∉ lineBuffer (set_fileOffset 73 Sample.agent1))
  ∧ 0 ≤ fileOffset (set_fileOffset 73 Sample.agent1).
Proof.
  intros w.
  assert (agents w !! 1 = Some (set_fileOffset 73 Sample.agent1)) as Ha
    by (vm_compute; reflexivity).
  split; [exact Ha|].
  exact (carry_without_newline (RT := Sample.runtime) (Sample.opened [Sample.textLine]) 1 _ Ha).
Defined.

(** * The reader and the debounce over whole runs *)

Section Reads.
Context {RT : NodeRuntime}.

(** ** The decoder on reads that end between characters *)

Lemma utf8_run_app st bs cs :
  utf8_pending st bs = Idle →
  utf8_run st (bs ++ cs) = utf8_run st bs ++ utf8_run Idle cs.
Proof.
  revert st. induction bs as [|b bs IH]; intros st Hst; simpl in *.
  - by subst st.
  - destruct st as [|cp n lower upper].
    + rewrite IH by done. by rewrite app_assoc.
    + destruct ((lower <=? b) && (b <=? upper)).
      * destruct n as [|[|n]]; rewrite IH by done; by rewrite ?app_assoc.
      * rewrite IH by done. by rewrite !app_comm_cons, app_assoc.
Qed.

Lemma utf8_pending_app st bs cs :
  utf8_pending st (bs ++ cs) = utf8_pending (utf8_pending st bs) cs.
Proof.
  revert st. induction bs as [|b bs IH]; intros st; [done|]. simpl.
  destruct st as [|cp n lower upper]; [done|].
  destruct ((lower <=? b) && (b <=? upper)); [|done]. by destruct n as [|[|n]].
Qed.

Lemma toString_utf8_chunks chunks :
  Forall (λ c, utf8_pending Idle c = Idle) chunks →
  concat (toString_utf8 <$> chunks) = toString_utf8 (concat chunks).
Proof.
  induction 1 as [|c chunks Hc _ IH]; [done|]. csimpl.
  unfold toString_utf8 in *. by rewrite utf8_run_app, IH.
Qed.

(** ** The reader and the interpreter *)

Lemma updAgent_id j f a w : agents w !! j = Some a → f a = a → updAgent j f w = w.
Proof.
  intros Ha Hf. unfold updAgent. rewrite (alter_alt_Some _ _ _ a Ha), Hf, insert_id by done.
  by destruct w.
Qed.

Lemma updAgent_swap j f g w :
  (∀ a, f (g a) = g (f a)) → updAgent j f (updAgent j g w) = updAgent j g (updAgent j f w).
Proof.
  intros Hfg. rewrite !updAgent_updAgent. unfold updAgent. f_equal.
  apply alter_ext. intros b _. apply Hfg.
Qed.

Lemma consumed_lookup j offset carry w :
  agents (updAgent j (consumed offset carry) w) !! j
  = consumed offset carry <$> agents w !! j.
Proof. simpl. apply lookup_alter_eq. Qed.

(** The interpreter never reads the offset or the carry: storing them
    before or after a line is interpreted gives the same state. *)
Lemma post_consumed j o c m w :
  post m (updAgent j (consumed o c) w) = updAgent j (consumed o c) (post m w).
Proof. unfold post, updAgent. simpl. by destruct (webviewView w). Qed.

Lemma updAgent_consumed j o c f w :
  (∀ a, f (consumed o c a) = consumed o c (f a)) →
  updAgent j f (updAgent j (consumed o c) w) = updAgent j (consumed o c) (updAgent j f w).
Proof. apply updAgent_swap. Qed.

Lemma cancelWaitingTimer_consumed j o c w :
  cancelWaitingTimer j (updAgent j (consumed o c) w)
  = updAgent j (consumed o c) (cancelWaitingTimer j w).
Proof. unfold cancelWaitingTimer. simpl. by destruct (waitingTimers w !! j). Qed.

Lemma startWaitingTimer_consumed j o c delayMs w :
  startWaitingTimer j delayMs (updAgent j (consumed o c) w)
  = updAgent j (consumed o c) (startWaitingTimer j delayMs w).
Proof.
  unfold startWaitingTimer. rewrite cancelWaitingTimer_consumed. done.
Qed.

Lemma setTimeout_consumed j o c cb delayMs w :
  setTimeout cb delayMs (updAgent j (consumed o c) w)
  = updAgent j (consumed o c) (setTimeout cb delayMs w).
Proof. done. Qed.

Lemma clearAgentActivity_consumed j o c w :
  clearAgentActivity j (updAgent j (consumed o c) w)
  = updAgent j (consumed o c) (clearAgentActivity j w).
Proof.
  unfold clearAgentActivity. rewrite consumed_lookup.
  destruct (agents w !! j); [|done]. simpl.
  by rewrite !updAgent_consumed, !post_consumed.
Qed.

Lemma turnCompleted_consumed j o c w :
  turnCompleted j (updAgent j (consumed o c) w)
  = updAgent j (consumed o c) (turnCompleted j w).
Proof.
  unfold turnCompleted.
  by rewrite cancelWaitingTimer_consumed, updAgent_consumed, post_consumed.
Qed.

Lemma toolUseBlock_consumed j o c block w :
  toolUseBlock j block (updAgent j (consumed o c) w)
  = updAgent j (consumed o c) <$> toolUseBlock j block w.
Proof.
  unfold toolUseBlock. destruct (_ && _); [|done].
  destruct (formatToolStatus _ _) as [status|]; [|done].
  destruct (toStr _); [|done]. simpl.
  by rewrite !updAgent_consumed, post_consumed.
Qed.

Lemma toolUseLoop_consumed j o c blocks w :
  toolUseLoop j blocks (updAgent j (consumed o c) w)
  = updAgent j (consumed o c) (toolUseLoop j blocks w).
Proof.
  revert w. induction blocks as [|block blocks IH]; intros w; [done|]. simpl.
  rewrite toolUseBlock_consumed.
  destruct (toolUseBlock j block w) as [w'|]; simpl; [|by destruct block].
  rewrite IH. by destruct block.
Qed.

Lemma toolResultBlock_consumed j o c block w :
  toolResultBlock j block (updAgent j (consumed o c) w)
  = updAgent j (consumed o c) <$> toolResultBlock j block w.
Proof.
  unfold toolResultBlock. destruct (_ && _); [|done].
  destruct (toStr _); [|done]. simpl.
  by rewrite !updAgent_consumed, setTimeout_consumed.
Qed.

Lemma toolResultLoop_consumed j o c blocks w :
  toolResultLoop j blocks (updAgent j (consumed o c) w)
  = updAgent j (consumed o c) (toolResultLoop j blocks w).
Proof.
  revert w. induction blocks as [|block blocks IH]; intros w; [done|]. simpl.
  rewrite toolResultBlock_consumed.
  destruct (toolResultBlock j block w) as [w'|]; simpl; [|by destruct block].
  rewrite IH. by destruct block.
Qed.

Lemma processRecord_consumed j o c record w :
  processRecord j record (updAgent j (consumed o c) w)
  = updAgent j (consumed o c) (processRecord j record w).
Proof.
  unfold processRecord. destruct record; try done; repeat case_match; try done;
    rewrite ?cancelWaitingTimer_consumed, ?updAgent_consumed, ?post_consumed,
      ?toolUseLoop_consumed, ?toolResultLoop_consumed, ?startWaitingTimer_consumed,
      ?clearAgentActivity_consumed, ?turnCompleted_consumed by done; done.
Qed.

Lemma processTranscriptLine_consumed j o c line w :
  processTranscriptLine j line (updAgent j (consumed o c) w)
  = updAgent j (consumed o c) (processTranscriptLine j line w).
Proof.
  unfold processTranscriptLine. rewrite consumed_lookup.
  destruct (agents w !! j); [|done]. simpl.
  destruct (JSON_parse line); [|done]. apply processRecord_consumed.
Qed.

Lemma deliver_consumed j o c lines w :
  foldl (λ w line, processTranscriptLine j line w) (updAgent j (consumed o c) w) lines
  = updAgent j (consumed o c) (foldl (λ w line, processTranscriptLine j line w) w lines).
Proof.
  revert w. induction lines as [|line lines IH]; intros w; [done|]. simpl.
  by rewrite processTranscriptLine_consumed, IH.
Qed.

(** The pump reads only the file, the offset and the carry of the agent. *)
Lemma pump_reader E a b :
  reader a = reader b →
  match pump E a, pump E b with
  | Some (a', lines), Some (b', lines') =>
      lines = lines' ∧ fileOffset a' = fileOffset b' ∧ lineBuffer a' = lineBuffer b'
      ∧ reader a' = reader b'
  | None, None => True
  | _, _ => False
  end.
Proof.
  intros [= Hid Ht Hd Hf Ho Hl]. unfold pump. rewrite Hf, Ho, Hl.
  destruct (statSync E (jsonlFile b)) as [stat|]; [|done].
  destruct (fs.size stat <=? fileOffset b); [done|].
  destruct (fileBytes E (jsonlFile b)); [|done]. simpl.
  split_and!; try done. unfold reader. simpl. congruence.
Qed.

Lemma pumps_reader Es : ∀ a b,
  reader a = reader b →
  (pumps Es a).2 = (pumps Es b).2
  ∧ fileOffset (pumps Es a).1 = fileOffset (pumps Es b).1
  ∧ lineBuffer (pumps Es a).1 = lineBuffer (pumps Es b).1.
Proof.
  induction Es as [|E Es IH]; intros a b Hab; simpl.
  - by injection Hab as _ _ _ _ -> ->.
  - pose proof (pump_reader E a b Hab) as Hp.
    destruct (pump E a) as [[a' la]|], (pump E b) as [[b' lb]|]; try done.
    + destruct Hp as (-> & _ & _ & Hab'). destruct (IH a' b' Hab') as (H1 & H2 & H3).
      simpl. by rewrite H1, H2, H3.
    + by apply IH.
Qed.

(** Successive reads hand the interpreter the lines the pump splits off, in
    order and without the blank ones, and store the last offset and carry. *)
Lemma reads_pumps j Es : ∀ w a,
  Inv w → agents w !! j = Some a →
  reads Es j w
  = updAgent j (consumed (fileOffset (pumps Es a).1) (lineBuffer (pumps Es a).1))
      (foldl (λ w line, processTranscriptLine j line w) w (deliverable (pumps Es a).2)).
Proof.
  induction Es as [|E Es IH]; intros w a HI Ha.
  - simpl. symmetry. apply (updAgent_id j _ a); [done|]. by destruct a.
  - unfold reads in *. cbn [foldl]. simpl pumps.
    destruct (pump E a) as [[a' lines]|] eqn:Hp.
    + destruct (sound_readNewLines E j w HI) as [HI1 _].
      destruct (readNewLines_frame E j w HI) as (_ & _ & _ & _ & F5).
      specialize (F5 a Ha). rewrite Hp in F5. simpl in F5.
      destruct (agents (readNewLines E j w) !! j) as [a1|] eqn:Ha1; [|done].
      assert (reader a1 = reader a') as Hr by (simpl in F5; congruence). clear F5.
      rewrite (IH _ a1 HI1 Ha1).
      destruct (pumps_reader Es a1 a' Hr) as (-> & -> & ->). cbn [fst snd].
      unfold deliverable. rewrite List.filter_app, foldl_app. fold (deliverable lines).
      fold (deliverable (pumps Es a').2).
      assert (readNewLines E j w
              = updAgent j (consumed (fileOffset a') (lineBuffer a'))
                  (foldl (λ w line, processTranscriptLine j line w) w (deliverable lines)))
        as ->.
      { unfold readNewLines. rewrite Ha, Hp. rewrite <- deliver_consumed. f_equal.
        rewrite (updAgent_insert j _ a w Ha). f_equal. f_equal.
        by apply pump_Some in Hp as (stat & _ & _ & -> & _). }
      rewrite deliver_consumed, updAgent_updAgent. done.
    + assert (readNewLines E j w = w) as -> by (unfold readNewLines; by rewrite Ha, Hp).
      by apply IH.
Qed.

(** C2, as the code has it.  In a reachable state the transcript of an
    agent grows by appends and is read in arbitrary chunks, no read ending
    inside a multi-byte character.  The text is the carried fragment followed
    by the decoded bytes appended.  The reads hand the interpreter the
    complete lines of the text, in order and without their terminator, except
    the blank ones, and store the number of bytes consumed and the last
    fragment; the complete lines, each followed by the terminator, then the
    stored fragment, are the text; and for ASCII bytes the decoded bytes are
    the bytes. *)
Theorem lines_reassemble trace j a pre chunks Es :
  agents (run trace init) !! j = Some a →
  fileOffset a = Z.of_nat (length pre) →
  Forall2 (shows (jsonlFile a)) Es (appended pre chunks) →
  Forall (λ c, utf8_pending Idle c = Idle) chunks →
  let w := run trace init in
  let text := lineBuffer a ++ toString_utf8 (concat chunks) in
  let lines := removelast (split newline text) in
  let carry := default [] (last (split newline text)) in
  reads Es j w
  = updAgent j (consumed (Z.of_nat (length (pre ++ concat chunks))) carry)
      (foldl (λ w line, processTranscriptLine j line w) w (deliverable lines))
  ∧ terminated lines ++ carry = text
  ∧ (pumps Es a).2 = lines
  ∧ lineBuffer (pumps Es a).1 = carry
  ∧ fileOffset (pumps Es a).1 = Z.of_nat (length (pre ++ concat chunks))
  ∧ (Forall (λ b, 0 ≤ b < 128) (concat chunks) →
       toString_utf8 (concat chunks) = concat chunks).
Proof.
  intros Ha Hoff HEs Hwhole w text lines carry.
  destruct (tidy_carry _ (Tidy_run trace) j a Ha) as [Hnl _].
  destruct (pumps_appended (jsonlFile a) chunks a pre Es) as (_ & H2 & H3 & H4);
    [done..|].
  rewrite (toString_utf8_chunks chunks Hwhole) in H3, H4. cbv zeta in H3, H4.
  fold text in H3, H4. fold lines in H3. fold carry in H4.
  split_and!; [|apply split_terminated|done..|apply toString_utf8_ascii].
  subst w. rewrite (reads_pumps j Es _ a (Inv_run trace) Ha). by rewrite H2, H3, H4.
Qed.

End Reads.

Lemma lines_reassemble_witness :
  let w := run (RT := Sample.runtime) (Sample.opened []) init in
  let whole := Sample.transcript [Sample.textLine; Sample.toolUseLine] in
  let c1 := take 100 whole in
  let c2 := drop 100 whole in
  let Es := [Sample.session c1; Sample.session (c1 ++ c2)] in
  let text := lineBuffer Sample.agent1 ++ toString_utf8 (concat [c1; c2]) in
  agents w !! 1 = Some Sample.agent1
  ∧ Forall2 (shows (jsonlFile Sample.agent1)) Es (appended [] [c1; c2])
  ∧ deliverable (removelast (split newline text)) = [Sample.textLine; Sample.toolUseLine]
  ∧ reads (RT := Sample.runtime) Es 1 w
    = updAgent 1 (consumed (Z.of_nat (length ([] ++ concat [c1; c2])))
                    (default [] (last (split newline text))))
        (foldl (λ w line, processTranscriptLine (RT := Sample.runtime) 1 line w) w
               (deliverable (removelast (split newline text)))).
Proof.
  intros w whole c1 c2 Es text.
  assert (agents w !! 1 = Some Sample.agent1) as Ha by (vm_compute; reflexivity).
  assert (Forall2 (shows (jsonlFile Sample.agent1)) Es (appended [] [c1; c2])) as HEs
    by (repeat constructor).
  assert (Forall (λ c, utf8_pending Idle c = Idle) [c1; c2]) as Hwhole
    by (repeat constructor).
  split_and!; [exact Ha | exact HEs | vm_compute; reflexivity |].
  exact (proj1 (lines_reassemble (RT := Sample.runtime) (Sample.opened []) 1 Sample.agent1
                  [] [c1; c2] Es Ha eq_refl HEs Hwhole)).
Defined.

(** C2 as stated fails.  A blank line is read and never handed to the
    interpreter, so what was handed over, with the carry, is not the file;
    and a character whose bytes are cut by a read is handed over as two
    replacement characters. *)
Lemma handed_over_is_not_the_file :
  let content := Sample.transcript [lit "a"; lit " "; lit "b"] in
  let p := Sample.join [Sample.dir; lit "s1.jsonl"] in
  let result := pumps [Sample.session content] (newAgent 1 7 p Sample.dir) in
  let c1 := [34; 195] in
  let c2 := [169; 34; 10] in
  let cut := pumps [Sample.session c1; Sample.session (c1 ++ c2)]
                   (newAgent 1 7 p Sample.dir) in
  (fileOffset result.1 = Z.of_nat (length content)
   ∧ deliverable result.2 = [lit "a"; lit "b"]
   ∧ lineBuffer result.1 = []
   ∧ handedOver result ≠ toString_utf8 content
   ∧ concat (deliverable result.2) ++ lineBuffer result.1 ≠ toString_utf8 content)
  ∧ (fileOffset cut.1 = Z.of_nat (length (c1 ++ c2))
     ∧ deliverable cut.2 = [[34; 65533; 65533; 34]]
     ∧ lineBuffer cut.1 = []
     ∧ toString_utf8 (c1 ++ c2) = [34; 233; 34; 10]
     ∧ handedOver cut ≠ toString_utf8 (c1 ++ c2)).
Proof. vm_compute. by split_and!. Qed.

Section Debounce.
Context {RT : NodeRuntime}.
Variables (j h : Z) (t0 : Timer) (a : AgentState).
Hypothesis Hcb : callback t0 = WaitingFire j.












(** ** The interpreter of another agent *)















(** ** The handlers *)




Lemma still_of_quietly f : quietly j h t0 a f → still j h t0 a f.
Proof. intros Hf w _ HT Hh. by apply Hf. Qed.


















Lemma tidy_run trace : tidy (run trace).
Proof. apply tidy_foldl; intros ev; [apply sound_step | apply tidy_step]. Qed.



End Debounce.

Section Silence.
Context {RT : NodeRuntime}.


End Silence.

